(** * NexSupply request pipeline and knowledge-store merge

    A shallow embedding of the category resolver ([web/lib/compliance.ts]),
    the testing-cost and initial-order-cost estimators
    ([web/lib/regulation/testCost.ts], [web/lib/analysis/orderCost.ts]),
    the in-memory usage limiter ([web/lib/usage/limit.ts]), the
    [POST /api/analyze-product] handler and the knowledge-store merge of
    [web/scripts/autoCategory.ts], followed by the properties of the
    specification that concern them.

    Conventions of the embedding.
    - A JavaScript string is a [string]; each [ascii] is one UTF-16 code
      unit in the range 0..255 (the Latin-1 block), on which
      [toLowerCase], [\s] and the character classes are modelled exactly.
    - Module-level mutable state ([usage], the log file, the two JSON
      documents) is threaded explicitly.
    - The wall clock and [process.env] are read from explicit arguments.
    - Counters and calendar-day numbers are integers ([Z]): JavaScript
      numbers represent every integer of magnitude below 2^53 exactly, and
      the counters of this program stay far below it.  Money amounts are
      IEEE 754 binary64 values ([spec_float] with the operations of
      [SpecFloat] at precision 53). *)

From Stdlib Require Import ZArith String Ascii List Bool Lia.
From Stdlib Require Import Floats.SpecFloat.
From Stdlib Require Import Decimal DecimalString DecimalN.
From stdpp Require Import gmap strings list fin_maps.

Local Open Scope string_scope.
Local Open Scope Z_scope.

(* ===================================================================== *)
(** * JavaScript string primitives                                        *)
(* ===================================================================== *)

Module JS.

(** Code unit of a character. *)
Definition code (c : ascii) : Z := Z.of_N (N_of_ascii c).

Definition is_digit (c : ascii) : bool := (48 <=? code c) && (code c <=? 57).

(** [\s] restricted to code units below 256: TAB, LF, VT, FF, CR, SPACE
    and the no-break space U+00A0. *)
Definition is_space (c : ascii) : bool :=
  ((9 <=? code c) && (code c <=? 13)) || (code c =? 32) || (code c =? 160).

(** [String.prototype.toLowerCase] on one Latin-1 code unit: A-Z and the
    accented capitals U+00C0..U+00DE except the multiplication sign
    U+00D7 move up by 32. *)
Definition lower_char (c : ascii) : ascii :=
  let n := code c in
  if ((65 <=? n) && (n <=? 90)) || ((192 <=? n) && (n <=? 222) && negb (n =? 215))
  then ascii_of_N (Z.to_N (n + 32))
  else c.

Fixpoint toLowerCase (s : string) : string :=
  match s with
  | EmptyString => EmptyString
  | String c s' => String (lower_char c) (toLowerCase s')
  end.

(** [s.startsWith(p)]. *)
Fixpoint startsWith (s p : string) : bool :=
  match p, s with
  | EmptyString, _ => true
  | String _ _, EmptyString => false
  | String b p', String a s' => Ascii.eqb a b && startsWith s' p'
  end.

(** [s.includes(t)]: [t] occurs at some position of [s]. *)
Fixpoint includes (s t : string) : bool :=
  startsWith s t ||
  match s with
  | EmptyString => false
  | String _ s' => includes s' t
  end.

(** [s.replace(/[^...]/g, '')]: keep the characters the class admits. *)
Fixpoint keep (p : ascii -> bool) (s : string) : string :=
  match s with
  | EmptyString => EmptyString
  | String c s' => if p c then String c (keep p s') else keep p s'
  end.

(** [l.join(sep)]. *)
Fixpoint join (sep : string) (l : list string) : string :=
  match l with
  | [] => EmptyString
  | [x] => x
  | x :: rest => x +:+ sep +:+ join sep rest
  end.

(** [s.split(/\s+/)].  [cur] is the token being read and [in_ws] tells
    that the previous character belonged to a separator.  A separator at
    the start or at the end of the string produces an empty first or last
    token, and the empty string splits into one empty token. *)
Fixpoint split_ws_from (s : string) (in_ws : bool) (cur : string) : list string :=
  match s with
  | EmptyString => [cur]
  | String c s' =>
      if is_space c
      then (if in_ws then split_ws_from s' true EmptyString
            else cur :: split_ws_from s' true EmptyString)
      else split_ws_from s' false (cur +:+ String c EmptyString)
  end.

Definition split_ws (s : string) : list string := split_ws_from s false EmptyString.

(** [s.replace('sample', 'actual')] with a string pattern replaces the
    first occurrence only. *)
Fixpoint drop (n : nat) (s : string) : string :=
  match n, s with
  | O, _ => s
  | S n', String _ s' => drop n' s'
  | S _, EmptyString => EmptyString
  end.

Fixpoint replace_first (pat rep s : string) : string :=
  if startsWith s pat then rep +:+ drop (String.length pat) s
  else match s with
       | EmptyString => EmptyString
       | String c s' => String c (replace_first pat rep s')
       end.

(** [x || dflt] on a possibly absent string: the empty string is falsy. *)
Definition or_else (x : option string) (dflt : string) : string :=
  match x with
  | Some (String c s) => String c s
  | _ => dflt
  end.

(** Truthiness of a possibly absent string. *)
Definition truthy (x : option string) : bool :=
  match x with
  | Some (String _ _) => true
  | _ => false
  end.

End JS.

(* ===================================================================== *)
(** * Usage limiter ([web/lib/usage/limit.ts])                            *)
(* ===================================================================== *)

Module UsageEntry.
Record t := mk { count : Z; date : Z }.
End UsageEntry.

Module Limit.

(** The module-level [usage] map. *)
Abbreviation store := (gmap string UsageEntry.t).

(** What [getUsage] and [incrementUsage] return. *)
Record Usage := { count : Z; limit : Z }.

(** The local calendar fields [new Date()] is asked for. *)
Record Date := { getFullYear : Z; getMonth : Z; getDate : Z }.

Definition ANONYMOUS_LIMIT : Z := 1.
Definition AUTHENTICATED_LIMIT : Z := 5.

(** [parseInt] of the year followed by the two-digit month and day, for
    years from 0 on. *)
Definition getCurrentDateAsNumber (now : Date) : Z :=
  getFullYear now * 10000 + (getMonth now + 1) * 100 + getDate now.

Definition getLimit (isAuthenticated : bool) : Z :=
  if isAuthenticated then AUTHENTICATED_LIMIT else ANONYMOUS_LIMIT.

(** [process.env.NEXSUPPLY_DISABLE_USAGE_LIMITS === 'true']. *)
Definition limits_disabled (flag : option string) : bool :=
  match flag with
  | Some v => String.eqb v "true"
  | None => false
  end.

Definition getUsage (now : Date) (identifier : string) (isAuthenticated : bool)
    (usage : store) : Usage :=
  let limit := getLimit isAuthenticated in
  let currentDate := getCurrentDateAsNumber now in
  match usage !! identifier with
  | None => {| count := 0; limit := limit |}
  | Some entry =>
      if negb (UsageEntry.date entry =? currentDate)
      then {| count := 0; limit := limit |}
      else {| count := UsageEntry.count entry; limit := limit |}
  end.

Definition incrementUsage (flag : option string) (now : Date)
    (identifier : string) (isAuthenticated : bool) (usage : store)
    : Usage * store :=
  let limit := getLimit isAuthenticated in
  if limits_disabled flag then ({| count := 0; limit := limit |}, usage)
  else
    let currentDate := getCurrentDateAsNumber now in
    let fresh :=
      let newEntry := UsageEntry.mk 1 currentDate in
      ({| count := UsageEntry.count newEntry; limit := limit |},
       <[identifier := newEntry]> usage) in
    match usage !! identifier with
    | None => fresh
    | Some entry =>
        if negb (UsageEntry.date entry =? currentDate) then fresh
        else
          let entry' := UsageEntry.mk (UsageEntry.count entry + 1) (UsageEntry.date entry) in
          ({| count := UsageEntry.count entry'; limit := limit |},
           <[identifier := entry']> usage)
    end.

End Limit.

(* ===================================================================== *)
(** * JavaScript numbers as binary64                                      *)
(* ===================================================================== *)

Module Num.

Definition number := spec_float.

Definition prec : Z := 53.
Definition emax : Z := 1024.

(** An integer literal. *)
Definition of_Z (z : Z) : number := binary_normalize prec emax z 0 false.

Definition add : number -> number -> number := SFadd prec emax.
Definition mul : number -> number -> number := SFmul prec emax.

(** The binary64 value nearest to [m / 10^k] (ties to even), with the
    division and rounding steps of [SFdiv] run on the exact integers. *)
Definition of_decimal (neg : bool) (m : Z) (k : nat) : number :=
  match m with
  | Zpos _ =>
      let '(q, e, l) := SFdiv_core_binary prec emax m 0 (10 ^ Z.of_nat k) 0 in
      binary_round_aux prec emax neg q e l
  | _ => S754_zero neg
  end.

(** Longest run of decimal digits at the start of [s]: the number read
    so far, how many digits were read, and the rest of the string. *)
Fixpoint read_digits (s : string) (acc : Z) (n : nat) : Z * nat * string :=
  match s with
  | String c s' =>
      if JS.is_digit c then read_digits s' (acc * 10 + (JS.code c - 48)) (S n)
      else (acc, n, s)
  | EmptyString => (acc, n, s)
  end.

(** [parseFloat] on the strings [parseCurrency] hands it, which hold
    only digits, dots and minus signs: an optional leading minus sign,
    digits, an optional dot and more digits; reading stops at the first
    character that does not continue the literal, and a literal without
    any digit is [NaN]. *)
Definition parseFloat (s : string) : number :=
  let '(neg, s1) :=
    match s with
    | String "-"%char r => (true, r)
    | _ => (false, s)
    end in
  let '(ip, ni, s2) := read_digits s1 0 0 in
  let '(m, nf) :=
    match s2 with
    | String "."%char r => let '(f, n, _) := read_digits r ip 0 in (f, n)
    | _ => (ip, O)
    end in
  if Nat.eqb (ni + nf) 0 then S754_nan else of_decimal neg m nf.

End Num.

(* ===================================================================== *)
(** * Knowledge-store records ([web/lib/types])                           *)
(* ===================================================================== *)

Module Compliance.

Record CategoryComplianceRule := {
  id : string;
  label : string;
  exampleProducts : list string;
  targetMarkets : list string;
  typicalHtsCodes : list string;
  requiredRegulations : list string;
  testingRequirements : list string;
  highRiskFlags : list string;
  referenceLinks : list string
}.

Record ComplianceRulesData := { categories : list CategoryComplianceRule }.

(** [code.replace(/[^0-9.]/g, '')]. *)
Definition normalizeHts (code : string) : string :=
  JS.keep (fun c => JS.is_digit c || (JS.code c =? 46)) code.

(** The [some] over [targetMarkets] of the market filter. *)
Definition marketMatches (market : string) (category : CategoryComplianceRule) : bool :=
  let marketNormalized := JS.toLowerCase market in
  existsb (fun targetMarket =>
             JS.includes (JS.toLowerCase targetMarket) marketNormalized
             || JS.includes marketNormalized (JS.toLowerCase targetMarket))
          (targetMarkets category).

(** The loop both lookups run over [rules.categories]: a category that
    matches is returned unless a market was asked for, the category lists
    target markets and none of them fits, in which case the loop goes on. *)
Fixpoint scan (matches : CategoryComplianceRule -> bool) (market : option string)
    (cats : list CategoryComplianceRule) : option CategoryComplianceRule :=
  match cats with
  | [] => None
  | category :: rest =>
      if matches category then
        if JS.truthy market && (0 <? Z.of_nat (length (targetMarkets category))) then
          if negb (marketMatches (JS.or_else market "") category)
          then scan matches market rest
          else Some category
        else Some category
      else scan matches market rest
  end.

(** One stored code against the normalized query. *)
Definition codeMatches (normalizedHtsCode code : string) : bool :=
  let normalizedCategoryCode := normalizeHts code in
  JS.startsWith normalizedHtsCode normalizedCategoryCode
  || JS.startsWith normalizedCategoryCode normalizedHtsCode.

Definition htsMatches (normalizedHtsCode : string) (category : CategoryComplianceRule) : bool :=
  existsb (codeMatches normalizedHtsCode) (typicalHtsCodes category).

Definition getComplianceByHtsCode (rules : ComplianceRulesData)
    (htsCode : string) (market : option string) : option CategoryComplianceRule :=
  let normalizedHtsCode := normalizeHts htsCode in
  scan (htsMatches normalizedHtsCode) market (categories rules).

(** The text a category is searched in. *)
Definition allText (category : CategoryComplianceRule) : string :=
  let labelLower := JS.toLowerCase (label category) in
  let examplesLower := JS.toLowerCase (JS.join " " (exampleProducts category)) in
  labelLower +:+ " " +:+ examplesLower.

Definition termMatches (text term : string) : bool :=
  JS.includes text term && (2 <? Z.of_nat (String.length term)).

Definition nameMatches (searchTerms : list string) (category : CategoryComplianceRule) : bool :=
  existsb (termMatches (allText category)) searchTerms.

Definition getComplianceByProductName (rules : ComplianceRulesData)
    (productName : string) (market : option string) : option CategoryComplianceRule :=
  let searchTerms := JS.split_ws (JS.toLowerCase productName) in
  scan (nameMatches searchTerms) market (categories rules).

(** [getComplianceByCategory]: the first rule with the identifier, turned
    down when a market is asked for, the rule lists target markets and none
    of them fits. *)
Definition getComplianceByCategory (rules : ComplianceRulesData)
    (categoryId : string) (market : option string) : option CategoryComplianceRule :=
  match List.find (fun cat => String.eqb (id cat) categoryId) (categories rules) with
  | None => None
  | Some rule =>
      if JS.truthy market && (0 <? Z.of_nat (length (targetMarkets rule))) then
        if negb (marketMatches (JS.or_else market "") rule) then None
        else Some rule
      else Some rule
  end.

End Compliance.

Module FactoryVetting.

Record CategoryFactoryVettingHints := {
  id : string;
  label : string;
  typicalSupplierTypes : list string;
  mustHaveCertificates : list string;
  niceToHaveCertificates : list string;
  sampleQuestionsToFactory : list string;
  commonRedFlags : list string;
  recommendedAlibabaFilters : list string
}.

Record FactoryVettingData := { categories : list CategoryFactoryVettingHints }.

Definition getFactoryVettingByCategory (data : FactoryVettingData)
    (categoryId : string) : option CategoryFactoryVettingHints :=
  List.find (fun cat => String.eqb (id cat) categoryId) (categories data).

End FactoryVetting.

(* ===================================================================== *)
(** * Testing-cost estimate ([web/lib/regulation/testCost.ts])            *)
(* ===================================================================== *)

Module TestCost.

Record TestingCost := { test : string; low : Num.number; high : Num.number }.

Definition cost (t : string) (l h : Z) : TestingCost :=
  {| test := t; low := Num.of_Z l; high := Num.of_Z h |}.

(** Object literals, as their members in insertion order. *)
Definition testingCostTable : list (string * TestingCost) :=
  [ ("CPSIA Lead Content", cost "CPSIA Lead Content" 150 250);
    ("CPSIA Phthalates", cost "CPSIA Phthalates" 300 450);
    ("CPSIA Tracking Label", cost "CPSIA Tracking Label Review" 100 200);
    ("ASTM F963 Mechanical", cost "ASTM F963 Mechanical Hazards" 180 320);
    ("ASTM F963 Flammability", cost "ASTM F963 Flammability" 120 200);
    ("ASTM F963 Heavy Metals", cost "ASTM F963 Heavy Metals" 250 400);
    ("FDA 21 CFR Food Grade", cost "FDA 21 CFR Food-Grade Material Testing" 400 700) ].

Definition regulationToTestMap : list (string * list string) :=
  [ ("cpsia", ["CPSIA Lead Content"; "CPSIA Phthalates"; "CPSIA Tracking Label"]);
    ("astm-f963", ["ASTM F963 Mechanical"; "ASTM F963 Flammability"; "ASTM F963 Heavy Metals"]);
    ("fda-21-cfr", ["FDA 21 CFR Food Grade"]) ].

(** [obj[key]] on an object literal. *)
Fixpoint member {A} (obj : list (string * A)) (key : string) : option A :=
  match obj with
  | [] => None
  | (k, v) :: rest => if String.eqb k key then Some v else member rest key
  end.

(** [Set.prototype.add]: a set keeps its elements in insertion order. *)
Definition set_add (s : list string) (x : string) : list string :=
  if existsb (String.eqb x) s then s else s ++ [x].

(** The body of the loop over the regulation keys. *)
Definition add_key (lowerCaseReg : string) (requiredTests : list string) (key : string)
    : list string :=
  if JS.includes lowerCaseReg key then
    match member regulationToTestMap key with
    | Some tests => fold_left set_add tests requiredTests
    | None => requiredTests
    end
  else requiredTests.

(** The body of the loop over the required regulations. *)
Definition add_regulation (regulationKeys : list string) (requiredTests : list string)
    (reg : string) : list string :=
  let lowerCaseReg := JS.toLowerCase reg in
  fold_left (add_key lowerCaseReg) regulationKeys requiredTests.

(** The final loop, pushing the cost of every test the table knows. *)
Fixpoint costs_of (names : list string) : list TestingCost :=
  match names with
  | [] => []
  | testName :: rest =>
      match member testingCostTable testName with
      | Some c => c :: costs_of rest
      | None => costs_of rest
      end
  end.

Definition requiredTestsOf (regulations : list string) : list string :=
  let regulationKeys := map fst regulationToTestMap in
  fold_left (add_regulation regulationKeys) regulations [].

Definition estimateTestingCost (complianceRule : Compliance.CategoryComplianceRule)
    : list TestingCost :=
  costs_of (requiredTestsOf (Compliance.requiredRegulations complianceRule)).

End TestCost.

(* ===================================================================== *)
(** * Analysis result ([web/lib/product-analysis/schema.ts]) and the
      initial-order cost ([web/lib/analysis/orderCost.ts])                *)
(* ===================================================================== *)

Module Schema.

Record LandedCostBreakdown := {
  fob_price : string;
  freight_cost : string;
  duty_rate : string;
  duty_cost : string;
  landed_cost : string
}.

Inductive RiskLevel := Low | Medium | High.

Record RiskAssessment := {
  overall_score : Num.number;
  compliance_risk : RiskLevel;
  supplier_risk : RiskLevel;
  logistics_risk : RiskLevel;
  summary : string
}.

Record InitialOrderCost := {
  testingCostTotal : Num.number;
  unitCost : Num.number;
  moq : Num.number;
  minimumOrderCost : Num.number;
  totalInitialCost : Num.number
}.

Record ProductAnalysis := {
  product_name : string;
  hts_code : string;
  landed_cost_breakdown : LandedCostBreakdown;
  risk_assessment : RiskAssessment;
  recommendation : string;
  estimate_confidence : option Num.number;
  missing_info : option (list string);
  assumptions : option (list string);
  compliance_hints : option Compliance.CategoryComplianceRule;
  factory_vetting_hints : option FactoryVetting.CategoryFactoryVettingHints;
  regulation_reasoning : option (list (string * string));
  testing_cost_estimate : option (list TestCost.TestingCost);
  initial_order_cost : option InitialOrderCost
}.

End Schema.

Module OrderCost.

(** [value.replace(/[^0-9.-]+/g, '')] followed by [parseFloat]. *)
Definition parseCurrency (value : string) : Num.number :=
  Num.parseFloat
    (JS.keep (fun c => JS.is_digit c || (JS.code c =? 46) || (JS.code c =? 45)) value).

Definition MOQ : Z := 500.

Definition estimateInitialOrderCost (analysis : Schema.ProductAnalysis)
    : Schema.InitialOrderCost :=
  let testingCostTotal :=
    match Schema.testing_cost_estimate analysis with
    | Some items =>
        fold_left (fun sum item => Num.add sum (TestCost.high item)) items (Num.of_Z 0)
    | None => Num.of_Z 0
    end in
  let unitCost :=
    parseCurrency (Schema.landed_cost (Schema.landed_cost_breakdown analysis)) in
  let moq := Num.of_Z MOQ in
  let minimumOrderCost := Num.mul unitCost moq in
  let totalInitialCost := Num.add minimumOrderCost testingCostTotal in
  {| Schema.testingCostTotal := testingCostTotal;
     Schema.unitCost := unitCost;
     Schema.moq := moq;
     Schema.minimumOrderCost := minimumOrderCost;
     Schema.totalInitialCost := totalInitialCost |}.

End OrderCost.

(* ===================================================================== *)
(** * [POST /api/analyze-product] ([web/app/api/analyze-product/route.ts]) *)
(* ===================================================================== *)

Module Route.

(** [session.user] of an authenticated caller; the handler asserts that
    the e-mail address is present. *)
Record User := { email : string }.

(** A parsed JSON body, with the three members the handler looks at, and
    a parsed form, with its [input] field and its image already in base
    64. *)
Inductive JsonObject := Json (input text image : option string).
Inductive FormData := Form (input image : option string).

(** A request: the session and the headers, and what [req.json()] and
    [req.formData()] settle to on its body, either the parsed value or the
    message of the error they reject with. *)
Record Request := {
  session : option User;
  x_forwarded_for : option string;
  user_agent : option string;
  content_type : option string;
  json : string + JsonObject;
  formData : string + FormData
}.

(** What the handler reads from its process: the bypass flag, the clock,
    and whether the log file can be appended to. *)
Record Env := {
  NEXSUPPLY_DISABLE_USAGE_LIMITS : option string;
  now : Limit.Date;
  log_writable : bool
}.

(** The state a request can change: the limiter's map and the
    category-usage log. *)
Record World (Event : Type) := {
  usage : Limit.store;
  usage_log : list Event
}.
Arguments usage {Event} _.
Arguments usage_log {Event} _.

Inductive Response :=
| Ok (analysis : Schema.ProductAnalysis)
| QuotaExceeded (reason message : string)
| InputRequired (error : string)
| ServerError (error : string).

Definition status (r : Response) : Z :=
  match r with
  | Ok _ => 200
  | QuotaExceeded _ _ => 429
  | InputRequired _ => 400
  | ServerError _ => 500
  end.

(** The mock answer of [generateRegulationReasoning]. *)
Definition generateRegulationReasoning (productName htsCode : string)
    (complianceRule : Compliance.CategoryComplianceRule) : list (string * string) :=
  [ ("CPSIA",
     "The Consumer Product Safety Improvement Act (CPSIA) applies to all children's products, defined as products intended primarily for children 12 years of age or younger. This includes requirements for tracking labels, lead content limits, and phthalate restrictions.");
    ("ASTM F963",
     "ASTM F963 is a mandatory safety standard for toys in the US, referenced by CPSIA. It covers various hazards, including mechanical properties, flammability, and chemical content to ensure toy safety.");
    ("FDA 21 CFR",
     "The FDA regulates materials that come into contact with food. For a baby teether, parts that are intended to be placed in the mouth must be made of food-safe materials as specified under 21 CFR.") ].

(** The branch on the content type: the input text and the image, or the
    message of the error the reader throws. *)
Definition read_body (contentType : string) (req : Request)
    : string + (option string * option string) :=
  if JS.includes contentType "application/json" then
    match json req with
    | inr (Json input text image) =>
        inr (Some (JS.or_else input (JS.or_else text "")),
             if JS.truthy image then image else None)
    | inl message => inl message
    end
  else
    match formData req with
    | inr (Form input image) => inr (input, image)
    | inl message => inl message
    end.

Section Handler.

(** The collaborators outside the modelled code: the model call (which
    answers or throws with a message), the two loaded stores, and the
    construction of the analytics event. *)
Variable Event : Type.
Variable analyzeProduct : string -> option string -> string + Schema.ProductAnalysis.
Variable rules : Compliance.ComplianceRulesData.
Variable vetting : FactoryVetting.FactoryVettingData.
Variable buildCategoryUsageEvent :
  string -> Schema.ProductAnalysis -> option string -> Event.

(** Lines 80 to 88: the lookup by HTS code, and the lookup by product
    name when the first finds nothing. *)
Definition findComplianceHints (analysis : Schema.ProductAnalysis)
    : option Compliance.CategoryComplianceRule :=
  match Compliance.getComplianceByHtsCode rules (Schema.hts_code analysis) None with
  | Some r => Some r
  | None => Compliance.getComplianceByProductName rules (Schema.product_name analysis) None
  end.

(** Lines 80 to 123: the hints are attached to the analysis. *)
Definition enrich (analysis : Schema.ProductAnalysis)
    : Schema.ProductAnalysis * option string :=
  let complianceHints := findComplianceHints analysis in
  let categoryId := option_map Compliance.id complianceHints in
  let factoryVettingHints :=
    if JS.truthy categoryId
    then FactoryVetting.getFactoryVettingByCategory vetting (JS.or_else categoryId "")
    else None in
  let regulationReasoning :=
    option_map (generateRegulationReasoning (Schema.product_name analysis)
                  (Schema.hts_code analysis)) complianceHints in
  let testingCostEstimate := option_map TestCost.estimateTestingCost complianceHints in
  let override {A} (new old : option A) : option A :=
    match new with Some _ => new | None => old end in
  let analysisWithHints :=
    {| Schema.product_name := Schema.product_name analysis;
       Schema.hts_code := Schema.hts_code analysis;
       Schema.landed_cost_breakdown := Schema.landed_cost_breakdown analysis;
       Schema.risk_assessment := Schema.risk_assessment analysis;
       Schema.recommendation := Schema.recommendation analysis;
       Schema.estimate_confidence := Schema.estimate_confidence analysis;
       Schema.missing_info := Schema.missing_info analysis;
       Schema.assumptions := Schema.assumptions analysis;
       Schema.compliance_hints :=
         override complianceHints (Schema.compliance_hints analysis);
       Schema.factory_vetting_hints :=
         override factoryVettingHints (Schema.factory_vetting_hints analysis);
       Schema.regulation_reasoning :=
         override regulationReasoning (Schema.regulation_reasoning analysis);
       Schema.testing_cost_estimate :=
         override testingCostEstimate (Schema.testing_cost_estimate analysis);
       Schema.initial_order_cost := Schema.initial_order_cost analysis |} in
  let initialOrderCost := OrderCost.estimateInitialOrderCost analysisWithHints in
  ({| Schema.product_name := Schema.product_name analysisWithHints;
      Schema.hts_code := Schema.hts_code analysisWithHints;
      Schema.landed_cost_breakdown := Schema.landed_cost_breakdown analysisWithHints;
      Schema.risk_assessment := Schema.risk_assessment analysisWithHints;
      Schema.recommendation := Schema.recommendation analysisWithHints;
      Schema.estimate_confidence := Schema.estimate_confidence analysisWithHints;
      Schema.missing_info := Schema.missing_info analysisWithHints;
      Schema.assumptions := Schema.assumptions analysisWithHints;
      Schema.compliance_hints := Schema.compliance_hints analysisWithHints;
      Schema.factory_vetting_hints := Schema.factory_vetting_hints analysisWithHints;
      Schema.regulation_reasoning := Schema.regulation_reasoning analysisWithHints;
      Schema.testing_cost_estimate := Schema.testing_cost_estimate analysisWithHints;
      Schema.initial_order_cost := Some initialOrderCost |},
   categoryId).

Definition identifier_of (req : Request) : string :=
  match session req with
  | Some user => email user
  | None =>
      let ip := JS.or_else (x_forwarded_for req) "unknown" in
      let userAgent := JS.or_else (user_agent req) "unknown" in
      ip +:+ "-" +:+ userAgent
  end.

Definition POST (env : Env) (req : Request) (w : World Event)
    : Response * World Event :=
  let isAuthenticated := match session req with Some _ => true | None => false end in
  let identifier := identifier_of req in
  let '(u, usage') :=
    Limit.incrementUsage (NEXSUPPLY_DISABLE_USAGE_LIMITS env) (now env)
      identifier isAuthenticated (usage w) in
  let w1 := {| usage := usage'; usage_log := usage_log w |} in
  if Limit.limit u <? Limit.count u then
    let reason :=
      if isAuthenticated then "user_daily_limit" else "anonymous_daily_limit" in
    let message :=
      if isAuthenticated
      then "You have reached today's free analysis limit for your account."
      else "You have exceeded the number of free analyses for today." in
    (QuotaExceeded reason message, w1)
  else
    let contentType := JS.or_else (content_type req) "" in
    match read_body contentType req with
    | inl message =>
        (ServerError
           (JS.or_else (Some message)
              "Something went wrong while analyzing the product."), w1)
    | inr (input, imageBase64) =>
        if negb (JS.truthy input) then (InputRequired "Input is required.", w1)
        else
          let input := JS.or_else input "" in
          match analyzeProduct input imageBase64 with
          | inl message =>
              (ServerError
                 (JS.or_else (Some message)
                    "Something went wrong while analyzing the product."), w1)
          | inr analysis =>
              let '(analysisWithHints, categoryId) := enrich analysis in
              let usageEvent :=
                buildCategoryUsageEvent input analysisWithHints categoryId in
              let w2 :=
                {| usage := usage w1;
                   usage_log :=
                     if log_writable env then usage_log w1 ++ [usageEvent]
                     else usage_log w1 |} in
              (Ok analysisWithHints, w2)
          end
    end.

End Handler.

End Route.

(* ===================================================================== *)
(** * Knowledge-store merge ([web/scripts/autoCategory.ts])               *)
(* ===================================================================== *)

Module AutoCategory.

(** A knowledge-store file, as the value [JSON.parse] reads from it and
    [JSON.stringify] writes back: the [$comment] member, the
    [categories] array, and whatever other members the file has. *)
Record Document (A : Type) := {
  comment : option string;
  categories : list A;
  members : list (string * string)
}.
Arguments comment {A} _.
Arguments categories {A} _.
Arguments members {A} _.

(** The four paths the merge touches; [None] is a file that does not
    exist, and a file that exists holds a store document.  Files whose text
    does not parse, or parses to an object without a [categories] array,
    are covered by [Disk] below, which agrees with this module on the
    files described here. *)
Record Files := {
  COMPLIANCE_FILE : option (Document Compliance.CategoryComplianceRule);
  FACTORY_FILE : option (Document FactoryVetting.CategoryFactoryVettingHints);
  COMPLIANCE_SAMPLE : option (Document Compliance.CategoryComplianceRule);
  FACTORY_SAMPLE : option (Document FactoryVetting.CategoryFactoryVettingHints)
}.

Record MergeStatus := {
  compliance : string;
  factory : string;
  compliancePath : string;
  factoryPath : string
}.

Definition COMPLIANCE_FILE_PATH : string := "data/compliance/category_rules.json".
Definition FACTORY_FILE_PATH : string := "data/factory/category_vetting.json".

(** The content of [filePath] once [ensureFileExists] has run; [None]
    when the file is absent and reading the sample throws. *)
Definition ensureFileExists {A} (file sample : option (Document A))
    : option (Document A) :=
  match file with
  | Some d => Some d
  | None =>
      match sample with
      | Some sampleData =>
          Some {| comment :=
                    Some (JS.or_else
                            (option_map (JS.replace_first "sample" "actual")
                                        (comment sampleData)) "");
                  categories := [];
                  members := members sampleData |}
      | None => None
      end
  end.

(** [Array.prototype.findIndex]: the first index the predicate accepts,
    or -1. *)
Fixpoint findIndex {A} (p : A -> bool) (l : list A) : Z :=
  match l with
  | [] => -1
  | x :: rest =>
      if p x then 0
      else let i := findIndex p rest in if i <? 0 then -1 else i + 1
  end.

(** "Check if category exists and update or add": the new array and the
    status. *)
Definition upsert {A} (id_of : A -> string) (json : A) (cats : list A)
    : list A * string :=
  let index := findIndex (fun c => String.eqb (id_of c) (id_of json)) cats in
  if 0 <=? index then (<[Z.to_nat index := json]> cats, "updated")
  else ((cats ++ [json])%list, "created").

Definition with_categories {A} (d : Document A) (cats : list A) : Document A :=
  {| comment := comment d; categories := cats; members := members d |}.

(** The files after the call, and the statuses it returns, or [None]
    when it throws. *)
Definition mergeIntoFiles (complianceJson : Compliance.CategoryComplianceRule)
    (factoryJson : FactoryVetting.CategoryFactoryVettingHints) (fs : Files)
    : Files * option MergeStatus :=
  match ensureFileExists (COMPLIANCE_FILE fs) (COMPLIANCE_SAMPLE fs) with
  | None => (fs, None)
  | Some complianceData =>
      let fs1 :=
        {| COMPLIANCE_FILE := Some complianceData; FACTORY_FILE := FACTORY_FILE fs;
           COMPLIANCE_SAMPLE := COMPLIANCE_SAMPLE fs; FACTORY_SAMPLE := FACTORY_SAMPLE fs |} in
      match ensureFileExists (FACTORY_FILE fs1) (FACTORY_SAMPLE fs1) with
      | None => (fs1, None)
      | Some factoryData =>
          let '(complianceCategories, complianceStatus) :=
            upsert Compliance.id complianceJson (categories complianceData) in
          let '(factoryCategories, factoryStatus) :=
            upsert FactoryVetting.id factoryJson (categories factoryData) in
          ({| COMPLIANCE_FILE := Some (with_categories complianceData complianceCategories);
              FACTORY_FILE := Some (with_categories factoryData factoryCategories);
              COMPLIANCE_SAMPLE := COMPLIANCE_SAMPLE fs;
              FACTORY_SAMPLE := FACTORY_SAMPLE fs |},
           Some {| compliance := complianceStatus;
                   factory := factoryStatus;
                   compliancePath := COMPLIANCE_FILE_PATH;
                   factoryPath := FACTORY_FILE_PATH |})
      end
  end.

End AutoCategory.

(* ===================================================================== *)
(** * The day number as the source builds it ([web/lib/usage/limit.ts])   *)
(* ===================================================================== *)

Module LimitText.

(** [String(n)] for an integer. *)
Definition toString (n : Z) : string :=
  if n <? 0 then "-" +:+ NilZero.string_of_uint (N.to_uint (Z.to_N (- n)))
  else NilZero.string_of_uint (N.to_uint (Z.to_N n)).

(** [s.padStart(2, '0')]. *)
Definition padStart2 (s : string) : string :=
  match s with
  | EmptyString => "00"
  | String c EmptyString => String "0"%char s
  | _ => s
  end.

Fixpoint skip_spaces (s : string) : string :=
  match s with
  | String c s' => if JS.is_space c then skip_spaces s' else s
  | EmptyString => s
  end.

(** [parseInt(s, 10)]: leading white space, an optional sign, then the
    longest run of digits; [None] is [NaN]. *)
Definition parseInt (s : string) : option Z :=
  let s0 := skip_spaces s in
  let '(neg, s1) :=
    match s0 with
    | String "-"%char r => (true, r)
    | String "+"%char r => (false, r)
    | _ => (false, s0)
    end in
  let '(v, n, _) := Num.read_digits s1 0 0 in
  if Nat.eqb n 0 then None else Some (if neg then - v else v).

(** [getCurrentDateAsNumber] as it is written: the year, the month and the
    day, the last two padded to two digits, glued together and parsed. *)
Definition getCurrentDateAsNumber (now : Limit.Date) : option Z :=
  let year := Limit.getFullYear now in
  let month := padStart2 (toString (Limit.getMonth now + 1)) in
  let day := padStart2 (toString (Limit.getDate now)) in
  parseInt (toString year +:+ month +:+ day).

End LimitText.

(* ===================================================================== *)
(** * Knowledge builder ([web/scripts/autoCategory.ts], steps 1 and 4)    *)
(* ===================================================================== *)

Module Slug.

(** [\w] *)
Definition is_word (c : ascii) : bool :=
  JS.is_digit c
  || ((65 <=? JS.code c) && (JS.code c <=? 90))
  || ((97 <=? JS.code c) && (JS.code c <=? 122))
  || (JS.code c =? 95).

(** The characters [.] does not match. *)
Definition is_line_terminator (c : ascii) : bool :=
  (JS.code c =? 10) || (JS.code c =? 13).

Definition is_underscore (c : ascii) : bool := JS.code c =? 95.

(** Where [.*?\)] succeeds on the text after an opening parenthesis: the
    number of characters before the first closing parenthesis, provided no
    line terminator comes before it. *)
Fixpoint close_at (s : string) : option nat :=
  match s with
  | EmptyString => None
  | String c s' =>
      if JS.code c =? 41 then Some O
      else if is_line_terminator c then None
      else option_map S (close_at s')
  end.

(** [s.replace(/\(.*?\)/g, '')]; [skip] characters of a match are still to
    be dropped. *)
Fixpoint remove_parens_from (skip : nat) (s : string) : string :=
  match s with
  | EmptyString => EmptyString
  | String c s' =>
      match skip with
      | S k => remove_parens_from k s'
      | O =>
          if JS.code c =? 40 then
            match close_at s' with
            | Some n => remove_parens_from (S n) s'
            | None => String c (remove_parens_from O s')
            end
          else String c (remove_parens_from O s')
      end
  end.

Definition remove_parens (s : string) : string := remove_parens_from O s.

Fixpoint trimStart (s : string) : string :=
  match s with
  | String c s' => if JS.is_space c then trimStart s' else s
  | EmptyString => s
  end.

Fixpoint trimEnd (s : string) : string :=
  match s with
  | EmptyString => EmptyString
  | String c s' =>
      match trimEnd s' with
      | EmptyString => if JS.is_space c then EmptyString else String c EmptyString
      | t => String c t
      end
  end.

(** [s.trim()]. *)
Definition trim (s : string) : string := trimEnd (trimStart s).

(** [s.replace(/p+/g, r)] for a class [p] and a character [r]: every
    maximal run of characters of the class becomes one [r]. *)
Fixpoint replace_runs (p : ascii -> bool) (r : ascii) (in_run : bool) (s : string)
    : string :=
  match s with
  | EmptyString => EmptyString
  | String c s' =>
      if p c then
        (if in_run then replace_runs p r true s'
         else String r (replace_runs p r true s'))
      else String c (replace_runs p r false s')
  end.

(** [s.replace(/^_|_$/g, '')]: an underscore at the start is dropped, and
    then an underscore at the end. *)
Definition strip_leading (s : string) : string :=
  match s with
  | String c s' => if is_underscore c then s' else s
  | EmptyString => s
  end.

Fixpoint strip_trailing (s : string) : string :=
  match s with
  | EmptyString => EmptyString
  | String c EmptyString => if is_underscore c then EmptyString else s
  | String c s' => String c (strip_trailing s')
  end.

Definition slugify (text : string) : string :=
  let lowered := JS.toLowerCase text in
  let unparenthesized := remove_parens lowered in
  let trimmed := trim unparenthesized in
  let underscored := replace_runs JS.is_space "_"%char false trimmed in
  let cleaned := JS.keep (fun c => is_word c || (JS.code c =? 45)) underscored in
  let collapsed := replace_runs is_underscore "_"%char false cleaned in
  strip_trailing (strip_leading collapsed).

End Slug.

Module ParsedInput.
Record t := {
  category_id : string;
  category_label : string;
  targetMarket : string;
  exampleProducts : list string;
  probableHtsCodes : list string;
  relatedCategories : list string
}.
End ParsedInput.

(** The object the model answers [parseInput] with; every member may be
    missing. *)
Module ParsedAnswer.
Record t := {
  label : option string;
  targetMarket : option string;
  exampleProducts : option (list string);
  probableHtsCodes : option (list string);
  relatedCategories : option (list string)
}.
End ParsedAnswer.

Module ResearchCompliance.
Record t := {
  typicalHtsCodes : option (list string);
  requiredRegulations : option (list string);
  testingRequirements : option (list string);
  highRiskFlags : option (list string);
  referenceLinks : option (list string);
  exampleProducts : option (list string)
}.
End ResearchCompliance.

Module ResearchFactory.
Record t := {
  typicalSupplierTypes : option (list string);
  mustHaveCertificates : option (list string);
  niceToHaveCertificates : option (list string);
  sampleQuestionsToFactory : option (list string);
  commonRedFlags : option (list string);
  recommendedAlibabaFilters : option (list string)
}.
End ResearchFactory.

Module ResearchData.
Record t := { compliance : ResearchCompliance.t; factory : ResearchFactory.t }.
End ResearchData.

Module CategoryBuilder.

(** [x || dflt] on a possibly missing array: an array, even empty, is
    truthy. *)
Definition array_or {A} (x : option (list A)) (dflt : list A) : list A :=
  match x with
  | Some l => l
  | None => dflt
  end.

(** The part of [parseInput] after the model has answered. *)
Definition parseInput (inputText : string) (parsed : ParsedAnswer.t) : ParsedInput.t :=
  let category_id := Slug.slugify inputText in
  {| ParsedInput.category_id := category_id;
     ParsedInput.category_label := JS.or_else (ParsedAnswer.label parsed) inputText;
     ParsedInput.targetMarket :=
       JS.or_else (ParsedAnswer.targetMarket parsed) "United States";
     ParsedInput.exampleProducts :=
       array_or (ParsedAnswer.exampleProducts parsed)
                [JS.or_else (ParsedAnswer.label parsed) inputText];
     ParsedInput.probableHtsCodes := array_or (ParsedAnswer.probableHtsCodes parsed) [];
     ParsedInput.relatedCategories := array_or (ParsedAnswer.relatedCategories parsed) [] |}.

Definition buildComplianceJson (parsedInput : ParsedInput.t) (verifiedData : ResearchData.t)
    : Compliance.CategoryComplianceRule :=
  let c := ResearchData.compliance verifiedData in
  {| Compliance.id := ParsedInput.category_id parsedInput;
     Compliance.label := ParsedInput.category_label parsedInput;
     Compliance.exampleProducts :=
       array_or (ResearchCompliance.exampleProducts c)
                (ParsedInput.exampleProducts parsedInput);
     Compliance.targetMarkets := [ParsedInput.targetMarket parsedInput];
     Compliance.typicalHtsCodes :=
       array_or (ResearchCompliance.typicalHtsCodes c)
                (ParsedInput.probableHtsCodes parsedInput);
     Compliance.requiredRegulations := array_or (ResearchCompliance.requiredRegulations c) [];
     Compliance.testingRequirements := array_or (ResearchCompliance.testingRequirements c) [];
     Compliance.highRiskFlags := array_or (ResearchCompliance.highRiskFlags c) [];
     Compliance.referenceLinks := array_or (ResearchCompliance.referenceLinks c) [] |}.

Definition buildFactoryJson (parsedInput : ParsedInput.t) (verifiedData : ResearchData.t)
    : FactoryVetting.CategoryFactoryVettingHints :=
  let f := ResearchData.factory verifiedData in
  {| FactoryVetting.id := ParsedInput.category_id parsedInput;
     FactoryVetting.label := ParsedInput.category_label parsedInput;
     FactoryVetting.typicalSupplierTypes := array_or (ResearchFactory.typicalSupplierTypes f) [];
     FactoryVetting.mustHaveCertificates := array_or (ResearchFactory.mustHaveCertificates f) [];
     FactoryVetting.niceToHaveCertificates :=
       array_or (ResearchFactory.niceToHaveCertificates f) [];
     FactoryVetting.sampleQuestionsToFactory :=
       array_or (ResearchFactory.sampleQuestionsToFactory f) [];
     FactoryVetting.commonRedFlags := array_or (ResearchFactory.commonRedFlags f) [];
     FactoryVetting.recommendedAlibabaFilters :=
       array_or (ResearchFactory.recommendedAlibabaFilters f) [] |}.

Section Pipeline.

(** The three model calls, each of which answers or throws. *)
Variable askParse : string -> option ParsedAnswer.t.
Variable researchWithGemini : string -> ParsedInput.t -> option ResearchData.t.
Variable verifyWithGemini : ResearchData.t -> string -> option ResearchData.t.

(** [generateCategoryKnowledge]; [None] when a step throws. *)
Definition generateCategoryKnowledge (inputText : string)
    : option (Compliance.CategoryComplianceRule
              * FactoryVetting.CategoryFactoryVettingHints) :=
  match askParse inputText with
  | None => None
  | Some parsed =>
      let parsedInput := parseInput inputText parsed in
      match researchWithGemini inputText parsedInput with
      | None => None
      | Some initialResearch =>
          match verifyWithGemini initialResearch
                  (ParsedInput.category_label parsedInput) with
          | None => None
          | Some verifiedResearch =>
              Some (buildComplianceJson parsedInput verifiedResearch,
                    buildFactoryJson parsedInput verifiedResearch)
          end
      end
  end.

End Pipeline.

End CategoryBuilder.

(* ===================================================================== *)
(** * Reinforcement seed ([web/scripts/reinforceTopCategories.ts])        *)
(* ===================================================================== *)

Module Reinforce.

Record CategoryPopularityItem := {
  category_id : string;
  label : string;
  total_count : Z;
  first_seen_at : string;
  last_seen_at : string
}.

(** [s.replace(/_/g, ' ')]. *)
Fixpoint underscores_to_spaces (s : string) : string :=
  match s with
  | EmptyString => EmptyString
  | String c s' =>
      String (if Slug.is_underscore c then " "%char else c) (underscores_to_spaces s')
  end.

Definition buildSeedString (item : CategoryPopularityItem) : string :=
  let name :=
    JS.or_else (Some (label item)) (underscores_to_spaces (category_id item)) in
  name +:+ " (" +:+ category_id item +:+ ")".

End Reinforce.

(* ===================================================================== *)
(** * HTS prefix ([web/lib/analytics/regulationPatterns.ts]) and the
      loading of the store files                                          *)
(* ===================================================================== *)

Module RegulationPatterns.

(** [htsCode.match(/^(\d{4})/)]. *)
Definition extractHtsPrefix (htsCode : string) : option string :=
  match htsCode with
  | String a (String b (String c (String d _))) =>
      if JS.is_digit a && JS.is_digit b && JS.is_digit c && JS.is_digit d
      then Some (String a (String b (String c (String d EmptyString))))
      else None
  | _ => None
  end.

End RegulationPatterns.

Module KnowledgeStore.

(** [loadComplianceRules] and [loadFactoryVettingData] on the files as
    they are when the module is first used: the content of the file, or an
    empty store when the file is missing. *)
Definition loadComplianceRules (fs : AutoCategory.Files) : Compliance.ComplianceRulesData :=
  match AutoCategory.COMPLIANCE_FILE fs with
  | Some d => {| Compliance.categories := AutoCategory.categories d |}
  | None => {| Compliance.categories := [] |}
  end.

Definition loadFactoryVettingData (fs : AutoCategory.Files)
    : FactoryVetting.FactoryVettingData :=
  match AutoCategory.FACTORY_FILE fs with
  | Some d => {| FactoryVetting.categories := AutoCategory.categories d |}
  | None => {| FactoryVetting.categories := [] |}
  end.

End KnowledgeStore.

(* ===================================================================== *)
(** * Labels of the popularity ranking
      ([web/scripts/generateCategoryPopularity.ts])                       *)
(* ===================================================================== *)

Module Popularity.

(** [l.toUpperCase()] for a character [l] of the class [\w]. *)
Definition upper_word_char (c : ascii) : ascii :=
  if (97 <=? JS.code c) && (JS.code c <=? 122)
  then ascii_of_N (Z.to_N (JS.code c - 32))
  else c.

(** [s.replace(/\b\w/g, l => l.toUpperCase())]: a word character that
    follows no word character is put in upper case.  [prev_word] tells
    that the previous character is a word character. *)
Fixpoint capitalize_from (prev_word : bool) (s : string) : string :=
  match s with
  | EmptyString => EmptyString
  | String c s' =>
      String (if Slug.is_word c && negb prev_word then upper_word_char c else c)
             (capitalize_from (Slug.is_word c) s')
  end.

(** The label made from an identifier. *)
Definition fallbackLabel (categoryId : string) : string :=
  capitalize_from false (Reinforce.underscores_to_spaces categoryId).

(** [labelMap.get(categoryId) || fallback]. *)
Definition labelFor (stored : option string) (categoryId : string) : string :=
  JS.or_else stored (fallbackLabel categoryId).

End Popularity.

(* ===================================================================== *)
(** * The merge on files as they are on disk
      ([web/scripts/autoCategory.ts])                                     *)
(* ===================================================================== *)

Module Disk.

(** The object [JSON.parse] reads from a file: its [$comment], its
    [categories] array when it has one, and its other members. *)
Record Json (A : Type) := {
  comment : option string;
  categories : option (list A);
  members : list (string * string)
}.
Arguments comment {A} _.
Arguments categories {A} _.
Arguments members {A} _.

(** The text of a file: text that [JSON.parse] rejects, or the object it
    reads. *)
Inductive Content (A : Type) :=
| Unparsable
| Parsed (data : Json A).
Arguments Unparsable {A}.
Arguments Parsed {A} _.

(** The four paths; [None] is a file that does not exist. *)
Record Files := {
  COMPLIANCE_FILE : option (Content Compliance.CategoryComplianceRule);
  FACTORY_FILE : option (Content FactoryVetting.CategoryFactoryVettingHints);
  COMPLIANCE_SAMPLE : option (Content Compliance.CategoryComplianceRule);
  FACTORY_SAMPLE : option (Content FactoryVetting.CategoryFactoryVettingHints)
}.

(** The content of [filePath] once [ensureFileExists] has run.  A file
    that exists is left alone, whatever it holds.  A missing file is
    written from the sample; [None] when that throws, the sample being
    missing or not parsing. *)
Definition ensureFileExists {A} (file sample : option (Content A))
    : option (Content A) :=
  match file with
  | Some content => Some content
  | None =>
      match sample with
      | Some (Parsed sampleData) =>
          Some (Parsed
                  {| comment :=
                       Some (JS.or_else
                               (option_map (JS.replace_first "sample" "actual")
                                           (comment sampleData)) "");
                     categories := Some [];
                     members := members sampleData |})
      | _ => None
      end
  end.

(** Reading a file, merging the record and writing the file back: the
    content written and the status, or [None] when [JSON.parse] throws or
    [categories] is not there to call [findIndex] on, in which case the
    file is not written. *)
Definition mergeRecord {A} (id_of : A -> string) (json : A) (content : Content A)
    : option (Content A * string) :=
  match content with
  | Unparsable => None
  | Parsed data =>
      match categories data with
      | None => None
      | Some cats =>
          let '(cats', status) := AutoCategory.upsert id_of json cats in
          Some (Parsed {| comment := comment data; categories := Some cats';
                          members := members data |}, status)
      end
  end.

(** [mergeIntoFiles], statement by statement: both files are ensured,
    then the compliance file is read, merged and written, then the factory
    file.  The files are returned as the call leaves them, also when it
    throws. *)
Definition mergeIntoFiles (complianceJson : Compliance.CategoryComplianceRule)
    (factoryJson : FactoryVetting.CategoryFactoryVettingHints) (fs : Files)
    : Files * option AutoCategory.MergeStatus :=
  match ensureFileExists (COMPLIANCE_FILE fs) (COMPLIANCE_SAMPLE fs) with
  | None => (fs, None)
  | Some complianceContent =>
      let fs1 :=
        {| COMPLIANCE_FILE := Some complianceContent; FACTORY_FILE := FACTORY_FILE fs;
           COMPLIANCE_SAMPLE := COMPLIANCE_SAMPLE fs; FACTORY_SAMPLE := FACTORY_SAMPLE fs |} in
      match ensureFileExists (FACTORY_FILE fs) (FACTORY_SAMPLE fs) with
      | None => (fs1, None)
      | Some factoryContent =>
          let fs2 :=
            {| COMPLIANCE_FILE := Some complianceContent;
               FACTORY_FILE := Some factoryContent;
               COMPLIANCE_SAMPLE := COMPLIANCE_SAMPLE fs;
               FACTORY_SAMPLE := FACTORY_SAMPLE fs |} in
          match mergeRecord Compliance.id complianceJson complianceContent with
          | None => (fs2, None)
          | Some (complianceWritten, complianceStatus) =>
              let fs3 :=
                {| COMPLIANCE_FILE := Some complianceWritten;
                   FACTORY_FILE := Some factoryContent;
                   COMPLIANCE_SAMPLE := COMPLIANCE_SAMPLE fs;
                   FACTORY_SAMPLE := FACTORY_SAMPLE fs |} in
              match mergeRecord FactoryVetting.id factoryJson factoryContent with
              | None => (fs3, None)
              | Some (factoryWritten, factoryStatus) =>
                  ({| COMPLIANCE_FILE := Some complianceWritten;
                      FACTORY_FILE := Some factoryWritten;
                      COMPLIANCE_SAMPLE := COMPLIANCE_SAMPLE fs;
                      FACTORY_SAMPLE := FACTORY_SAMPLE fs |},
                   Some {| AutoCategory.compliance := complianceStatus;
                           AutoCategory.factory := factoryStatus;
                           AutoCategory.compliancePath := AutoCategory.COMPLIANCE_FILE_PATH;
                           AutoCategory.factoryPath := AutoCategory.FACTORY_FILE_PATH |})
              end
          end
      end
  end.

(** A store document as the content of a file, and the files of
    [AutoCategory] as files on disk. *)
Definition of_document {A} (d : AutoCategory.Document A) : Content A :=
  Parsed {| comment := AutoCategory.comment d;
            categories := Some (AutoCategory.categories d);
            members := AutoCategory.members d |}.

Definition of_files (fs : AutoCategory.Files) : Files :=
  {| COMPLIANCE_FILE := option_map of_document (AutoCategory.COMPLIANCE_FILE fs);
     FACTORY_FILE := option_map of_document (AutoCategory.FACTORY_FILE fs);
     COMPLIANCE_SAMPLE := option_map of_document (AutoCategory.COMPLIANCE_SAMPLE fs);
     FACTORY_SAMPLE := option_map of_document (AutoCategory.FACTORY_SAMPLE fs) |}.

End Disk.

(* ===================================================================== *)
(** * Notions the properties are stated with                              *)
(* ===================================================================== *)

Module Spec.

(** The two exported operations of the limiter, as one interface over the
    store: [getUsage] writes nothing, so the store it leaves is the one it
    was given. *)
Inductive op := GetUsage | IncrementUsage.

Definition call (o : op) (flag : option string) (now : Limit.Date)
    (identifier : string) (isAuthenticated : bool) (usage : Limit.store)
    : Limit.Usage * Limit.store :=
  match o with
  | GetUsage => (Limit.getUsage now identifier isAuthenticated usage, usage)
  | IncrementUsage => Limit.incrementUsage flag now identifier isAuthenticated usage
  end.

(** A sequence of [incrementUsage] calls [(identifier, isAuthenticated)]
    made on the day [now], with the results in call order. *)
Fixpoint run (flag : option string) (now : Limit.Date) (calls : list (string * bool))
    (usage : Limit.store) : list Limit.Usage * Limit.store :=
  match calls with
  | [] => ([], usage)
  | (identifier, isAuthenticated) :: rest =>
      let '(r, usage') :=
        Limit.incrementUsage flag now identifier isAuthenticated usage in
      let '(rs, usage'') := run flag now rest usage' in
      (r :: rs, usage'')
  end.

(** Number of calls of a sequence made for [identifier]. *)
Definition calls_of (identifier : string) (calls : list (string * bool)) : Z :=
  Z.of_nat (length (List.filter (fun c => String.eqb (fst c) identifier) calls)).

(** [p] is a prefix of [s]. *)
Definition is_prefix (p s : string) : Prop := exists t, s = p +:+ t.

(** [t] occurs in [s]. *)
Definition is_substring (t s : string) : Prop := exists a b, s = a +:+ t +:+ b.



(** [s] holds no digit and no dot. *)
Definition digitless (s : string) : Prop :=
  forall c, In c (list_ascii_of_string s) ->
            JS.is_digit c = false /\ c <> "."%char.

(** The market filter of the lookups: a category passes when no market
    is asked for (absent or empty), when it lists no target market, or
    when one of its target markets contains the market or is contained
    in it, letter case aside. *)
Definition passes_market (market : option string)
    (category : Compliance.CategoryComplianceRule) : bool :=
  match market with
  | Some (String c m) =>
      match Compliance.targetMarkets category with
      | [] => true
      | _ :: _ => Compliance.marketMatches (String c m) category
      end
  | _ => true
  end.

(** The capital letters among the code units below 256: A to Z, and the
    accented capitals U+00C0 to U+00DE, the multiplication sign U+00D7
    apart. *)
Definition is_capital (c : ascii) : Prop :=
  65 <= JS.code c <= 90
  \/ (192 <= JS.code c <= 222 /\ JS.code c <> 215).

(** [d] is the lower-case form of [c]: the lower-case form of a capital
    letter lies 32 code units above it, and any other character is its own
    lower-case form. *)
Definition lower_of (c d : ascii) : Prop :=
  (is_capital c /\ JS.code d = JS.code c + 32) \/ (~ is_capital c /\ d = c).

(** [t] is [s] put in lower case, character by character. *)
Definition lowercase_of (s t : string) : Prop :=
  Forall2 lower_of (list_ascii_of_string s) (list_ascii_of_string t).

(** The regulation name [reg] contains the key, letter case aside: some
    part of [reg] reads [key] once it is put in lower case. *)
Definition mentions (reg key : string) : Prop :=
  exists occurrence, is_substring occurrence reg /\ lowercase_of occurrence key.

(** The identifiers of the records of a document, in array order. *)
Definition ids {A} (id_of : A -> string) (cats : list A) : list string :=
  map id_of cats.

(** What merging the record [json] into the array [old] is to give:
    when a record of [old] has the identifier of [json], the first such
    record is replaced at its index, the status is "updated", and the
    identifiers of the array are unchanged; when none has it, [json] is
    appended and the status is "created"; identifiers that were distinct
    stay distinct. *)
Definition merged {A} (id_of : A -> string) (json : A) (old new : list A)
    (status : string) : Prop :=
  (forall (i : nat) x,
      old !! i = Some x -> id_of x = id_of json ->
      (forall (j : nat) y, (j < i)%nat -> old !! j = Some y -> id_of y <> id_of json) ->
      new = <[i := json]> old /\ status = "updated")
  /\ ((forall x, In x old -> id_of x <> id_of json) ->
      new = (old ++ [json])%list /\ status = "created")
  /\ (In (id_of json) (ids id_of old) -> ids id_of new = ids id_of old)
  /\ (List.NoDup (ids id_of old) -> List.NoDup (ids id_of new)).

(** [!!session?.user] *)
Definition authenticated (req : Route.Request) : bool :=
  match Route.session req with
  | Some _ => true
  | None => false
  end.

(** The handler run on requests that arrive one after the other. *)
Fixpoint serve {Event : Type}
    (post : Route.Request -> Route.World Event -> Route.Response * Route.World Event)
    (reqs : list Route.Request) (w : Route.World Event)
    : list Route.Response * Route.World Event :=
  match reqs with
  | [] => ([], w)
  | req :: rest =>
      let '(r, w') := post req w in
      let '(rs, w'') := serve post rest w' in
      (r :: rs, w'')
  end.

(** Calendar fields as [Date] gives them: a year from 0 on, a month from
    0 to 11, a day of the month from 1 to 31. *)
Definition calendar (d : Limit.Date) : Prop :=
  0 <= Limit.getFullYear d
  /\ 0 <= Limit.getMonth d <= 11
  /\ 1 <= Limit.getDate d <= 31.

(** [d1] is an earlier day than [d2]. *)
Definition earlier (d1 d2 : Limit.Date) : Prop :=
  Limit.getFullYear d1 < Limit.getFullYear d2
  \/ (Limit.getFullYear d1 = Limit.getFullYear d2
      /\ (Limit.getMonth d1 < Limit.getMonth d2
          \/ (Limit.getMonth d1 = Limit.getMonth d2
              /\ Limit.getDate d1 < Limit.getDate d2))).

(** [p] is a suffix of [s]. *)
Definition is_suffix (p s : string) : Prop := exists t, s = t +:+ p.

(** Every character of [s] satisfies [p]. *)
Definition all_chars (p : ascii -> bool) (s : string) : Prop :=
  forall c, In c (list_ascii_of_string s) -> p c = true.

(** The characters of an identifier: lower-case letters, digits,
    underscores and hyphens. *)
Definition slug_char (c : ascii) : bool :=
  JS.is_digit c
  || ((97 <=? JS.code c) && (JS.code c <=? 122))
  || (JS.code c =? 95)
  || (JS.code c =? 45).

(** A well-formed identifier: made of identifier characters, with no
    underscore at either end and no two underscores in a row. *)
Definition slug (s : string) : Prop :=
  all_chars slug_char s
  /\ ~ is_prefix "_" s
  /\ ~ is_suffix "_" s
  /\ ~ is_substring "__" s.

(** No entry of a store carries the day number [n]. *)
Definition no_entry_of_day (n : Z) (usage : Limit.store) : Prop :=
  forall identifier entry,
    usage !! identifier = Some entry -> UsageEntry.date entry <> n.

(** [s] holds no white space; [s] starts with white space. *)
Definition no_space (s : string) : Prop :=
  forall c, In c (list_ascii_of_string s) -> JS.is_space c = false.

Definition starts_with_space (s : string) : Prop :=
  exists c r, s = String c r /\ JS.is_space c = true.

(** The white-space-delimited tokens of a text: the text is its tokens,
    in order, with a run of white space between one token and the next;
    the runs are not empty and as long as they can be, and no token holds
    white space.  A text without white space is its only token; a text
    that starts or ends with white space has an empty first or last
    token. *)
Inductive ws_tokens : string -> list string -> Prop :=
| ws_last (t : string) : no_space t -> ws_tokens t [t]
| ws_more (t w rest : string) (toks : list string) :
    no_space t -> w <> "" -> all_chars JS.is_space w -> ~ starts_with_space rest ->
    ws_tokens rest toks -> ws_tokens (t +:+ w +:+ rest) (t :: toks).

(** A token longer than 2 characters occurs in the label or in an
    example product of the category, once these are put in lower case. *)
Definition name_match (tokens : list string)
    (category : Compliance.CategoryComplianceRule) : Prop :=
  exists term text lowered,
    In term tokens
    /\ (2 < String.length term)%nat
    /\ (text = Compliance.label category \/ In text (Compliance.exampleProducts category))
    /\ lowercase_of text lowered
    /\ is_substring term lowered.

(** [r] is the first element of [l], in order, that satisfies [P], or
    none when no element does. *)
Definition first_such {A} (P : A -> Prop) (l : list A) (r : option A) : Prop :=
  match r with
  | Some x =>
      exists before after,
        l = (before ++ x :: after)%list /\ P x /\ forall y, In y before -> ~ P y
  | None => forall y, In y l -> ~ P y
  end.

(** The binary64 number [x] is the integer [z]. *)
Definition exactly (x : spec_float) (z : Z) : Prop :=
  match x with
  | S754_zero _ => z = 0
  | S754_finite s m e =>
      e <= 0 /\ (if s then - Z.pos m else Z.pos m) = z * 2 ^ (- e)
  | _ => False
  end.

(** The binary64 number [x] is positive, normal, and within half a unit
    in the last place of the fraction [num / den]: it is a binary64 number
    nearest to the fraction. *)
Definition nearest (x : spec_float) (num den : Z) : Prop :=
  match x with
  | S754_finite false m e =>
      e <= 0 /\ 2 ^ 52 <= Z.pos m < 2 ^ 53
      /\ 2 * Z.abs (den * Z.pos m - num * 2 ^ (- e)) <= den
  | _ => False
  end.

(** Every opening parenthesis of [s] has a closing parenthesis or a line
    terminator somewhere after it in [s]. *)
Definition parens_closed (s : string) : Prop :=
  forall a b,
    s = a +:+ String "("%char b ->
    exists c, In c (list_ascii_of_string b)
              /\ (c = ")"%char \/ Slug.is_line_terminator c = true).

(** A file that is as it was, or that was missing and now holds an empty
    [categories] array. *)
Definition untouched_or_created {A} (before after : option (Disk.Content A)) : Prop :=
  after = before
  \/ (before = None
      /\ exists data, after = Some (Disk.Parsed data) /\ Disk.categories data = Some []).

(** A store file the merge can work with: a file that parses and has a
    [categories] array, or a missing file whose sample parses. *)
Definition usable {A} (file sample : option (Disk.Content A)) : Prop :=
  match file with
  | Some (Disk.Parsed data) => Disk.categories data <> None
  | Some Disk.Unparsable => False
  | None => exists sampleData, sample = Some (Disk.Parsed sampleData)
  end.

End Spec.

(* ===================================================================== *)
(** * The definitions on concrete inputs                                  *)
(* ===================================================================== *)

Example split_ws_runs : JS.split_ws "  a b  c " = [""; "a"; "b"; "c"; ""].
Proof. reflexivity. Qed.

Example split_ws_empty : JS.split_ws "" = [""].
Proof. reflexivity. Qed.

Example toLowerCase_mixed : JS.toLowerCase "Baby TEETHER (BPA-free)" = "baby teether (bpa-free)".
Proof. reflexivity. Qed.

Example normalizeHts_strips : Compliance.normalizeHts "HTS 9503.00.00 (toys)" = "9503.00.00".
Proof. reflexivity. Qed.

Example parseCurrency_dollars : OrderCost.parseCurrency "$1.38" = Num.of_decimal false 138 2.
Proof. vm_compute. reflexivity. Qed.

Example parseCurrency_no_digit : OrderCost.parseCurrency "n/a" = S754_nan.
Proof. vm_compute. reflexivity. Qed.

(** The three cases of the limiter's test suite. *)
Example limiter_anonymous :
  (Spec.run None {| Limit.getFullYear := 2025; Limit.getMonth := 0; Limit.getDate := 15 |}
     [("test-anonymous-1", false); ("test-anonymous-1", false)] ∅).1
  = [ {| Limit.count := 1; Limit.limit := 1 |}; {| Limit.count := 2; Limit.limit := 1 |} ].
Proof. vm_compute. reflexivity. Qed.

Example limiter_disabled now :
  (Spec.run (Some "true") now
     [("test-anonymous-2", false); ("test-anonymous-2", false)] ∅).1
  = [ {| Limit.count := 0; Limit.limit := 1 |}; {| Limit.count := 0; Limit.limit := 1 |} ].
Proof. reflexivity. Qed.

Example limiter_authenticated :
  map Limit.count
    (Spec.run None {| Limit.getFullYear := 2025; Limit.getMonth := 0; Limit.getDate := 15 |}
       (replicate 6 ("test-authenticated-1", true)) ∅).1
  = [1; 2; 3; 4; 5; 6].
Proof. vm_compute. reflexivity. Qed.

Example estimateTestingCost_cpsia_fda :
  map TestCost.test
    (TestCost.estimateTestingCost
       {| Compliance.id := "baby_teether"; Compliance.label := "Baby teether";
          Compliance.exampleProducts := []; Compliance.targetMarkets := [];
          Compliance.typicalHtsCodes := [];
          Compliance.requiredRegulations :=
            ["CPSIA (lead, phthalates)"; "FDA-21-CFR 177.2600"; "ASTM F963"; "cpsia"];
          Compliance.testingRequirements := []; Compliance.highRiskFlags := [];
          Compliance.referenceLinks := [] |})
  = [ "CPSIA Lead Content"; "CPSIA Phthalates"; "CPSIA Tracking Label Review";
      "FDA 21 CFR Food-Grade Material Testing" ].
Proof. vm_compute. reflexivity. Qed.

Example upsert_replaces_in_place :
  AutoCategory.upsert fst ("b", 9%nat) [("a", 1%nat); ("b", 2%nat); ("c", 3%nat)]
  = ([("a", 1%nat); ("b", 9%nat); ("c", 3%nat)], "updated").
Proof. reflexivity. Qed.

Example upsert_appends :
  AutoCategory.upsert fst ("d", 4%nat) [("a", 1%nat); ("b", 2%nat)]
  = ([("a", 1%nat); ("b", 2%nat); ("d", 4%nat)], "created").
Proof. reflexivity. Qed.

(* ===================================================================== *)
(** * Properties of the usage limiter                                     *)
(* ===================================================================== *)

Section LimitFacts.

Import Limit Spec.

Variable now : Date.
Let today := getCurrentDateAsNumber now.

(** The count an identifier has reached on the day [now]. *)
Lemma getUsage_count identifier isAuthenticated (usage : store) :
  count (getUsage now identifier isAuthenticated usage) =
    match usage !! identifier with
    | Some entry => if UsageEntry.date entry =? today then UsageEntry.count entry else 0
    | None => 0
    end.
Proof.
  unfold getUsage. destruct (usage !! identifier) as [entry|]; [|reflexivity].
  fold today. destruct (UsageEntry.date entry =? today); reflexivity.
Qed.

Lemma getUsage_limit identifier isAuthenticated (usage : store) :
  limit (getUsage now identifier isAuthenticated usage) = getLimit isAuthenticated.
Proof.
  unfold getUsage. destruct (usage !! identifier) as [entry|]; [|reflexivity].
  destruct (negb _); reflexivity.
Qed.

(** With the limits on, a call stores and reports one more than the
    count of the day. *)
Lemma incrementUsage_enabled flag identifier isAuthenticated (usage : store) :
  limits_disabled flag = false ->
  incrementUsage flag now identifier isAuthenticated usage =
    let n := count (getUsage now identifier isAuthenticated usage) + 1 in
    ({| count := n; limit := getLimit isAuthenticated |},
     <[identifier := UsageEntry.mk n today]> usage).
Proof.
  intros Hflag. unfold incrementUsage. rewrite Hflag, getUsage_count. cbn zeta.
  fold today. destruct (usage !! identifier) as [entry|]; [|reflexivity].
  destruct (Z.eqb_spec (UsageEntry.date entry) today) as [Heq|Hne]; cbn.
  - rewrite Heq. reflexivity.
  - reflexivity.
Qed.

Lemma getUsage_after_increment flag identifier isAuthenticated a (usage : store) :
  limits_disabled flag = false ->
  count (getUsage now identifier a
           (incrementUsage flag now identifier isAuthenticated usage).2) =
    count (getUsage now identifier isAuthenticated usage) + 1.
Proof.
  intros Hflag. rewrite (incrementUsage_enabled _ _ _ _ Hflag). cbn.
  rewrite getUsage_count, lookup_insert_eq. cbn. rewrite Z.eqb_refl.
  reflexivity.
Qed.

Lemma getUsage_other_increment flag identifier other isAuthenticated a (usage : store) :
  other <> identifier ->
  getUsage now identifier a (incrementUsage flag now other isAuthenticated usage).2 =
    getUsage now identifier a usage.
Proof.
  intros Hne. unfold incrementUsage.
  assert (Hl : forall e, getUsage now identifier a (<[other := e]> usage)
                         = getUsage now identifier a usage).
  { intros e. unfold getUsage. rewrite lookup_insert_ne by exact Hne. reflexivity. }
  destruct (limits_disabled flag); [reflexivity|]. cbn zeta.
  destruct (usage !! other) as [entry|]; [|apply Hl].
  destruct (negb _); apply Hl.
Qed.

Lemma calls_of_cons identifier c (calls : list (string * bool)) :
  calls_of identifier (c :: calls) =
    (if String.eqb (fst c) identifier then 1 else 0) + calls_of identifier calls.
Proof.
  unfold calls_of. cbn [List.filter]. destruct (String.eqb (fst c) identifier); cbn [length]; lia.
Qed.

(** The result of the call at position [k] of a sequence. *)
Lemma run_lookup flag (calls : list (string * bool)) :
  limits_disabled flag = false ->
  forall (usage : store) k identifier isAuthenticated,
    calls !! k = Some (identifier, isAuthenticated) ->
    (run flag now calls usage).1 !! k =
      Some {| count := count (getUsage now identifier isAuthenticated usage)
                       + calls_of identifier (take (S k) calls);
              limit := getLimit isAuthenticated |}.
Proof.
  intros Hflag. induction calls as [|[i a] calls IH]; intros usage k identifier auth Hk.
  - discriminate.
  - cbn [run].
    destruct (incrementUsage flag now i a usage) as [r usage'] eqn:Hinc.
    destruct (run flag now calls usage') as [rs usage''] eqn:Hrun.
    destruct k as [|k]; cbn in Hk |- *.
    + injection Hk as -> ->.
      rewrite (incrementUsage_enabled _ _ _ _ Hflag) in Hinc. cbn in Hinc.
      injection Hinc as <- _. rewrite calls_of_cons. cbn [fst].
      rewrite String.eqb_refl. unfold calls_of. cbn. rewrite Z.add_0_r. reflexivity.
    + specialize (IH usage' k identifier auth Hk). rewrite Hrun in IH. cbn in IH.
      refine (eq_trans IH _). rewrite calls_of_cons. cbn [fst].
      assert (Hu : usage' = (incrementUsage flag now i a usage).2) by (rewrite Hinc; reflexivity).
      destruct (String.eqb_spec i identifier) as [->|Hne].
      * rewrite Hu, getUsage_count, <- (getUsage_count identifier auth).
        rewrite (getUsage_after_increment _ _ _ auth _ Hflag).
        rewrite !getUsage_count. do 2 f_equal; lia.
      * rewrite Hu, (getUsage_other_increment _ _ _ _ _ _ Hne). do 2 f_equal; lia.
Qed.

(** With the limits on, a call never leaves the store as it was. *)
Lemma incrementUsage_changes_store flag identifier isAuthenticated (usage : store) :
  limits_disabled flag = false ->
  (incrementUsage flag now identifier isAuthenticated usage).2 <> usage.
Proof.
  intros Hflag Heq. rewrite (incrementUsage_enabled _ _ _ _ Hflag) in Heq. cbn in Heq.
  assert (Hl : usage !! identifier
               = Some (UsageEntry.mk
                         (count (getUsage now identifier isAuthenticated usage) + 1) today)).
  { rewrite <- Heq at 1. apply lookup_insert_eq. }
  rewrite getUsage_count, Hl in Hl. cbn in Hl. rewrite Z.eqb_refl in Hl.
  injection Hl as Hl. lia.
Qed.

End LimitFacts.

(** C1.  With the limits on, take any sequence of [incrementUsage] calls
    made on one calendar day, for any identifiers and authentication
    states.  The call at position [k], made for [identifier], is the N-th
    call for that identifier, and it returns [count = N] when the store
    held no entry for the identifier or an entry of another day (the count
    starts again at 1), and the stored count plus N when the stored day is
    the current day (no reset).  The limit it returns is 1 for an anonymous
    and 5 for an authenticated caller, and the count goes on growing past
    it. *)
Theorem incrementUsage_nth_call flag now (usage : Limit.store)
    (calls : list (string * bool)) (k : nat) (identifier : string)
    (isAuthenticated : bool) :
  Limit.limits_disabled flag = false ->
  calls !! k = Some (identifier, isAuthenticated) ->
  let today := Limit.getCurrentDateAsNumber now in
  let N := Spec.calls_of identifier (take (S k) calls) in
  1 <= N /\
  (Spec.run flag now calls usage).1 !! k =
    Some {| Limit.count :=
              match usage !! identifier with
              | Some entry =>
                  if UsageEntry.date entry =? today then UsageEntry.count entry + N else N
              | None => N
              end;
            Limit.limit := if isAuthenticated then 5 else 1 |}.
Proof.
  intros Hflag Hk today N. split.
  - subst N. rewrite (take_S_r _ _ _ Hk). unfold Spec.calls_of.
    rewrite List.filter_app, length_app. cbn. rewrite String.eqb_refl. cbn. lia.
  - rewrite (run_lookup now flag calls Hflag usage k identifier isAuthenticated Hk).
    rewrite getUsage_count. fold today N.
    destruct isAuthenticated, (usage !! identifier) as [entry|];
      try destruct (UsageEntry.date entry =? today); reflexivity.
Qed.

Lemma incrementUsage_nth_call_witness :
  let now := {| Limit.getFullYear := 2025; Limit.getMonth := 0; Limit.getDate := 15 |} in
  let calls := [("10.0.0.1-curl", false); ("ann@example.com", true);
                ("10.0.0.1-curl", false); ("10.0.0.1-curl", false)] in
  Limit.limits_disabled None = false /\
  calls !! 3%nat = Some ("10.0.0.1-curl", false) /\
  (Spec.run None now calls ∅).1 !! 3%nat
    = Some {| Limit.count := 3; Limit.limit := 1 |}.
Proof.
  intros now calls. split; [reflexivity|]. split; [reflexivity|].
  exact (proj2 (incrementUsage_nth_call None now ∅ calls 3 "10.0.0.1-curl" false
                  eq_refl eq_refl)).
Defined.

(** C5.  When [NEXSUPPLY_DISABLE_USAGE_LIMITS] is ['true'], a call to
    [incrementUsage] returns [count = 0] whatever the store holds, and the
    store it leaves is the store it was given; the same holds along any
    sequence of calls. *)
Theorem incrementUsage_bypass now identifier isAuthenticated (usage : Limit.store)
    (calls : list (string * bool)) :
  Limit.incrementUsage (Some "true") now identifier isAuthenticated usage
    = ({| Limit.count := 0; Limit.limit := Limit.getLimit isAuthenticated |}, usage)
  /\ Spec.run (Some "true") now calls usage
     = (map (fun c => {| Limit.count := 0; Limit.limit := Limit.getLimit (snd c) |}) calls,
        usage).
Proof.
  split; [reflexivity|].
  induction calls as [|[i a] calls IH]; [reflexivity|].
  cbn [Spec.run]. change (Limit.incrementUsage (Some "true") now i a usage)
    with ({| Limit.count := 0; Limit.limit := Limit.getLimit a |}, usage).
  cbn iota. rewrite IH. reflexivity.
Qed.

(** C9, as stated, fails: [getUsage] reports the count of an identifier
    and leaves the store untouched. *)
Lemma getUsage_reports_without_mutation :
  let now := {| Limit.getFullYear := 2025; Limit.getMonth := 0; Limit.getDate := 15 |} in
  let usage : Limit.store := {[ "ann@example.com" := UsageEntry.mk 3 20250115 ]} in
  Spec.call Spec.GetUsage None now "ann@example.com" true usage
    = ({| Limit.count := 3; Limit.limit := 5 |}, usage)
  /\ ~ (forall o identifier isAuthenticated (u : Limit.store),
          (Spec.call o None now identifier isAuthenticated u).2 <> u).
Proof.
  intros now usage. split; [reflexivity|].
  intros H. exact (H Spec.GetUsage "ann@example.com" true usage eq_refl).
Qed.

(** C9, amended.  [incrementUsage] couples reporting and consuming: with
    the limits on it reports one more than the count of the day and always
    changes the store.  [getUsage] is the read-only peek: it leaves the
    store as it is, reports the count of the day without consuming quota,
    and after an [incrementUsage] it reports the count that call returned. *)
Theorem limiter_check_and_peek flag now identifier isAuthenticated (usage : Limit.store) :
  Limit.limits_disabled flag = false ->
  let peek := Spec.call Spec.GetUsage flag now identifier isAuthenticated usage in
  let inc := Spec.call Spec.IncrementUsage flag now identifier isAuthenticated usage in
  peek.2 = usage
  /\ inc.2 <> usage
  /\ Limit.count inc.1 = Limit.count peek.1 + 1
  /\ Limit.limit inc.1 = Limit.limit peek.1
  /\ (Spec.call Spec.GetUsage flag now identifier isAuthenticated inc.2).1 = inc.1.
Proof.
  intros Hflag peek inc. subst peek inc. cbn [Spec.call fst snd].
  split; [reflexivity|]. split; [apply incrementUsage_changes_store, Hflag|].
  pose proof (getUsage_after_increment now flag identifier isAuthenticated
                isAuthenticated usage Hflag) as Hafter.
  pose proof (getUsage_limit now identifier isAuthenticated
                (Limit.incrementUsage flag now identifier isAuthenticated usage).2) as Hlim.
  rewrite (incrementUsage_enabled now flag identifier isAuthenticated usage Hflag) in *.
  cbn [fst snd Limit.count Limit.limit] in *.
  rewrite getUsage_limit. repeat split.
  destruct (Limit.getUsage now identifier isAuthenticated _) as [c l].
  cbn in Hafter, Hlim. subst. reflexivity.
Qed.

Lemma limiter_check_and_peek_witness :
  let now := {| Limit.getFullYear := 2025; Limit.getMonth := 0; Limit.getDate := 15 |} in
  let usage : Limit.store := {[ "ann@example.com" := UsageEntry.mk 3 20250115 ]} in
  Limit.limits_disabled None = false /\
  Limit.count (Spec.call Spec.IncrementUsage None now "ann@example.com" true usage).1
    = Limit.count (Spec.call Spec.GetUsage None now "ann@example.com" true usage).1 + 1.
Proof.
  intros now usage. split; [reflexivity|].
  exact (proj1 (proj2 (proj2
           (limiter_check_and_peek None now "ann@example.com" true usage eq_refl)))).
Defined.

(* ===================================================================== *)
(** * Properties of the request handler                                   *)
(* ===================================================================== *)

(** A call to [incrementUsage] touches the entry of its identifier only. *)
Lemma incrementUsage_frame flag now identifier isAuthenticated (usage : Limit.store) other :
  other <> identifier ->
  (Limit.incrementUsage flag now identifier isAuthenticated usage).2 !! other
    = usage !! other.
Proof.
  intros Hne. unfold Limit.incrementUsage.
  destruct (Limit.limits_disabled flag); [reflexivity|]. cbn zeta.
  destruct (usage !! identifier) as [entry|].
  - destruct (negb _); cbn; apply lookup_insert_ne; congruence.
  - cbn. apply lookup_insert_ne. congruence.
Qed.

(** C2, as stated, fails: an anonymous request without an [input] field is
    answered 400, yet it leaves an entry in the usage store, and the same
    caller's next, well-formed request of the day is turned away with 429
    where it would have been served. *)
Lemma rejected_request_consumes_quota :
  let env := {| Route.NEXSUPPLY_DISABLE_USAGE_LIMITS := None;
                Route.now := {| Limit.getFullYear := 2025; Limit.getMonth := 0;
                                Limit.getDate := 15 |};
                Route.log_writable := true |} in
  let request input := {| Route.session := None;
                          Route.x_forwarded_for := Some "10.0.0.1";
                          Route.user_agent := Some "curl";
                          Route.content_type := Some "multipart/form-data";
                          Route.json := inl "Unexpected token";
                          Route.formData := inr (Route.Form input None) |} in
  let analysis :=
    {| Schema.product_name := "baby teether"; Schema.hts_code := "9503.00.00";
       Schema.landed_cost_breakdown :=
         {| Schema.fob_price := "$1.50"; Schema.freight_cost := "$0.91";
            Schema.duty_rate := "0%"; Schema.duty_cost := "$0.50";
            Schema.landed_cost := "$2.91" |};
       Schema.risk_assessment :=
         {| Schema.overall_score := Num.of_Z 70; Schema.compliance_risk := Schema.High;
            Schema.supplier_risk := Schema.Low; Schema.logistics_risk := Schema.Low;
            Schema.summary := "" |};
       Schema.recommendation := ""; Schema.estimate_confidence := None;
       Schema.missing_info := None; Schema.assumptions := None;
       Schema.compliance_hints := None; Schema.factory_vetting_hints := None;
       Schema.regulation_reasoning := None; Schema.testing_cost_estimate := None;
       Schema.initial_order_cost := None |} in
  let post :=
    Route.POST unit (fun _ _ => inr analysis)
      {| Compliance.categories := [] |} {| FactoryVetting.categories := [] |}
      (fun _ _ _ => tt) env in
  let w0 := {| Route.usage := ∅; Route.usage_log := [] |} in
  let rejected := post (request None) w0 in
  let retry := request (Some "baby teether") in
  rejected.1 = Route.InputRequired "Input is required."
  /\ Route.status rejected.1 = 400
  /\ Route.usage rejected.2 !! "10.0.0.1-curl" = Some (UsageEntry.mk 1 20250115)
  /\ Route.usage rejected.2 <> Route.usage w0
  /\ Route.status (post retry w0).1 = 200
  /\ Route.status (post retry rejected.2).1 = 429.
Proof.
  cbv zeta. split; [reflexivity|]. split; [reflexivity|].
  split; [vm_compute; reflexivity|]. split.
  - intros H. apply (f_equal (fun m : Limit.store => m !! "10.0.0.1-curl")) in H.
    vm_compute in H. discriminate H.
  - split; vm_compute; reflexivity.
Qed.

(** C2, amended.  A request answered 400 has passed the quota gate, which
    runs before the input is looked at: the usage store is the one
    [incrementUsage] leaves for the caller's identifier, so the caller's
    entry is created or incremented, and no other entry changes.  Nothing
    else happens: the log is as it was, the answer does not depend on the
    model call or on the knowledge store, and with the bypass flag set the
    state is unchanged altogether. *)
Theorem POST_input_rejection_effects (Event : Type) analyzeProduct rules vetting
    buildCategoryUsageEvent env req (w : Route.World Event) :
  Route.status
    (Route.POST Event analyzeProduct rules vetting buildCategoryUsageEvent env req w).1
    = 400 ->
  let after :=
    (Route.POST Event analyzeProduct rules vetting buildCategoryUsageEvent env req w).2 in
  let identifier := Route.identifier_of req in
  let isAuthenticated := match Route.session req with Some _ => true | None => false end in
  Route.usage_log after = Route.usage_log w
  /\ Route.usage after
     = (Limit.incrementUsage (Route.NEXSUPPLY_DISABLE_USAGE_LIMITS env) (Route.now env)
          identifier isAuthenticated (Route.usage w)).2
  /\ (forall other, other <> identifier ->
        Route.usage after !! other = Route.usage w !! other)
  /\ (Limit.limits_disabled (Route.NEXSUPPLY_DISABLE_USAGE_LIMITS env) = false ->
      Route.usage after !! identifier
      = Some (UsageEntry.mk
                (Limit.count (Limit.getUsage (Route.now env) identifier isAuthenticated
                                (Route.usage w)) + 1)
                (Limit.getCurrentDateAsNumber (Route.now env))))
  /\ (Limit.limits_disabled (Route.NEXSUPPLY_DISABLE_USAGE_LIMITS env) = true -> after = w)
  /\ (forall analyzeProduct' rules' vetting' buildCategoryUsageEvent',
        Route.POST Event analyzeProduct' rules' vetting' buildCategoryUsageEvent' env req w
        = Route.POST Event analyzeProduct rules vetting buildCategoryUsageEvent env req w).
Proof.
  intros Hstatus after identifier isAuthenticated.
  assert (Hshape :
    Route.POST Event analyzeProduct rules vetting buildCategoryUsageEvent env req w
    = (Route.InputRequired "Input is required.",
       {| Route.usage :=
            (Limit.incrementUsage (Route.NEXSUPPLY_DISABLE_USAGE_LIMITS env) (Route.now env)
               identifier isAuthenticated (Route.usage w)).2;
          Route.usage_log := Route.usage_log w |})
    /\ forall analyzeProduct' rules' vetting' buildCategoryUsageEvent',
        Route.POST Event analyzeProduct' rules' vetting' buildCategoryUsageEvent' env req w
        = Route.POST Event analyzeProduct rules vetting buildCategoryUsageEvent env req w).
  { revert Hstatus. unfold Route.POST. fold identifier isAuthenticated.
    destruct (Limit.incrementUsage _ _ identifier isAuthenticated (Route.usage w))
      as [u usage'].
    destruct (Limit.limit u <? Limit.count u); [discriminate|].
    destruct (Route.read_body _ _) as [message|[input image]]; [discriminate|].
    destruct (negb (JS.truthy input)).
    - intros _. split; reflexivity.
    - destruct (analyzeProduct _ image); [discriminate|].
      destruct (Route.enrich _ _ _). discriminate. }
  destruct Hshape as [Hpost Hindep].
  assert (Hafter : after = (Route.POST Event analyzeProduct rules vetting
                              buildCategoryUsageEvent env req w).2) by reflexivity.
  rewrite Hpost in Hafter. cbn [snd] in Hafter. rewrite Hafter. cbn [Route.usage Route.usage_log].
  split; [reflexivity|]. split; [reflexivity|]. split.
  { intros other Hne. apply incrementUsage_frame, Hne. }
  split.
  { intros Hflag. rewrite (incrementUsage_enabled _ _ _ _ _ Hflag). cbn.
    apply lookup_insert_eq. }
  split; [|exact Hindep].
  intros Hflag. unfold Limit.incrementUsage. rewrite Hflag. cbn. destruct w; reflexivity.
Qed.

Lemma POST_input_rejection_effects_witness :
  let env := {| Route.NEXSUPPLY_DISABLE_USAGE_LIMITS := None;
                Route.now := {| Limit.getFullYear := 2025; Limit.getMonth := 0;
                                Limit.getDate := 15 |};
                Route.log_writable := true |} in
  let req := {| Route.session := Some {| Route.email := "ann@example.com" |};
                Route.x_forwarded_for := None;
                Route.user_agent := None;
                Route.content_type := Some "application/json";
                Route.json := inr (Route.Json (Some "") None None);
                Route.formData := inl "not a form" |} in
  let w := {| Route.usage := {[ "bob@example.com" := UsageEntry.mk 2 20250115 ]};
              Route.usage_log := [tt] |} in
  let post :=
    Route.POST unit (fun _ _ => inl "model unavailable")
      {| Compliance.categories := [] |} {| FactoryVetting.categories := [] |}
      (fun _ _ _ => tt) env in
  Route.status (post req w).1 = 400
  /\ Route.usage_log (post req w).2 = [tt].
Proof.
  intros env req w post. split; [reflexivity|].
  exact (proj1 (POST_input_rejection_effects unit (fun _ _ => inl "model unavailable")
                  {| Compliance.categories := [] |} {| FactoryVetting.categories := [] |}
                  (fun _ _ _ => tt) env req w eq_refl)).
Defined.

(* ===================================================================== *)
(** * Facts about the string primitives                                   *)
(* ===================================================================== *)

Section StringFacts.

Lemma append_cons c (a b : string) : String c a +:+ b = String c (a +:+ b).
Proof. reflexivity. Qed.

Lemma append_nil_l (s : string) : "" +:+ s = s.
Proof. reflexivity. Qed.

Lemma append_nil_r (s : string) : s +:+ "" = s.
Proof.
  induction s as [|c s IH]; [reflexivity|]. rewrite append_cons, IH. reflexivity.
Qed.

Lemma append_assoc (a b c : string) : (a +:+ b) +:+ c = a +:+ (b +:+ c).
Proof.
  induction a as [|x a IH]; [reflexivity|]. rewrite !append_cons, IH. reflexivity.
Qed.

Lemma startsWith_nil (s : string) : JS.startsWith s "" = true.
Proof. destruct s; reflexivity. Qed.

Lemma startsWith_spec (s p : string) :
  JS.startsWith s p = true <-> Spec.is_prefix p s.
Proof.
  revert s. induction p as [|b p IH]; intros s.
  - rewrite startsWith_nil. split; [intros _; exists s; reflexivity|reflexivity].
  - destruct s as [|a s]; cbn.
    + split; [discriminate|]. intros [t Ht]. discriminate Ht.
    + rewrite andb_true_iff, IH. split.
      * intros [Hab [t ->]]. apply Ascii.eqb_eq in Hab. subst. exists t. reflexivity.
      * intros [t Ht]. injection Ht as -> ->. split; [apply Ascii.eqb_refl|].
        exists t. reflexivity.
Qed.

Lemma includes_spec (s t : string) :
  JS.includes s t = true <-> Spec.is_substring t s.
Proof.
  induction s as [|c s IH]; cbn [JS.includes]; rewrite orb_true_iff, startsWith_spec.
  - split.
    + intros [[r Hr]|H]; [|discriminate]. exists "", r. exact Hr.
    + intros [a [b Hab]]. left. destruct a; [|discriminate]. exists b. exact Hab.
  - rewrite IH. split.
    + intros [[r Hr]|[a [b Hab]]].
      * exists "", r. exact Hr.
      * exists (String c a), b. rewrite append_cons, Hab. reflexivity.
    + intros [a [b Hab]]. destruct a as [|x a].
      * left. exists b. exact Hab.
      * right. rewrite append_cons in Hab. injection Hab as -> ->.
        exists a, b. reflexivity.
Qed.

Lemma includes_app_l (a b t : string) :
  JS.includes a t = true -> JS.includes (a +:+ b) t = true.
Proof.
  rewrite !includes_spec. intros [x [y ->]]. exists x, (y +:+ b).
  rewrite !append_assoc. reflexivity.
Qed.

Lemma includes_app_r (a b t : string) :
  JS.includes b t = true -> JS.includes (a +:+ b) t = true.
Proof.
  rewrite !includes_spec. intros [x [y ->]]. exists (a +:+ x), y.
  rewrite !append_assoc. reflexivity.
Qed.

Lemma toLowerCase_app (a b : string) :
  JS.toLowerCase (a +:+ b) = JS.toLowerCase a +:+ JS.toLowerCase b.
Proof.
  induction a as [|c a IH]; [reflexivity|].
  rewrite append_cons. cbn [JS.toLowerCase]. rewrite IH. reflexivity.
Qed.

(** Every element of a joined list occurs in the result. *)
Lemma join_includes (sep : string) (l : list string) (e t : string) :
  In e l -> JS.includes (JS.toLowerCase e) t = true ->
  JS.includes (JS.toLowerCase (JS.join sep l)) t = true.
Proof.
  intros Hin Ht. induction l as [|x l IH]; [destruct Hin|].
  destruct l as [|y l].
  - destruct Hin as [->|[]]. exact Ht.
  - change (JS.join sep (x :: y :: l)) with (x +:+ sep +:+ JS.join sep (y :: l)).
    rewrite toLowerCase_app. destruct Hin as [->|Hin].
    + apply includes_app_l, Ht.
    + apply includes_app_r. rewrite toLowerCase_app. apply includes_app_r, IH, Hin.
Qed.

Lemma keep_digitless (s : string) :
  Spec.digitless s -> Compliance.normalizeHts s = "".
Proof.
  unfold Spec.digitless, Compliance.normalizeHts.
  induction s as [|c s IH]; intros H; [reflexivity|]. cbn.
  destruct (H c (or_introl eq_refl)) as [Hd Hdot]. rewrite Hd. cbn.
  destruct (Z.eqb_spec (JS.code c) 46) as [Heq|_].
  - exfalso. apply Hdot. unfold JS.code in Heq.
    rewrite <- (ascii_N_embedding c). change "."%char with (ascii_of_N 46).
    f_equal. lia.
  - apply IH. intros c' Hc'. apply H. right. exact Hc'.
Qed.

(** The tokens of [split] hold no white space. *)
Lemma split_ws_from_no_space (s : string) :
  forall in_ws cur,
    (forall c, In c (list_ascii_of_string cur) -> JS.is_space c = false) ->
    forall term, In term (JS.split_ws_from s in_ws cur) ->
    forall c, In c (list_ascii_of_string term) -> JS.is_space c = false.
Proof.
  induction s as [|x s IH]; intros in_ws cur Hcur term Hterm.
  - destruct Hterm as [<-|[]]. exact Hcur.
  - cbn [JS.split_ws_from] in Hterm. destruct (JS.is_space x) eqn:Hx.
    + assert (Hnil : forall c, In c (list_ascii_of_string "") -> JS.is_space c = false)
        by (intros c []).
      destruct in_ws.
      * exact (IH true "" Hnil term Hterm).
      * destruct Hterm as [<-|Hterm]; [exact Hcur|exact (IH true "" Hnil term Hterm)].
    + refine (IH false _ _ term Hterm). intros c Hc.
      assert (Happ : forall a b, list_ascii_of_string (a +:+ b)
                                 = (list_ascii_of_string a ++ list_ascii_of_string b)%list).
      { intros a b. induction a as [|y a IHa]; [reflexivity|].
        rewrite append_cons. cbn [list_ascii_of_string]. rewrite IHa. reflexivity. }
      rewrite Happ in Hc. apply in_app_or in Hc. destruct Hc as [Hc|[<-|[]]].
      * apply Hcur, Hc.
      * exact Hx.
Qed.

End StringFacts.

Section LowercaseFacts.

Lemma code_to_N (c : ascii) : Z.to_N (JS.code c) = N_of_ascii c.
Proof. unfold JS.code. apply N2Z.id. Qed.

Lemma code_range (c : ascii) : 0 <= JS.code c < 256.
Proof.
  unfold JS.code. pose proof (N_ascii_bounded c) as H. lia.
Qed.

Lemma code_inj (a b : ascii) : JS.code a = JS.code b -> a = b.
Proof.
  intros H. rewrite <- (ascii_N_embedding a), <- (ascii_N_embedding b).
  rewrite <- !code_to_N, H. reflexivity.
Qed.

Lemma code_ascii_of (n : Z) : 0 <= n < 256 -> JS.code (ascii_of_N (Z.to_N n)) = n.
Proof.
  intros Hn. unfold JS.code. rewrite N_ascii_embedding by lia. lia.
Qed.

Lemma is_capital_spec (c : ascii) :
  ((65 <=? JS.code c) && (JS.code c <=? 90))
  || ((192 <=? JS.code c) && (JS.code c <=? 222) && negb (JS.code c =? 215)) = true
  <-> Spec.is_capital c.
Proof.
  unfold Spec.is_capital.
  rewrite orb_true_iff, !andb_true_iff, negb_true_iff, !Z.leb_le, Z.eqb_neq. tauto.
Qed.

(** The lower-case form of a character is what [toLowerCase] makes of
    it. *)
Lemma lower_of_spec (c d : ascii) : Spec.lower_of c d <-> d = JS.lower_char c.
Proof.
  unfold Spec.lower_of, JS.lower_char. cbv zeta.
  destruct (((65 <=? JS.code c) && (JS.code c <=? 90))
            || ((192 <=? JS.code c) && (JS.code c <=? 222) && negb (JS.code c =? 215)))
    eqn:Hcap.
  - apply is_capital_spec in Hcap. split.
    + intros [[_ Hd]|[Hn _]]; [|destruct (Hn Hcap)].
      apply code_inj. rewrite Hd, code_ascii_of; [reflexivity|].
      unfold Spec.is_capital in Hcap. lia.
    + intros ->. left. split; [exact Hcap|]. apply code_ascii_of.
      unfold Spec.is_capital in Hcap. lia.
  - assert (Hn : ~ Spec.is_capital c).
    { intros H. apply is_capital_spec in H. congruence. }
    split; [intros [[H _]|[_ Hd]]; [destruct (Hn H)|exact Hd]|].
    intros ->. right. split; [exact Hn|reflexivity].
Qed.

Lemma lowercase_of_spec (s t : string) : Spec.lowercase_of s t <-> t = JS.toLowerCase s.
Proof.
  unfold Spec.lowercase_of. revert t. induction s as [|c s IH]; intros t.
  - destruct t as [|d t]; cbn; split; intros H;
      first [reflexivity|constructor|inversion H|discriminate H].
  - destruct t as [|d t]; cbn [list_ascii_of_string JS.toLowerCase].
    + split; intros H; [inversion H|discriminate H].
    + split.
      * intros H. inversion H as [|? ? ? ? Hc Hs]. subst.
        apply lower_of_spec in Hc. apply IH in Hs. subst. reflexivity.
      * intros [= -> ->]. constructor; [apply lower_of_spec; reflexivity|].
        apply IH. reflexivity.
Qed.

Lemma toLowerCase_app_inv (s x y : string) :
  JS.toLowerCase s = x +:+ y ->
  exists s1 s2, s = s1 +:+ s2 /\ JS.toLowerCase s1 = x /\ JS.toLowerCase s2 = y.
Proof.
  revert s. induction x as [|c x IH]; intros s H.
  - exists "", s. repeat split. exact H.
  - destruct s as [|a s]; [discriminate H|].
    cbn [JS.toLowerCase] in H. rewrite append_cons in H. injection H as Hc Hs.
    destruct (IH s Hs) as [s1 [s2 [-> [H1 H2]]]].
    exists (String a s1), s2. repeat split; [|exact H2].
    cbn [JS.toLowerCase]. rewrite Hc, H1. reflexivity.
Qed.

(** Containment letter case aside is what [reg.toLowerCase().includes(key)]
    tests. *)
Lemma mentions_spec (reg key : string) :
  Spec.mentions reg key <-> JS.includes (JS.toLowerCase reg) key = true.
Proof.
  rewrite includes_spec. unfold Spec.mentions. split.
  - intros [occurrence [[a [b ->]] Hlow]]. apply lowercase_of_spec in Hlow. subst key.
    exists (JS.toLowerCase a), (JS.toLowerCase b). rewrite !toLowerCase_app. reflexivity.
  - intros [a [b H]]. apply toLowerCase_app_inv in H.
    destruct H as [s1 [s2 [-> [_ H]]]]. apply toLowerCase_app_inv in H.
    destruct H as [s3 [s4 [-> [H3 _]]]]. exists s3.
    split; [exists s1, s4; reflexivity|]. apply lowercase_of_spec. symmetry. exact H3.
Qed.

End LowercaseFacts.

(* ===================================================================== *)
(** * Properties of the category resolver                                 *)
(* ===================================================================== *)

Section ResolverFacts.

Import Compliance.

(** The loop returns the first category that matches and passes the
    market filter. *)
Lemma scan_find matches market (cats : list CategoryComplianceRule) :
  scan matches market cats
  = List.find (fun category => matches category && Spec.passes_market market category) cats.
Proof.
  induction cats as [|category rest IH]; [reflexivity|].
  cbn [scan List.find]. rewrite IH. destruct (matches category); [|reflexivity].
  cbn [andb]. unfold Spec.passes_market.
  destruct market as [[|c m]|]; cbn [JS.truthy andb]; try reflexivity.
  destruct (targetMarkets category) as [|t ts]; [reflexivity|].
  change (0 <? Z.of_nat (length (t :: ts))) with true. cbn [JS.or_else].
  destruct (marketMatches (String c m) category); reflexivity.
Qed.

Lemma scan_find_no_market matches (cats : list CategoryComplianceRule) :
  scan matches None cats = List.find matches cats.
Proof.
  induction cats as [|category rest IH]; [reflexivity|].
  cbn [scan List.find JS.truthy andb]. rewrite IH.
  destruct (matches category); reflexivity.
Qed.

Lemma find_all_false {A} (f : A -> bool) (l : list A) :
  (forall x, In x l -> f x = false) -> List.find f l = None.
Proof.
  intros H. destruct (List.find f l) as [x|] eqn:Hf; [|reflexivity].
  apply find_some in Hf. destruct Hf as [Hin Hx]. rewrite (H x Hin) in Hx. discriminate.
Qed.




Lemma nameMatches_spec (terms : list string) category :
  nameMatches terms category = true <->
  exists term, In term terms
               /\ (2 < String.length term)%nat
               /\ Spec.is_substring term (allText category).
Proof.
  unfold nameMatches, termMatches. rewrite existsb_exists.
  split; intros [term [Hin H]]; exists term; (split; [exact Hin|]).
  - apply andb_true_iff in H. destruct H as [Hi Hl].
    split; [apply Z.ltb_lt in Hl; lia|apply includes_spec, Hi].
  - destruct H as [Hl Hi]. apply andb_true_iff.
    split; [apply includes_spec, Hi|apply Z.ltb_lt; lia].
Qed.

End ResolverFacts.



(** C10.  For every knowledge store and every query code that holds no
    digit and no dot, [getComplianceByHtsCode] returns the first category,
    in collection order, that lists at least one HTS code and passes the
    market filter: the query normalizes to the empty string, which is a
    prefix of every stored code. *)
Theorem getComplianceByHtsCode_digitless_query (rules : Compliance.ComplianceRulesData)
    (htsCode : string) (market : option string) :
  Spec.digitless htsCode ->
  Compliance.normalizeHts htsCode = ""
  /\ (forall code, Compliance.codeMatches (Compliance.normalizeHts htsCode) code = true)
  /\ Compliance.getComplianceByHtsCode rules htsCode market
     = List.find (fun category =>
                    (0 <? Z.of_nat (length (Compliance.typicalHtsCodes category)))
                    && Spec.passes_market market category)
                 (Compliance.categories rules).
Proof.
  intros Hq. pose proof (keep_digitless htsCode Hq) as Hnorm.
  assert (Hcode : forall code, Compliance.codeMatches "" code = true).
  { intros code. unfold Compliance.codeMatches. rewrite startsWith_nil. apply orb_true_r. }
  rewrite Hnorm. split; [reflexivity|]. split; [exact Hcode|].
  unfold Compliance.getComplianceByHtsCode. rewrite Hnorm, scan_find.
  induction (Compliance.categories rules) as [|category rest IH]; [reflexivity|].
  cbn [List.find]. rewrite IH.
  replace (Compliance.htsMatches "" category)
    with (0 <? Z.of_nat (length (Compliance.typicalHtsCodes category))); [reflexivity|].
  unfold Compliance.htsMatches.
  destruct (Compliance.typicalHtsCodes category) as [|code codes]; [reflexivity|].
  cbn [existsb]. rewrite Hcode. reflexivity.
Qed.

Lemma getComplianceByHtsCode_digitless_query_witness :
  let tumbler :=
    {| Compliance.id := "tumbler"; Compliance.label := "Steel tumbler";
       Compliance.exampleProducts := []; Compliance.targetMarkets := ["EU"];
       Compliance.typicalHtsCodes := ["7323.93"];
       Compliance.requiredRegulations := []; Compliance.testingRequirements := [];
       Compliance.highRiskFlags := []; Compliance.referenceLinks := [] |} in
  let draft :=
    {| Compliance.id := "draft"; Compliance.label := "Draft";
       Compliance.exampleProducts := []; Compliance.targetMarkets := [];
       Compliance.typicalHtsCodes := [];
       Compliance.requiredRegulations := []; Compliance.testingRequirements := [];
       Compliance.highRiskFlags := []; Compliance.referenceLinks := [] |} in
  let teether :=
    {| Compliance.id := "baby_teether"; Compliance.label := "Baby teether";
       Compliance.exampleProducts := []; Compliance.targetMarkets := ["US"];
       Compliance.typicalHtsCodes := ["9503.00.00"];
       Compliance.requiredRegulations := []; Compliance.testingRequirements := [];
       Compliance.highRiskFlags := []; Compliance.referenceLinks := [] |} in
  Compliance.getComplianceByHtsCode
    {| Compliance.categories := [draft; tumbler; teether] |} "unknown" (Some "us")
  = Some teether.
Proof.
  intros tumbler draft teether.
  refine (eq_trans
            (proj2 (proj2 (getComplianceByHtsCode_digitless_query
                             {| Compliance.categories := [draft; tumbler; teether] |}
                             "unknown" (Some "us") _))) eq_refl).
  intros c Hc. cbn in Hc.
  repeat (destruct Hc as [<-|Hc]; [split; [reflexivity|discriminate]|]).
  destruct Hc.
Defined.

Section TokenFacts.

Lemma all_chars_nil (p : ascii -> bool) : Spec.all_chars p "".
Proof. intros c []. Qed.

Lemma all_chars_cons (p : ascii -> bool) (c : ascii) (s : string) :
  Spec.all_chars p (String c s) <-> p c = true /\ Spec.all_chars p s.
Proof.
  split.
  - intros H. split; [apply H; left; reflexivity|].
    intros x Hx. apply H. right. exact Hx.
  - intros [Hc Hs] x Hx. cbn in Hx. destruct Hx as [<-|Hx]; [exact Hc|apply Hs, Hx].
Qed.

Lemma no_space_nil : Spec.no_space "".
Proof. intros c []. Qed.

Lemma no_space_cons (c : ascii) (s : string) :
  Spec.no_space (String c s) <-> JS.is_space c = false /\ Spec.no_space s.
Proof.
  split.
  - intros H. split; [apply H; left; reflexivity|].
    intros x Hx. apply H. right. exact Hx.
  - intros [Hc Hs] x Hx. cbn in Hx. destruct Hx as [<-|Hx]; [exact Hc|apply Hs, Hx].
Qed.

Lemma no_space_snoc (s : string) (c : ascii) :
  Spec.no_space s -> JS.is_space c = false -> Spec.no_space (s +:+ String c "").
Proof.
  induction s as [|x s IH]; intros Hs Hc.
  - rewrite append_nil_l. apply no_space_cons. split; [exact Hc|apply no_space_nil].
  - apply no_space_cons in Hs. destruct Hs as [Hx Hs].
    rewrite append_cons. apply no_space_cons. split; [exact Hx|apply IH; assumption].
Qed.

Lemma not_starts_with_space_nil : ~ Spec.starts_with_space "".
Proof. intros [c [r [H _]]]. discriminate H. Qed.

(** [split(/\s+/)] gives the white-space-delimited tokens. *)
Lemma split_ws_from_tokens (s : string) :
  (forall cur, Spec.no_space cur ->
               Spec.ws_tokens (cur +:+ s) (JS.split_ws_from s false cur))
  /\ (exists w rest,
        s = w +:+ rest /\ Spec.all_chars JS.is_space w
        /\ ~ Spec.starts_with_space rest
        /\ Spec.ws_tokens rest (JS.split_ws_from s true "")).
Proof.
  induction s as [|c s [IH1 IH2]].
  - split.
    + intros cur Hcur. rewrite append_nil_r. apply Spec.ws_last, Hcur.
    + exists "", "". split; [reflexivity|]. split; [apply all_chars_nil|].
      split; [apply not_starts_with_space_nil|]. apply Spec.ws_last, no_space_nil.
  - cbn [JS.split_ws_from]. destruct (JS.is_space c) eqn:Hc.
    + destruct IH2 as [w [rest [-> [Hw [Hrest Htoks]]]]]. split.
      * intros cur Hcur.
        change (String c (w +:+ rest)) with (String c w +:+ rest).
        apply Spec.ws_more; [exact Hcur|discriminate| |exact Hrest|exact Htoks].
        apply all_chars_cons. split; [exact Hc|exact Hw].
      * exists (String c w), rest. split; [reflexivity|].
        split; [apply all_chars_cons; split; [exact Hc|exact Hw]|].
        split; [exact Hrest|exact Htoks].
    + split.
      * intros cur Hcur.
        replace (cur +:+ String c s) with ((cur +:+ String c "") +:+ s)
          by (rewrite append_assoc; reflexivity).
        apply IH1, no_space_snoc; assumption.
      * exists "", (String c s). split; [reflexivity|]. split; [apply all_chars_nil|].
        split.
        { intros [x [r [[= <- <-] Hx]]]. congruence. }
        apply (IH1 (String c "")). apply no_space_cons. split; [exact Hc|apply no_space_nil].
Qed.

Lemma split_ws_tokens (s : string) : Spec.ws_tokens s (JS.split_ws s).
Proof. exact (proj1 (split_ws_from_tokens s) "" no_space_nil). Qed.

Lemma ws_tokens_no_space (s : string) (toks : list string) :
  Spec.ws_tokens s toks -> forall term, In term toks -> Spec.no_space term.
Proof.
  induction 1 as [t Ht|t w rest toks Ht _ _ _ _ IH]; intros term Hin.
  - destruct Hin as [<-|[]]. exact Ht.
  - destruct Hin as [<-|Hin]; [exact Ht|apply IH, Hin].
Qed.

Lemma starts_with_space_app (w rest : string) :
  w <> "" -> Spec.all_chars JS.is_space w -> Spec.starts_with_space (w +:+ rest).
Proof.
  intros Hne Hw. destruct w as [|c w]; [destruct (Hne eq_refl)|].
  apply all_chars_cons in Hw. exists c, (w +:+ rest). split; [reflexivity|tauto].
Qed.

Lemma token_split_unique (t t' u u' : string) :
  Spec.no_space t -> Spec.no_space t' ->
  (u = "" \/ Spec.starts_with_space u) -> (u' = "" \/ Spec.starts_with_space u') ->
  t +:+ u = t' +:+ u' -> t = t' /\ u = u'.
Proof.
  revert t'. induction t as [|c t IH]; intros t' Ht Ht' Hu Hu' H.
  - destruct t' as [|c' t']; [split; [reflexivity|exact H]|].
    exfalso. rewrite append_nil_l, append_cons in H. apply no_space_cons in Ht'.
    destruct Hu as [->|[x [r [-> Hx]]]]; [discriminate H|].
    injection H as -> _. destruct Ht' as [Hc _]. congruence.
  - destruct t' as [|c' t'].
    + exfalso. rewrite append_nil_l, append_cons in H. apply no_space_cons in Ht.
      destruct Hu' as [->|[x [r [-> Hx]]]]; [discriminate H|].
      injection H as -> _. destruct Ht as [Hc _]. congruence.
    + rewrite !append_cons in H. injection H as -> H.
      apply no_space_cons in Ht. apply no_space_cons in Ht'.
      destruct (IH t' (proj2 Ht) (proj2 Ht') Hu Hu' H) as [-> ->].
      split; reflexivity.
Qed.

Lemma space_run_unique (w w' rest rest' : string) :
  Spec.all_chars JS.is_space w -> Spec.all_chars JS.is_space w' ->
  ~ Spec.starts_with_space rest -> ~ Spec.starts_with_space rest' ->
  w +:+ rest = w' +:+ rest' -> w = w' /\ rest = rest'.
Proof.
  revert w'. induction w as [|c w IH]; intros w' Hw Hw' Hr Hr' H.
  - destruct w' as [|c' w']; [split; [reflexivity|exact H]|].
    exfalso. apply Hr. apply all_chars_cons in Hw'.
    exists c', (w' +:+ rest'). split; [exact H|tauto].
  - destruct w' as [|c' w'].
    + exfalso. apply Hr'. apply all_chars_cons in Hw.
      exists c, (w +:+ rest). split; [symmetry; exact H|tauto].
    + rewrite !append_cons in H. injection H as -> H.
      apply all_chars_cons in Hw. apply all_chars_cons in Hw'.
      destruct (IH w' (proj2 Hw) (proj2 Hw') Hr Hr' H) as [-> ->].
      split; reflexivity.
Qed.

(** A text has one list of white-space-delimited tokens. *)
Lemma ws_tokens_unique (s : string) (toks : list string) :
  Spec.ws_tokens s toks ->
  forall s' toks', Spec.ws_tokens s' toks' -> s = s' -> toks = toks'.
Proof.
  induction 1 as [t Ht|t w rest toks Ht Hw Hws Hrest Htoks IH];
    intros s' toks' H' Heq; destruct H' as [t' Ht'|t' w' rest' toks' Ht' Hw' Hws' Hrest' Htoks'].
  - subst. reflexivity.
  - exfalso. rewrite <- (append_nil_r t) in Heq.
    apply token_split_unique in Heq;
      [|exact Ht|exact Ht'|left; reflexivity|right; apply starts_with_space_app; assumption].
    destruct Heq as [_ Heq]. destruct w'; [destruct (Hw' eq_refl)|discriminate Heq].
  - exfalso. rewrite <- (append_nil_r t') in Heq.
    apply token_split_unique in Heq;
      [|exact Ht|exact Ht'|right; apply starts_with_space_app; assumption|left; reflexivity].
    destruct Heq as [_ Heq]. destruct w; [destruct (Hw eq_refl)|discriminate Heq].
  - apply token_split_unique in Heq;
      [|exact Ht|exact Ht'|right; apply starts_with_space_app; assumption
       |right; apply starts_with_space_app; assumption].
    destruct Heq as [-> Heq].
    apply space_run_unique in Heq; [|assumption..].
    destruct Heq as [_ ->]. f_equal. apply (IH _ _ Htoks'). reflexivity.
Qed.

Lemma append_eq_split (a s x t : string) :
  a +:+ s = x +:+ t ->
  (exists m, x = a +:+ m /\ s = m +:+ t) \/ (exists m, a = x +:+ m /\ t = m +:+ s).
Proof.
  revert x. induction a as [|c a IH]; intros x H.
  - left. exists x. split; [reflexivity|exact H].
  - destruct x as [|d x].
    + right. exists (String c a). split; [reflexivity|]. symmetry. exact H.
    + rewrite !append_cons in H. injection H as -> H.
      destruct (IH x H) as [[m [-> Hs]]|[m [-> Ht]]].
      * left. exists m. split; [reflexivity|exact Hs].
      * right. exists m. split; [reflexivity|exact Ht].
Qed.

(** A text without white space that occurs in two texts put together with
    a space between them occurs in one of them. *)
Lemma substring_spaced (term a b : string) :
  Spec.no_space term -> term <> "" ->
  Spec.is_substring term (a +:+ " " +:+ b) ->
  Spec.is_substring term a \/ Spec.is_substring term b.
Proof.
  intros Hns Hne [x [y H]].
  assert (Hspace : forall m n, term = m +:+ String " " n -> False).
  { intros m n ->. clear -Hns. induction m as [|c m IH].
    - rewrite append_nil_l in Hns. apply no_space_cons in Hns.
      destruct Hns as [Hs _]. discriminate Hs.
    - rewrite append_cons in Hns. apply no_space_cons in Hns. tauto. }
  apply append_eq_split in H. destruct H as [[m [-> H]]|[m [-> H]]].
  - destruct m as [|c m].
    + rewrite (append_nil_l (term +:+ y)) in H.
      destruct term as [|c term]; [destruct (Hne eq_refl)|].
      rewrite (append_cons c term y) in H. injection H as <- _.
      apply no_space_cons in Hns. destruct Hns as [Hs _]. discriminate Hs.
    + change (" " +:+ b) with (String " " b) in H.
      rewrite (append_cons c m) in H. injection H as <- ->.
      right. exists m, y. reflexivity.
  - apply append_eq_split in H. destruct H as [[n [-> _]]|[n [-> H]]].
    + left. exists x, n. reflexivity.
    + destruct n as [|c n].
      * left. exists x, "". rewrite !append_nil_r. reflexivity.
      * change (" " +:+ b) with (String " " b) in H.
        rewrite (append_cons c n) in H. injection H as <- _.
        destruct (Hspace m n eq_refl).
Qed.

Lemma substring_join (term : string) (l : list string) :
  Spec.no_space term -> term <> "" ->
  Spec.is_substring term (JS.toLowerCase (JS.join " " l)) ->
  exists e, In e l /\ Spec.is_substring term (JS.toLowerCase e).
Proof.
  intros Hns Hne. induction l as [|x l IH]; intros H.
  - destruct H as [a [b H]]. destruct a; [|discriminate H].
    rewrite append_nil_l in H. destruct term; [destruct (Hne eq_refl)|discriminate H].
  - destruct l as [|y l].
    + exists x. split; [left; reflexivity|exact H].
    + change (JS.join " " (x :: y :: l)) with (x +:+ " " +:+ JS.join " " (y :: l)) in H.
      rewrite !toLowerCase_app in H.
      change (JS.toLowerCase " ") with " " in H.
      apply substring_spaced in H; [|exact Hns|exact Hne].
      destruct H as [H|H].
      * exists x. split; [left; reflexivity|exact H].
      * destruct (IH H) as [e [He Hsub]]. exists e. split; [right; exact He|exact Hsub].
Qed.

Lemma length_nonempty (term : string) : (2 < String.length term)%nat -> term <> "".
Proof. intros H ->. cbn in H. lia. Qed.

(** On tokens without white space, the test of the lookup is the
    occurrence of a token in the label or in an example product. *)
Lemma name_match_spec (tokens : list string) category :
  (forall term, In term tokens -> Spec.no_space term) ->
  Compliance.nameMatches tokens category = true <-> Spec.name_match tokens category.
Proof.
  intros Hns. rewrite nameMatches_spec. unfold Spec.name_match. split.
  - intros [term [Hin [Hlen Hsub]]]. unfold Compliance.allText in Hsub.
    apply substring_spaced in Hsub;
      [|apply Hns, Hin|apply length_nonempty, Hlen].
    destruct Hsub as [Hsub|Hsub].
    + exists term, (Compliance.label category), (JS.toLowerCase (Compliance.label category)).
      split; [exact Hin|]. split; [exact Hlen|]. split; [left; reflexivity|].
      split; [apply lowercase_of_spec; reflexivity|exact Hsub].
    + apply substring_join in Hsub;
        [|apply Hns, Hin|apply length_nonempty, Hlen].
      destruct Hsub as [e [He Hsub]]. exists term, e, (JS.toLowerCase e).
      split; [exact Hin|]. split; [exact Hlen|]. split; [right; exact He|].
      split; [apply lowercase_of_spec; reflexivity|exact Hsub].
  - intros [term [text [lowered [Hin [Hlen [Htext [Hlow Hsub]]]]]]].
    apply lowercase_of_spec in Hlow. subst lowered.
    exists term. split; [exact Hin|]. split; [exact Hlen|].
    apply includes_spec. unfold Compliance.allText. destruct Htext as [->|He].
    + apply includes_app_l, includes_spec, Hsub.
    + apply includes_app_r, includes_app_r.
      apply (join_includes " " _ text term He), includes_spec, Hsub.
Qed.

Lemma find_first_such {A} (f : A -> bool) (P : A -> Prop) (l : list A) :
  (forall x, f x = true <-> P x) -> Spec.first_such P l (List.find f l).
Proof.
  intros HfP.
  assert (Hfalse : forall x, f x = false -> ~ P x).
  { intros x Hx HP. apply HfP in HP. congruence. }
  induction l as [|x l IH]; [intros y []|].
  cbn [List.find]. destruct (f x) eqn:Hx.
  - exists [], l. split; [reflexivity|]. split; [apply HfP, Hx|intros y []].
  - destruct (List.find f l) as [r|].
    + destruct IH as [before [after [-> [Hr Hbefore]]]].
      exists (x :: before), after. split; [reflexivity|]. split; [exact Hr|].
      intros y [<-|Hy]; [apply Hfalse, Hx|apply Hbefore, Hy].
    + intros y [<-|Hy]; [apply Hfalse, Hx|apply IH, Hy].
Qed.

End TokenFacts.

(** C4.  [getComplianceByProductName] puts the query in lower case and
    splits it into its white-space-delimited tokens, which are the only
    ones the query has.  A rule matches
    exactly when a token longer than 2 characters occurs in the rule's
    label or in one of its example products, once these are put in lower
    case.  The result is the first matching rule, in collection order, that
    passes the market filter, and the first matching rule when no market is
    asked for, as in the request handler, which calls the lookup only when
    the lookup by HTS code finds nothing.  A query all of whose tokens have
    at most 2 characters matches no rule. *)
Theorem getComplianceByProductName_tokens (rules : Compliance.ComplianceRulesData)
    (productName : string) (market : option string) :
  let lowered := JS.toLowerCase productName in
  let tokens := JS.split_ws lowered in
  Spec.lowercase_of productName lowered
  /\ Spec.ws_tokens lowered tokens
  /\ (forall lowered' tokens',
        Spec.lowercase_of productName lowered' -> Spec.ws_tokens lowered' tokens' ->
        tokens' = tokens)
  /\ (forall category,
        Compliance.nameMatches tokens category = true <-> Spec.name_match tokens category)
  /\ Spec.first_such
       (fun category =>
          Spec.name_match tokens category /\ Spec.passes_market market category = true)
       (Compliance.categories rules)
       (Compliance.getComplianceByProductName rules productName market)
  /\ Spec.first_such (Spec.name_match tokens) (Compliance.categories rules)
       (Compliance.getComplianceByProductName rules productName None)
  /\ ((forall term, In term tokens -> (String.length term <= 2)%nat) ->
      (forall category, ~ Spec.name_match tokens category)
      /\ Compliance.getComplianceByProductName rules productName market = None)
  /\ (forall vetting analysis,
        Route.findComplianceHints rules analysis
        = match Compliance.getComplianceByHtsCode rules (Schema.hts_code analysis) None with
          | Some rule => Some rule
          | None =>
              Compliance.getComplianceByProductName rules
                (Schema.product_name analysis) None
          end
        /\ Schema.compliance_hints
             (Route.enrich rules vetting analysis).1
           = match Route.findComplianceHints rules analysis with
             | Some rule => Some rule
             | None => Schema.compliance_hints analysis
             end).
Proof.
  intros lowered tokens.
  assert (Htokens : Spec.ws_tokens lowered tokens) by apply split_ws_tokens.
  assert (Hmatch : forall category,
             Compliance.nameMatches tokens category = true
             <-> Spec.name_match tokens category).
  { intros category. apply name_match_spec, (ws_tokens_no_space _ _ Htokens). }
  assert (Hfind : forall m,
             Compliance.getComplianceByProductName rules productName m
             = List.find (fun category =>
                            Compliance.nameMatches tokens category
                            && Spec.passes_market m category)
                         (Compliance.categories rules)).
  { intros m. unfold Compliance.getComplianceByProductName. apply scan_find. }
  split; [apply lowercase_of_spec; reflexivity|].
  split; [exact Htokens|]. split.
  { intros lowered' tokens' Hlow Htoks. apply lowercase_of_spec in Hlow. subst lowered'.
    exact (ws_tokens_unique _ _ Htoks _ _ Htokens eq_refl). }
  split; [exact Hmatch|]. split.
  { rewrite Hfind. apply find_first_such. intros category.
    rewrite andb_true_iff, Hmatch. reflexivity. }
  split.
  { unfold Compliance.getComplianceByProductName. rewrite scan_find_no_market.
    apply find_first_such, Hmatch. }
  split.
  { intros Hshort.
    assert (Hno : forall category, ~ Spec.name_match tokens category).
    { intros category [term [_ [_ [Hin [Hlen _]]]]]. specialize (Hshort term Hin). lia. }
    split; [exact Hno|]. rewrite Hfind. apply find_all_false.
    intros category _. destruct (Compliance.nameMatches tokens category) eqn:Hm;
      [|reflexivity].
    apply Hmatch in Hm. destruct (Hno category Hm). }
  intros vetting analysis. split.
  - reflexivity.
  - unfold Route.enrich. cbn [fst Schema.compliance_hints].
    destruct (Route.findComplianceHints rules analysis); reflexivity.
Qed.

Lemma getComplianceByProductName_tokens_witness :
  let tumbler :=
    {| Compliance.id := "tumbler"; Compliance.label := "Stainless tumbler";
       Compliance.exampleProducts := ["Insulated Mug"]; Compliance.targetMarkets := ["US"];
       Compliance.typicalHtsCodes := ["7323.93.00"];
       Compliance.requiredRegulations := []; Compliance.testingRequirements := [];
       Compliance.highRiskFlags := []; Compliance.referenceLinks := [] |} in
  let teether :=
    {| Compliance.id := "baby_teether"; Compliance.label := "Baby Teether";
       Compliance.exampleProducts := ["Silicone Teether Ring"];
       Compliance.targetMarkets := ["US"];
       Compliance.typicalHtsCodes := ["9503.00.00"];
       Compliance.requiredRegulations := ["CPSIA"]; Compliance.testingRequirements := [];
       Compliance.highRiskFlags := []; Compliance.referenceLinks := [] |} in
  Spec.lowercase_of "BPA-free  SILICONE toy" "bpa-free  silicone toy"
  /\ Spec.ws_tokens "bpa-free  silicone toy" ["bpa-free"; "silicone"; "toy"]
  /\ Spec.first_such (Spec.name_match ["bpa-free"; "silicone"; "toy"])
       [tumbler; teether] (Some teether).
Proof.
  intros tumbler teether.
  pose proof (getComplianceByProductName_tokens
                {| Compliance.categories := [tumbler; teether] |}
                "BPA-free  SILICONE toy" None) as H.
  exact (conj (proj1 H)
              (conj (proj1 (proj2 H))
                    (proj1 (proj2 (proj2 (proj2 (proj2 (proj2 H)))))))).
Defined.

(* ===================================================================== *)
(** * Properties of the testing-cost estimate                             *)
(* ===================================================================== *)

(** Closed facts about binary64 numbers, by evaluation. *)
Ltac float_fact := vm_compute; repeat split; first [discriminate|reflexivity].

Section TestCostFacts.

Import TestCost.

Lemma member_In {A} (obj : list (string * A)) key v :
  member obj key = Some v -> In (key, v) obj.
Proof.
  induction obj as [|[k x] obj IH]; [discriminate|]. cbn [member].
  destruct (String.eqb_spec k key) as [->|_].
  - intros [= ->]. left. reflexivity.
  - intros H. right. apply IH, H.
Qed.

Lemma In_member {A} (obj : list (string * A)) key v :
  List.NoDup (map fst obj) -> In (key, v) obj -> member obj key = Some v.
Proof.
  induction obj as [|[k x] obj IH]; [intros _ []|].
  cbn [map fst member]. intros Hnd [Heq|Hin].
  - injection Heq as -> ->. rewrite String.eqb_refl. reflexivity.
  - apply NoDup_cons_iff in Hnd. destruct Hnd as [Hk Hnd].
    destruct (String.eqb_spec k key) as [->|_].
    + exfalso. apply Hk. apply (in_map fst) in Hin. exact Hin.
    + apply IH; assumption.
Qed.

Lemma regulationToTestMap_keys : List.NoDup (map fst regulationToTestMap).
Proof. apply NoDup_ListNoDup, (bool_decide_eq_true_1 _). vm_compute. reflexivity. Qed.

Lemma testingCostTable_keys : List.NoDup (map fst testingCostTable).
Proof. apply NoDup_ListNoDup, (bool_decide_eq_true_1 _). vm_compute. reflexivity. Qed.

(** The cost records carry distinct test names. *)
Lemma testingCostTable_tests : List.NoDup (map (fun entry => test (snd entry)) testingCostTable).
Proof. apply NoDup_ListNoDup, (bool_decide_eq_true_1 _). vm_compute. reflexivity. Qed.

(** The keys are written in lower case. *)
Lemma regulationToTestMap_lower key tests :
  In (key, tests) regulationToTestMap -> JS.toLowerCase key = key.
Proof.
  intros H. cbn in H.
  repeat (destruct H as [H|H]; [injection H as <- _; reflexivity|]). destruct H.
Qed.

Lemma set_add_In (s : list string) x y : In y (set_add s x) <-> In y s \/ y = x.
Proof.
  unfold set_add. destruct (existsb (String.eqb x) s) eqn:Hx.
  - split; [tauto|]. intros [H| ->]; [exact H|].
    apply existsb_exists in Hx. destruct Hx as [z [Hz Hxz]].
    apply String.eqb_eq in Hxz. subst. exact Hz.
  - rewrite in_app_iff. cbn. intuition congruence.
Qed.

Lemma set_add_NoDup (s : list string) x : List.NoDup s -> List.NoDup (set_add s x).
Proof.
  intros Hs. unfold set_add. destruct (existsb (String.eqb x) s) eqn:Hx; [exact Hs|].
  apply List.NoDup_app; [exact Hs|repeat constructor; intros []|].
  intros a Ha [Hxa|[]]. subst a.
  assert (existsb (String.eqb x) s = true); [|congruence].
  apply existsb_exists. exists x. split; [exact Ha|apply String.eqb_refl].
Qed.

(** Folding a step that only adds elements. *)
Lemma fold_left_In {X} (f : list string -> X -> list string) (P : X -> string -> Prop) :
  (forall s x y, In y (f s x) <-> In y s \/ P x y) ->
  forall xs s y, In y (fold_left f xs s) <-> In y s \/ exists x, In x xs /\ P x y.
Proof.
  intros Hf xs. induction xs as [|x xs IH]; intros s y; cbn [fold_left].
  - split; [tauto|]. intros [H|[x [[] _]]]. exact H.
  - rewrite IH, Hf. split.
    + intros [[H|H]|[z [Hz H]]]; [left; exact H|right; exists x|right; exists z];
        split; try assumption; [left; reflexivity|right; assumption].
    + intros [H|[z [[<-|Hz] H]]]; [left; left; exact H|left; right; exact H|].
      right. exists z. split; assumption.
Qed.

Lemma fold_left_NoDup {X} (f : list string -> X -> list string) :
  (forall s x, List.NoDup s -> List.NoDup (f s x)) ->
  forall xs s, List.NoDup s -> List.NoDup (fold_left f xs s).
Proof.
  intros Hf xs. induction xs as [|x xs IH]; intros s Hs; [exact Hs|].
  cbn [fold_left]. apply IH, Hf, Hs.
Qed.

Lemma add_key_In lowerCaseReg (s : list string) key y :
  In y (add_key lowerCaseReg s key) <->
  In y s \/ (JS.includes lowerCaseReg key = true
             /\ exists tests, In (key, tests) regulationToTestMap /\ In y tests).
Proof.
  unfold add_key. destruct (JS.includes lowerCaseReg key); [|intuition discriminate].
  destruct (member regulationToTestMap key) as [tests|] eqn:Hm.
  - rewrite (fold_left_In set_add (fun x y => y = x) set_add_In). split.
    + intros [H|[x [Hx ->]]]; [left; exact H|]. right. split; [reflexivity|].
      exists tests. split; [apply member_In, Hm|exact Hx].
    + intros [H|[_ [tests' [Hin Hy]]]]; [left; exact H|]. right. exists y.
      apply (In_member _ _ _ regulationToTestMap_keys) in Hin.
      rewrite Hm in Hin. injection Hin as ->. split; [exact Hy|reflexivity].
  - split; [tauto|]. intros [H|[_ [tests [Hin _]]]]; [exact H|].
    apply (In_member _ _ _ regulationToTestMap_keys) in Hin. congruence.
Qed.

Lemma add_key_NoDup lowerCaseReg (s : list string) key :
  List.NoDup s -> List.NoDup (add_key lowerCaseReg s key).
Proof.
  intros Hs. unfold add_key. destruct (JS.includes lowerCaseReg key); [|exact Hs].
  destruct (member regulationToTestMap key); [|exact Hs].
  apply fold_left_NoDup; [apply set_add_NoDup|exact Hs].
Qed.

(** The names collected for a list of regulations. *)
Lemma requiredTestsOf_In (regulations : list string) testName :
  In testName (requiredTestsOf regulations) <->
  exists reg key tests,
    In reg regulations /\ In (key, tests) regulationToTestMap
    /\ Spec.mentions reg key /\ In testName tests.
Proof.
  unfold requiredTestsOf.
  rewrite (fold_left_In (add_regulation (map fst regulationToTestMap))
             (fun reg y => exists key tests,
                  In (key, tests) regulationToTestMap
                  /\ Spec.mentions reg key /\ In y tests)).
  - split.
    + intros [[]|[reg [Hreg [key [tests H]]]]]. exists reg, key, tests. tauto.
    + intros [reg [key [tests [Hreg H]]]]. right. exists reg. split; [exact Hreg|].
      exists key, tests. exact H.
  - intros s reg y. unfold add_regulation.
    rewrite (fold_left_In (add_key (JS.toLowerCase reg))
               (fun key y => JS.includes (JS.toLowerCase reg) key = true
                             /\ exists tests, In (key, tests) regulationToTestMap
                                              /\ In y tests)
               (add_key_In (JS.toLowerCase reg))).
    split.
    + intros [H|[key [_ [Hinc [tests [Hin Hy]]]]]]; [left; exact H|]. right.
      exists key, tests. split; [exact Hin|]. split; [|exact Hy].
      apply mentions_spec, Hinc.
    + intros [H|[key [tests [Hin [Hm Hy]]]]]; [left; exact H|]. right.
      exists key. split; [apply (in_map fst) in Hin; exact Hin|]. split.
      * apply mentions_spec, Hm.
      * exists tests. split; assumption.
Qed.

Lemma requiredTestsOf_NoDup (regulations : list string) :
  List.NoDup (requiredTestsOf regulations).
Proof.
  unfold requiredTestsOf. apply fold_left_NoDup; [|constructor].
  intros s reg Hs. unfold add_regulation.
  apply fold_left_NoDup; [apply add_key_NoDup|exact Hs].
Qed.

Lemma costs_of_In (names : list string) c :
  In c (costs_of names) <->
  exists testName, In testName names /\ In (testName, c) testingCostTable.
Proof.
  induction names as [|n names IH]; cbn [costs_of].
  - split; [intros []|intros [x [[] _]]].
  - destruct (member testingCostTable n) as [c'|] eqn:Hm; cbn [In]; rewrite ?IH.
    + split.
      * intros [<-|[x [Hx Hc]]]; [exists n|exists x];
          (split; [tauto|]); [apply member_In, Hm|exact Hc].
      * intros [x [[<-|Hx] Hc]].
        -- left. apply (In_member _ _ _ testingCostTable_keys) in Hc. congruence.
        -- right. exists x. split; assumption.
    + split.
      * intros [x [Hx Hc]]. exists x. split; [right; exact Hx|exact Hc].
      * intros [x [[<-|Hx] Hc]].
        -- apply (In_member _ _ _ testingCostTable_keys) in Hc. congruence.
        -- exists x. split; assumption.
Qed.

(** Two entries of the cost table with one test name are one entry. *)
Lemma testingCostTable_injective n1 c1 n2 c2 :
  In (n1, c1) testingCostTable -> In (n2, c2) testingCostTable ->
  test c1 = test c2 -> n1 = n2.
Proof.
  pose proof testingCostTable_tests as Hnd. revert Hnd.
  induction testingCostTable as [|[k v] table IH]; [intros _ []|].
  cbn [map snd]. intros Hnd H1 H2 Heq. apply NoDup_cons_iff in Hnd.
  destruct Hnd as [Hv Hnd].
  assert (Hin : forall n c, In (n, c) table -> test c = test v -> False).
  { intros n c Hc Ht. apply Hv. rewrite <- Ht.
    apply (in_map (fun entry => test (snd entry))) in Hc. exact Hc. }
  destruct H1 as [H1|H1], H2 as [H2|H2].
  - congruence.
  - injection H1 as <- <-. destruct (Hin n2 c2 H2 (eq_sym Heq)).
  - injection H2 as <- <-. destruct (Hin n1 c1 H1 Heq).
  - apply IH; assumption.
Qed.

Lemma costs_of_NoDup (names : list string) :
  List.NoDup names -> List.NoDup (map test (costs_of names)).
Proof.
  induction names as [|n names IH]; [constructor|]. intros Hnd.
  apply NoDup_cons_iff in Hnd. destruct Hnd as [Hn Hnd]. cbn [costs_of].
  destruct (member testingCostTable n) as [c|] eqn:Hm; [|apply IH, Hnd].
  cbn [map]. apply NoDup_cons_iff. split; [|apply IH, Hnd].
  intros Hin. apply in_map_iff in Hin. destruct Hin as [c' [Ht Hc']].
  apply costs_of_In in Hc'. destruct Hc' as [n' [Hn' Hc']].
  apply member_In in Hm.
  rewrite (testingCostTable_injective n c n' c' Hm Hc' (eq_sym Ht)) in Hn.
  exact (Hn Hn').
Qed.

End TestCostFacts.

(** C6.  [estimateTestingCost] reads nothing but the rule's
    [requiredRegulations] and two constant tables, so two rules with the
    same regulations, and two calls on one rule, get the same list.  A cost
    record is in the result exactly when some regulation of the rule
    contains, letter case aside, a key of the regulation table under which
    the record's test is listed.  No record and no test name occurs twice.
    A rule none of whose regulations contains a key gets the empty list. *)
Theorem estimateTestingCost_pure (rule rule' : Compliance.CategoryComplianceRule) :
  (Compliance.requiredRegulations rule = Compliance.requiredRegulations rule' ->
   TestCost.estimateTestingCost rule = TestCost.estimateTestingCost rule')
  /\ (forall c,
        In c (TestCost.estimateTestingCost rule)
        <-> exists reg key tests testName,
              In reg (Compliance.requiredRegulations rule)
              /\ In (key, tests) TestCost.regulationToTestMap
              /\ Spec.mentions reg key
              /\ In testName tests
              /\ In (testName, c) TestCost.testingCostTable)
  /\ List.NoDup (map TestCost.test (TestCost.estimateTestingCost rule))
  /\ List.NoDup (TestCost.estimateTestingCost rule)
  /\ ((forall reg key tests,
         In reg (Compliance.requiredRegulations rule) ->
         In (key, tests) TestCost.regulationToTestMap ->
         ~ Spec.mentions reg key) ->
      TestCost.estimateTestingCost rule = []).
Proof.
  assert (Hchar : forall c,
             In c (TestCost.estimateTestingCost rule)
             <-> exists reg key tests testName,
                   In reg (Compliance.requiredRegulations rule)
                   /\ In (key, tests) TestCost.regulationToTestMap
                   /\ Spec.mentions reg key
                   /\ In testName tests
                   /\ In (testName, c) TestCost.testingCostTable).
  { intros c. unfold TestCost.estimateTestingCost. rewrite costs_of_In. split.
    - intros [testName [Hn Hc]]. apply requiredTestsOf_In in Hn.
      destruct Hn as [reg [key [tests [Hreg [Hkey [Hm Ht]]]]]].
      exists reg, key, tests, testName. tauto.
    - intros [reg [key [tests [testName [Hreg [Hkey [Hm [Ht Hc]]]]]]]].
      exists testName. split; [|exact Hc]. apply requiredTestsOf_In.
      exists reg, key, tests. tauto. }
  assert (Hnd : List.NoDup (map TestCost.test (TestCost.estimateTestingCost rule))).
  { apply costs_of_NoDup, requiredTestsOf_NoDup. }
  split; [intros Heq; unfold TestCost.estimateTestingCost; rewrite Heq; reflexivity|].
  split; [exact Hchar|]. split; [exact Hnd|].
  split; [apply (NoDup_map_inv TestCost.test), Hnd|].
  intros Hnone. destruct (TestCost.estimateTestingCost rule) as [|c l] eqn:He; [reflexivity|].
  assert (Hc : In c (c :: l)) by (left; reflexivity).
  apply Hchar in Hc. destruct Hc as [reg [key [tests [_ [Hreg [Hkey [Hm _]]]]]]].
  destruct (Hnone reg key tests Hreg Hkey Hm).
Qed.

Lemma estimateTestingCost_pure_witness :
  let rule :=
    {| Compliance.id := "teether"; Compliance.label := "Teether";
       Compliance.exampleProducts := []; Compliance.targetMarkets := [];
       Compliance.typicalHtsCodes := [];
       Compliance.requiredRegulations :=
         ["Fda-21-Cfr 177.2600"; "CPSIA Section 101"; "cpsia"];
       Compliance.testingRequirements := []; Compliance.highRiskFlags := [];
       Compliance.referenceLinks := [] |} in
  let fda :=
    {| TestCost.test := "FDA 21 CFR Food-Grade Material Testing";
       TestCost.low := S754_finite false 7036874417766400 (-44);
       TestCost.high := S754_finite false 6157265115545600 (-43) |} in
  Spec.mentions "Fda-21-Cfr 177.2600" "fda-21-cfr"
  /\ Spec.exactly (TestCost.low fda) 400
  /\ Spec.exactly (TestCost.high fda) 700
  /\ In fda (TestCost.estimateTestingCost rule)
  /\ TestCost.estimateTestingCost rule
     = [ fda;
         {| TestCost.test := "CPSIA Lead Content";
            TestCost.low := S754_finite false 5277655813324800 (-45);
            TestCost.high := S754_finite false 8796093022208000 (-45) |};
         {| TestCost.test := "CPSIA Phthalates";
            TestCost.low := S754_finite false 5277655813324800 (-44);
            TestCost.high := S754_finite false 7916483719987200 (-44) |};
         {| TestCost.test := "CPSIA Tracking Label Review";
            TestCost.low := S754_finite false 7036874417766400 (-46);
            TestCost.high := S754_finite false 7036874417766400 (-45) |} ].
Proof.
  intros rule fda.
  assert (Hm : Spec.mentions "Fda-21-Cfr 177.2600" "fda-21-cfr").
  { exists "Fda-21-Cfr". split; [exists "", " 177.2600"; reflexivity|].
    apply lowercase_of_spec. reflexivity. }
  split; [exact Hm|]. split; [float_fact|]. split; [float_fact|].
  split; [|reflexivity].
  apply (proj2 (proj1 (proj2 (estimateTestingCost_pure rule rule)) fda)).
  exists "Fda-21-Cfr 177.2600", "fda-21-cfr", ["FDA 21 CFR Food Grade"],
    "FDA 21 CFR Food Grade".
  split; [left; reflexivity|]. split; [right; right; left; reflexivity|].
  split; [exact Hm|]. split; [left; reflexivity|].
  do 6 right. left. reflexivity.
Defined.

(* ===================================================================== *)
(** * Properties of the initial-order cost                                *)
(* ===================================================================== *)

Lemma keep_app (p : ascii -> bool) (a b : string) :
  JS.keep p (a +:+ b) = JS.keep p a +:+ JS.keep p b.
Proof.
  induction a as [|c a IH]; [reflexivity|].
  rewrite append_cons. cbn [JS.keep]. rewrite IH. destruct (p c); reflexivity.
Qed.

(** C7.  [estimateInitialOrderCost] takes the unit cost from the landed-cost
    string by dropping every character other than digits, dots and minus
    signs, so currency symbols and thousands separators do not count;
    [moq] is the binary64 number 500, [minimumOrderCost] is the binary64
    product of the unit cost and 500, and [totalInitialCost] is the binary64
    sum of that product and of the sum of the [high] bounds of the
    testing-cost items (0 when there are none).  The landed cost ["$2.91"]
    is read as the binary64 number nearest to 2.91, and with a testing total
    of 970 the results are the binary64 numbers 1455 and 2425 exactly.  The
    numbers are written as sign, mantissa and exponent:
    [S754_finite false m e] is [m * 2 ^ e]. *)
Theorem estimateInitialOrderCost_arithmetic (analysis : Schema.ProductAnalysis) :
  let landed := Schema.landed_cost (Schema.landed_cost_breakdown analysis) in
  let r := OrderCost.estimateInitialOrderCost analysis in
  Schema.moq r = S754_finite false 8796093022208000 (-44)
  /\ Spec.exactly (Schema.moq r) 500
  /\ Schema.unitCost r = OrderCost.parseCurrency landed
  /\ Schema.testingCostTotal r
     = match Schema.testing_cost_estimate analysis with
       | Some items => fold_left (fun sum item => SFadd 53 1024 sum (TestCost.high item))
                                 items (S754_zero false)
       | None => S754_zero false
       end
  /\ Schema.minimumOrderCost r
     = SFmul 53 1024 (Schema.unitCost r) (S754_finite false 8796093022208000 (-44))
  /\ Schema.totalInitialCost r
     = SFadd 53 1024 (Schema.minimumOrderCost r) (Schema.testingCostTotal r)
  /\ (forall a b, OrderCost.parseCurrency (a +:+ "$" +:+ b) = OrderCost.parseCurrency (a +:+ b))
  /\ (forall a b, OrderCost.parseCurrency (a +:+ "," +:+ b) = OrderCost.parseCurrency (a +:+ b))
  /\ OrderCost.parseCurrency "$2.91" = S754_finite false 6552737457824072 (-51)
  /\ Spec.nearest (OrderCost.parseCurrency "$2.91") 291 100
  /\ OrderCost.parseCurrency "$1,234.50" = S754_finite false 5429388417957888 (-42)
  /\ Spec.nearest (OrderCost.parseCurrency "$1,234.50") 123450 100
  /\ (landed = "$2.91" ->
      Schema.testingCostTotal r = S754_finite false 8532210231541760 (-43) ->
      Spec.exactly (Schema.testingCostTotal r) 970
      /\ Schema.minimumOrderCost r = S754_finite false 6399157673656320 (-42)
      /\ Spec.exactly (Schema.minimumOrderCost r) 1455
      /\ Schema.totalInitialCost r = S754_finite false 5332631394713600 (-41)
      /\ Spec.exactly (Schema.totalInitialCost r) 2425).
Proof.
  intros landed r.
  assert (Hstrip : forall sym a b,
             JS.keep (fun c => JS.is_digit c || (JS.code c =? 46) || (JS.code c =? 45)) sym = "" ->
             OrderCost.parseCurrency (a +:+ sym +:+ b) = OrderCost.parseCurrency (a +:+ b)).
  { intros sym a b Hsym. unfold OrderCost.parseCurrency.
    rewrite !keep_app, Hsym. reflexivity. }
  split; [reflexivity|]. split; [float_fact|].
  do 4 (split; [reflexivity|]).
  split; [intros a b; apply Hstrip; reflexivity|].
  split; [intros a b; apply Hstrip; reflexivity|].
  split; [vm_compute; reflexivity|]. split; [float_fact|].
  split; [vm_compute; reflexivity|]. split; [float_fact|].
  intros Hlanded Htotal.
  assert (Hmin : Schema.minimumOrderCost r = S754_finite false 6399157673656320 (-42)).
  { change (Schema.minimumOrderCost r)
      with (Num.mul (OrderCost.parseCurrency landed) (Num.of_Z OrderCost.MOQ)).
    rewrite Hlanded. vm_compute. reflexivity. }
  assert (Hsum : Schema.totalInitialCost r = S754_finite false 5332631394713600 (-41)).
  { change (Schema.totalInitialCost r)
      with (Num.add (Schema.minimumOrderCost r) (Schema.testingCostTotal r)).
    rewrite Hmin, Htotal. vm_compute. reflexivity. }
  rewrite Hmin, Hsum, Htotal.
  split; [float_fact|]. split; [reflexivity|]. split; [float_fact|].
  split; [reflexivity|float_fact].
Qed.

Lemma estimateInitialOrderCost_arithmetic_witness :
  let analysis :=
    {| Schema.product_name := "baby teether"; Schema.hts_code := "9503.00.00";
       Schema.landed_cost_breakdown :=
         {| Schema.fob_price := "$1.50"; Schema.freight_cost := "$0.91";
            Schema.duty_rate := "0%"; Schema.duty_cost := "$0.50";
            Schema.landed_cost := "$2.91" |};
       Schema.risk_assessment :=
         {| Schema.overall_score := S754_finite false 4925812092436480 (-46);
            Schema.compliance_risk := Schema.High;
            Schema.supplier_risk := Schema.Low; Schema.logistics_risk := Schema.Low;
            Schema.summary := "" |};
       Schema.recommendation := ""; Schema.estimate_confidence := None;
       Schema.missing_info := None; Schema.assumptions := None;
       Schema.compliance_hints := None; Schema.factory_vetting_hints := None;
       Schema.regulation_reasoning := None;
       Schema.testing_cost_estimate :=
         Some [ {| TestCost.test := "CPSIA Lead Content";
                   TestCost.low := S754_finite false 5277655813324800 (-45);
                   TestCost.high := S754_finite false 8796093022208000 (-45) |};
                {| TestCost.test := "ASTM F963 Mechanical Hazards";
                   TestCost.low := S754_finite false 6333186975989760 (-45);
                   TestCost.high := S754_finite false 5629499534213120 (-44) |};
                {| TestCost.test := "ASTM F963 Heavy Metals";
                   TestCost.low := S754_finite false 8796093022208000 (-45);
                   TestCost.high := S754_finite false 7036874417766400 (-44) |} ];
       Schema.initial_order_cost := None |} in
  let r := OrderCost.estimateInitialOrderCost analysis in
  Schema.unitCost r = S754_finite false 6552737457824072 (-51)
  /\ Schema.moq r = S754_finite false 8796093022208000 (-44)
  /\ Schema.testingCostTotal r = S754_finite false 8532210231541760 (-43)
  /\ Spec.exactly (Schema.testingCostTotal r) 970
  /\ Schema.minimumOrderCost r = S754_finite false 6399157673656320 (-42)
  /\ Spec.exactly (Schema.minimumOrderCost r) 1455
  /\ Schema.totalInitialCost r = S754_finite false 5332631394713600 (-41)
  /\ Spec.exactly (Schema.totalInitialCost r) 2425.
Proof.
  intros analysis r.
  pose proof (estimateInitialOrderCost_arithmetic analysis) as H. cbv zeta in H.
  destruct H as [Hmoq [_ [_ [_ [_ [_ [_ [_ [Hunit [_ [_ [_ H]]]]]]]]]]]].
  split; [exact Hunit|]. split; [exact Hmoq|]. split; [reflexivity|].
  exact (H eq_refl eq_refl).
Defined.

(* ===================================================================== *)
(** * Properties of the knowledge-store merge                             *)
(* ===================================================================== *)

Section MergeFacts.

Import AutoCategory.

Context {A : Type}.
Variable p : A -> bool.

Lemma findIndex_found (l : list A) :
  forall (i : nat) x,
    l !! i = Some x -> p x = true ->
    (forall (j : nat) y, (j < i)%nat -> l !! j = Some y -> p y = false) ->
    findIndex p l = Z.of_nat i.
Proof.
  induction l as [|a l IH]; intros i x Hi Hx Hbefore; [discriminate|].
  cbn [findIndex]. destruct i as [|i].
  - injection Hi as ->. rewrite Hx. reflexivity.
  - rewrite (Hbefore 0%nat a (Nat.lt_0_succ i) eq_refl).
    rewrite (IH i x Hi Hx).
    + destruct (Z.ltb_spec (Z.of_nat i) 0); lia.
    + intros j y Hj Hy. apply (Hbefore (S j) y); [lia|exact Hy].
Qed.

Lemma findIndex_none (l : list A) :
  (forall x, In x l -> p x = false) -> findIndex p l = -1.
Proof.
  induction l as [|a l IH]; intros H; [reflexivity|]. cbn [findIndex].
  rewrite (H a (or_introl eq_refl)), IH; [reflexivity|].
  intros x Hx. apply H. right. exact Hx.
Qed.

(** Either no element is accepted, or the first accepted one is found. *)
Lemma findIndex_cases (l : list A) :
  (findIndex p l = -1 /\ forall x, In x l -> p x = false)
  \/ (exists (i : nat) x,
        findIndex p l = Z.of_nat i /\ l !! i = Some x /\ p x = true
        /\ forall (j : nat) y, (j < i)%nat -> l !! j = Some y -> p y = false).
Proof.
  induction l as [|a l IH].
  - left. split; [reflexivity|intros x []].
  - destruct (p a) eqn:Ha.
    + right. exists 0%nat, a. cbn [findIndex]. rewrite Ha.
      split; [reflexivity|]. split; [reflexivity|]. split; [reflexivity|].
      intros j y Hj. lia.
    + destruct IH as [[Hnone Hall]|[i [x [Hi [Hl [Hx Hbefore]]]]]].
      * left. split; [cbn [findIndex]; rewrite Ha, Hnone; reflexivity|].
        intros x [<-|Hx]; [exact Ha|apply Hall, Hx].
      * right. exists (S i), x. split; [|split; [exact Hl|split; [exact Hx|]]].
        -- cbn [findIndex]. rewrite Ha, Hi.
           destruct (Z.ltb_spec (Z.of_nat i) 0); lia.
        -- intros [|j] y Hj Hy; [injection Hy as <-; exact Ha|].
           apply (Hbefore j y); [lia|exact Hy].
Qed.

End MergeFacts.

Section UpsertFacts.

Import AutoCategory.

Context {A : Type}.
Variable id_of : A -> string.
Variable json : A.

Let same (c : A) : bool := String.eqb (id_of c) (id_of json).

Lemma same_true c : same c = true <-> id_of c = id_of json.
Proof. apply String.eqb_eq. Qed.

Lemma same_false c : same c = false <-> id_of c <> id_of json.
Proof. apply String.eqb_neq. Qed.

Lemma map_insert (f : A -> string) (l : list A) (i : nat) x :
  map f (<[i := x]> l) = <[i := f x]> (map f l).
Proof.
  revert i. induction l as [|a l IH]; intros [|i]; try reflexivity.
  cbn. rewrite IH. reflexivity.
Qed.

Lemma map_lookup (f : A -> string) (l : list A) (i : nat) x :
  l !! i = Some x -> map f l !! i = Some (f x).
Proof.
  revert i. induction l as [|a l IH]; intros [|i] H; try discriminate.
  - injection H as ->. reflexivity.
  - apply (IH i H).
Qed.

(** The array after the merge, by cases on the lookup. *)
Lemma upsert_found (l : list A) (i : nat) x :
  l !! i = Some x -> id_of x = id_of json ->
  (forall (j : nat) y, (j < i)%nat -> l !! j = Some y -> id_of y <> id_of json) ->
  upsert id_of json l = (<[i := json]> l, "updated").
Proof.
  intros Hi Hx Hbefore. unfold upsert. fold same.
  rewrite (findIndex_found same l i x Hi (proj2 (same_true x) Hx)).
  - destruct (Z.leb_spec 0 (Z.of_nat i)); [|lia]. rewrite Nat2Z.id. reflexivity.
  - intros j y Hj Hy. apply same_false, (Hbefore j y Hj Hy).
Qed.

Lemma upsert_new (l : list A) :
  (forall x, In x l -> id_of x <> id_of json) ->
  upsert id_of json l = ((l ++ [json])%list, "created").
Proof.
  intros Hall. unfold upsert. fold same. rewrite findIndex_none; [reflexivity|].
  intros x Hx. apply same_false, Hall, Hx.
Qed.

Lemma upsert_cases (l : list A) :
  (upsert id_of json l = ((l ++ [json])%list, "created")
   /\ forall x, In x l -> id_of x <> id_of json)
  \/ (exists (i : nat) x,
        upsert id_of json l = (<[i := json]> l, "updated")
        /\ l !! i = Some x /\ id_of x = id_of json
        /\ forall (j : nat) y, (j < i)%nat -> l !! j = Some y -> id_of y <> id_of json).
Proof.
  destruct (findIndex_cases same l) as [[_ Hall]|[i [x [_ [Hi [Hx Hbefore]]]]]].
  - left. assert (Hall' : forall x, In x l -> id_of x <> id_of json)
      by (intros x Hx; apply same_false, Hall, Hx).
    split; [apply upsert_new, Hall'|exact Hall'].
  - right. exists i, x. apply same_true in Hx.
    assert (Hb : forall (j : nat) y, (j < i)%nat -> l !! j = Some y ->
                                     id_of y <> id_of json)
      by (intros j y Hj Hy; apply same_false, (Hbefore j y Hj Hy)).
    split; [apply (upsert_found l i x Hi Hx Hb)|]. split; [exact Hi|].
    split; [exact Hx|exact Hb].
Qed.

(** Merging the record again changes nothing and reports an update. *)
Lemma upsert_idempotent (l : list A) :
  upsert id_of json (upsert id_of json l).1 = ((upsert id_of json l).1, "updated").
Proof.
  destruct (upsert_cases l) as [[-> Hall]|[i [x [-> [Hi [Hx Hbefore]]]]]]; cbn [fst].
  - rewrite (upsert_found (l ++ [json]) (length l) json).
    + rewrite insert_app_r_alt by lia. rewrite Nat.sub_diag. reflexivity.
    + rewrite lookup_app_r by lia. rewrite Nat.sub_diag. reflexivity.
    + reflexivity.
    + intros j y Hj Hy. rewrite lookup_app_l in Hy by exact Hj.
      apply Hall. apply list_elem_of_In, list_elem_of_lookup. exists j. exact Hy.
  - pose proof (lookup_lt_Some _ _ _ Hi) as Hlt.
    rewrite (upsert_found (<[i := json]> l) i json).
    + rewrite list_insert_insert_eq. reflexivity.
    + apply list_lookup_insert_eq, Hlt.
    + reflexivity.
    + intros j y Hj Hy. rewrite list_lookup_insert_ne in Hy by lia.
      apply (Hbefore j y Hj Hy).
Qed.

Lemma upsert_merged (l : list A) :
  Spec.merged id_of json l (upsert id_of json l).1 (upsert id_of json l).2.
Proof.
  unfold Spec.merged, Spec.ids. split; [|split; [|split]].
  - intros i x Hi Hx Hbefore. rewrite (upsert_found l i x Hi Hx Hbefore).
    split; reflexivity.
  - intros Hall. rewrite (upsert_new l Hall). split; reflexivity.
  - intros Hin.
    destruct (upsert_cases l) as [[_ Hall]|[i [x [-> [Hi [Hx _]]]]]]; cbn [fst].
    + apply in_map_iff in Hin. destruct Hin as [x [Hx Hin]].
      destruct (Hall x Hin Hx).
    + rewrite map_insert. apply list_insert_id. rewrite <- Hx.
      apply map_lookup, Hi.
  - intros Hnd.
    destruct (upsert_cases l) as [[-> Hall]|[i [x [-> [Hi [Hx _]]]]]]; cbn [fst].
    + rewrite map_app. apply List.NoDup_app; [exact Hnd|repeat constructor; intros []|].
      intros a Ha [Heq|[]]. apply in_map_iff in Ha. destruct Ha as [x [Hx Hin]].
      apply (Hall x Hin). congruence.
    + rewrite map_insert, list_insert_id; [exact Hnd|].
      rewrite <- Hx. apply map_lookup, Hi.
Qed.

End UpsertFacts.

(** C8.  When a merge of a category record succeeds, merging the same
    record again leaves both files as the first merge left them and reports
    "updated" for both.  In each file the first merge replaced the first
    record that had the identifier, at its index, or appended the record
    when no record had the identifier; the identifiers already in the array
    stay where they were and identifiers that were distinct stay distinct,
    so no duplicate is created. *)
Theorem mergeIntoFiles_idempotent complianceJson factoryJson fs fs1 st :
  AutoCategory.mergeIntoFiles complianceJson factoryJson fs = (fs1, Some st) ->
  AutoCategory.mergeIntoFiles complianceJson factoryJson fs1
  = (fs1, Some {| AutoCategory.compliance := "updated";
                  AutoCategory.factory := "updated";
                  AutoCategory.compliancePath := AutoCategory.COMPLIANCE_FILE_PATH;
                  AutoCategory.factoryPath := AutoCategory.FACTORY_FILE_PATH |})
  /\ exists complianceData factoryData complianceCategories factoryCategories,
       AutoCategory.ensureFileExists (AutoCategory.COMPLIANCE_FILE fs)
         (AutoCategory.COMPLIANCE_SAMPLE fs) = Some complianceData
       /\ AutoCategory.ensureFileExists (AutoCategory.FACTORY_FILE fs)
            (AutoCategory.FACTORY_SAMPLE fs) = Some factoryData
       /\ AutoCategory.COMPLIANCE_FILE fs1
          = Some (AutoCategory.with_categories complianceData complianceCategories)
       /\ AutoCategory.FACTORY_FILE fs1
          = Some (AutoCategory.with_categories factoryData factoryCategories)
       /\ Spec.merged Compliance.id complianceJson
            (AutoCategory.categories complianceData) complianceCategories
            (AutoCategory.compliance st)
       /\ Spec.merged FactoryVetting.id factoryJson
            (AutoCategory.categories factoryData) factoryCategories
            (AutoCategory.factory st).
Proof.
  unfold AutoCategory.mergeIntoFiles.
  destruct (AutoCategory.ensureFileExists (AutoCategory.COMPLIANCE_FILE fs) _)
    as [complianceData|] eqn:Hc; [|discriminate].
  cbn [AutoCategory.FACTORY_FILE AutoCategory.FACTORY_SAMPLE].
  destruct (AutoCategory.ensureFileExists (AutoCategory.FACTORY_FILE fs) _)
    as [factoryData|] eqn:Hf; [|discriminate].
  pose proof (upsert_idempotent Compliance.id complianceJson
                (AutoCategory.categories complianceData)) as Hci.
  pose proof (upsert_merged Compliance.id complianceJson
                (AutoCategory.categories complianceData)) as Hcm.
  pose proof (upsert_idempotent FactoryVetting.id factoryJson
                (AutoCategory.categories factoryData)) as Hfi.
  pose proof (upsert_merged FactoryVetting.id factoryJson
                (AutoCategory.categories factoryData)) as Hfm.
  destruct (AutoCategory.upsert Compliance.id complianceJson
              (AutoCategory.categories complianceData)) as [cc cs].
  destruct (AutoCategory.upsert FactoryVetting.id factoryJson
              (AutoCategory.categories factoryData)) as [fc fstat].
  cbn [fst snd] in Hci, Hcm, Hfi, Hfm.
  cbv beta iota zeta. intros [= <- <-]. split.
  - cbn [AutoCategory.COMPLIANCE_FILE AutoCategory.FACTORY_FILE
         AutoCategory.COMPLIANCE_SAMPLE AutoCategory.FACTORY_SAMPLE
         AutoCategory.ensureFileExists AutoCategory.with_categories
         AutoCategory.categories AutoCategory.comment AutoCategory.members].
    rewrite Hci, Hfi. reflexivity.
  - exists complianceData, factoryData, cc, fc.
    cbn [AutoCategory.COMPLIANCE_FILE AutoCategory.FACTORY_FILE
         AutoCategory.compliance AutoCategory.factory].
    repeat (split; [reflexivity || assumption|]). exact Hfm.
Qed.

Lemma mergeIntoFiles_idempotent_witness :
  let teether :=
    {| Compliance.id := "baby_teether"; Compliance.label := "Baby teether";
       Compliance.exampleProducts := []; Compliance.targetMarkets := ["US"];
       Compliance.typicalHtsCodes := ["9503.00.00"];
       Compliance.requiredRegulations := ["CPSIA"]; Compliance.testingRequirements := [];
       Compliance.highRiskFlags := []; Compliance.referenceLinks := [] |} in
  let hints :=
    {| FactoryVetting.id := "baby_teether"; FactoryVetting.label := "Baby teether";
       FactoryVetting.typicalSupplierTypes := ["OEM"];
       FactoryVetting.mustHaveCertificates := []; FactoryVetting.niceToHaveCertificates := [];
       FactoryVetting.sampleQuestionsToFactory := []; FactoryVetting.commonRedFlags := [];
       FactoryVetting.recommendedAlibabaFilters := [] |} in
  let fs :=
    {| AutoCategory.COMPLIANCE_FILE := None;
       AutoCategory.FACTORY_FILE :=
         Some {| AutoCategory.comment := None;
                 AutoCategory.categories :=
                   [ {| FactoryVetting.id := "baby_teether"; FactoryVetting.label := "Old";
                        FactoryVetting.typicalSupplierTypes := [];
                        FactoryVetting.mustHaveCertificates := [];
                        FactoryVetting.niceToHaveCertificates := [];
                        FactoryVetting.sampleQuestionsToFactory := [];
                        FactoryVetting.commonRedFlags := [];
                        FactoryVetting.recommendedAlibabaFilters := [] |} ];
                 AutoCategory.members := [] |};
       AutoCategory.COMPLIANCE_SAMPLE :=
         Some {| AutoCategory.comment := Some "This is a sample file.";
                 AutoCategory.categories := []; AutoCategory.members := [] |};
       AutoCategory.FACTORY_SAMPLE := None |} in
  let fs1 := (AutoCategory.mergeIntoFiles teether hints fs).1 in
  AutoCategory.COMPLIANCE_FILE fs1
  = Some {| AutoCategory.comment := Some "This is a actual file.";
            AutoCategory.categories := [teether]; AutoCategory.members := [] |}
  /\ (AutoCategory.mergeIntoFiles teether hints fs).2
     = Some {| AutoCategory.compliance := "created"; AutoCategory.factory := "updated";
               AutoCategory.compliancePath := AutoCategory.COMPLIANCE_FILE_PATH;
               AutoCategory.factoryPath := AutoCategory.FACTORY_FILE_PATH |}
  /\ (AutoCategory.mergeIntoFiles teether hints fs1).1 = fs1.
Proof.
  intros teether hints fs fs1. split; [reflexivity|]. split; [reflexivity|].
  exact (f_equal fst
           (proj1 (mergeIntoFiles_idempotent teether hints fs fs1 _ eq_refl))).
Defined.

(* ===================================================================== *)
(** * Further properties of the usage limiter                             *)
(* ===================================================================== *)

Section LimitMoreFacts.

Import Limit Spec.

Variable now : Date.

(** What a sequence of calls leaves for a later [getUsage]. *)
Lemma getUsage_after_run flag (calls : list (string * bool)) :
  limits_disabled flag = false ->
  forall (usage : store) identifier a,
    getUsage now identifier a (run flag now calls usage).2 =
      {| count := count (getUsage now identifier a usage) + calls_of identifier calls;
         limit := getLimit a |}.
Proof.
  intros Hflag. induction calls as [|[i b] calls IH]; intros usage identifier a.
  - cbn [run snd]. unfold calls_of. cbn. rewrite Z.add_0_r.
    rewrite <- (getUsage_limit now identifier a usage).
    destruct (getUsage now identifier a usage); reflexivity.
  - cbn [run].
    destruct (incrementUsage flag now i b usage) as [r usage'] eqn:Hinc.
    destruct (run flag now calls usage') as [rs usage''] eqn:Hrun.
    cbn [snd]. specialize (IH usage' identifier a). rewrite Hrun in IH. cbn [snd] in IH.
    rewrite IH, (calls_of_cons now). cbn [fst].
    assert (Hu : usage' = (incrementUsage flag now i b usage).2) by (rewrite Hinc; reflexivity).
    assert (Hc : count (getUsage now identifier a usage')
                 = count (getUsage now identifier a usage)
                   + (if String.eqb i identifier then 1 else 0)).
    { destruct (String.eqb_spec i identifier) as [->|Hne].
      - rewrite Hu, (getUsage_after_increment _ _ _ _ a _ Hflag).
        rewrite !getUsage_count. reflexivity.
      - rewrite Hu, (getUsage_other_increment _ _ _ _ _ _ _ Hne). lia. }
    rewrite Hc. f_equal. lia.
Qed.

(** The identifiers with an entry, after one call. *)
Lemma incrementUsage_dom flag identifier isAuthenticated (usage : store) :
  dom (incrementUsage flag now identifier isAuthenticated usage).2
  = if limits_disabled flag then dom usage else {[identifier]} ∪ dom usage.
Proof.
  destruct (limits_disabled flag) eqn:Hflag.
  - unfold incrementUsage. rewrite Hflag. reflexivity.
  - rewrite (incrementUsage_enabled _ _ _ _ _ Hflag). cbn. apply dom_insert_L.
Qed.

Lemma incrementUsage_other_day flag identifier isAuthenticated (usage : store) n :
  getCurrentDateAsNumber now <> n ->
  no_entry_of_day n usage ->
  no_entry_of_day n (incrementUsage flag now identifier isAuthenticated usage).2.
Proof.
  intros Hn Hno. destruct (limits_disabled flag) eqn:Hflag.
  - unfold incrementUsage. rewrite Hflag. exact Hno.
  - rewrite (incrementUsage_enabled _ _ _ _ _ Hflag). cbn. intros i e.
    destruct (decide (identifier = i)) as [->|Hne].
    + rewrite lookup_insert_eq. intros [= <-]. exact Hn.
    + rewrite lookup_insert_ne by exact Hne. apply Hno.
Qed.

Lemma run_other_day flag (calls : list (string * bool)) n :
  getCurrentDateAsNumber now <> n ->
  forall usage : store,
    no_entry_of_day n usage -> no_entry_of_day n (run flag now calls usage).2.
Proof.
  intros Hn. induction calls as [|[i b] calls IH]; intros usage Hno; [exact Hno|].
  cbn [run].
  pose proof (incrementUsage_other_day flag i b usage n Hn Hno) as H1.
  destruct (incrementUsage flag now i b usage) as [r usage'].
  specialize (IH usage' H1).
  destruct (run flag now calls usage') as [rs usage'']. exact IH.
Qed.

End LimitMoreFacts.

(* ===================================================================== *)
(** * The day number                                                      *)
(* ===================================================================== *)

Section DateFacts.

(** Reading one decimal digit. *)
Lemma read_digits_cons (c : ascii) (s : string) (acc : Z) (n : nat) :
  JS.is_digit c = true ->
  Num.read_digits (String c s) acc n
  = Num.read_digits s (acc * 10 + (JS.code c - 48)) (S n).
Proof. intros Hc. cbn [Num.read_digits]. rewrite Hc. reflexivity. Qed.

Ltac read_digit :=
  rewrite read_digits_cons by reflexivity;
  match goal with
  | |- context [JS.code ?c - 48] =>
      let v := eval vm_compute in (JS.code c - 48) in
      change (JS.code c - 48) with v
  end.

(** Reading the decimal writing of a number, after a non-zero prefix and
    after nothing but zeros. *)
Lemma read_uint_pos (d : Decimal.uint) :
  forall (rest : string) (p : positive) (n : nat),
    Num.read_digits (NilEmpty.string_of_uint d +:+ rest) (Z.pos p) n
    = Num.read_digits rest (Z.pos (Pos.of_uint_acc d p)) (n + Decimal.nb_digits d)%nat.
Proof.
  induction d as [|d IH|d IH|d IH|d IH|d IH|d IH|d IH|d IH|d IH|d IH];
    intros rest p n; cbn [NilEmpty.string_of_uint Pos.of_uint_acc Decimal.nb_digits];
    [rewrite append_nil_l, Nat.add_0_r; reflexivity|..];
    rewrite append_cons; read_digit; rewrite <- Nat.add_succ_comm;
    rewrite <- IH; f_equal; lia.
Qed.

Lemma read_uint_zero (d : Decimal.uint) :
  forall (rest : string) (n : nat),
    Num.read_digits (NilEmpty.string_of_uint d +:+ rest) 0 n
    = Num.read_digits rest (Z.of_N (N.of_uint d)) (n + Decimal.nb_digits d)%nat.
Proof.
  unfold N.of_uint.
  induction d as [|d IH|d IH|d IH|d IH|d IH|d IH|d IH|d IH|d IH|d IH];
    intros rest n; cbn [NilEmpty.string_of_uint Pos.of_uint Decimal.nb_digits];
    [rewrite append_nil_l, Nat.add_0_r; reflexivity
    |rewrite append_cons; read_digit; rewrite <- Nat.add_succ_comm; apply IH
    |..];
    rewrite append_cons; read_digit; rewrite <- Nat.add_succ_comm;
    cbn [Z.mul Z.add Z.of_N]; apply read_uint_pos.
Qed.

(** Reading [String(z)] for [z] from 0 on: the value is [z], and at least
    one digit was read. *)
Lemma read_toString (z : Z) (rest : string) :
  0 <= z ->
  exists k : nat,
    Num.read_digits (LimitText.toString z +:+ rest) 0 0
    = Num.read_digits rest z (S k).
Proof.
  intros Hz. unfold LimitText.toString.
  destruct (Z.ltb_spec z 0) as [Hneg|_]; [lia|].
  pose proof (DecimalN.Unsigned.of_to (Z.to_N z)) as Hval.
  destruct (N.to_uint (Z.to_N z)) as [|d|d|d|d|d|d|d|d|d|d] eqn:Hd.
  - exists 0%nat. cbn [NilZero.string_of_uint]. rewrite append_cons, append_nil_l.
    read_digit. cbn in Hval. f_equal. lia.
  - exists (Decimal.nb_digits d).
    change (NilZero.string_of_uint (D0 d)) with (NilEmpty.string_of_uint (D0 d)).
    rewrite read_uint_zero, Hval. cbn [Decimal.nb_digits Nat.add]. f_equal. lia.
  - exists (Decimal.nb_digits d).
    change (NilZero.string_of_uint (D1 d)) with (NilEmpty.string_of_uint (D1 d)).
    rewrite read_uint_zero, Hval. cbn [Decimal.nb_digits Nat.add]. f_equal. lia.
  - exists (Decimal.nb_digits d).
    change (NilZero.string_of_uint (D2 d)) with (NilEmpty.string_of_uint (D2 d)).
    rewrite read_uint_zero, Hval. cbn [Decimal.nb_digits Nat.add]. f_equal. lia.
  - exists (Decimal.nb_digits d).
    change (NilZero.string_of_uint (D3 d)) with (NilEmpty.string_of_uint (D3 d)).
    rewrite read_uint_zero, Hval. cbn [Decimal.nb_digits Nat.add]. f_equal. lia.
  - exists (Decimal.nb_digits d).
    change (NilZero.string_of_uint (D4 d)) with (NilEmpty.string_of_uint (D4 d)).
    rewrite read_uint_zero, Hval. cbn [Decimal.nb_digits Nat.add]. f_equal. lia.
  - exists (Decimal.nb_digits d).
    change (NilZero.string_of_uint (D5 d)) with (NilEmpty.string_of_uint (D5 d)).
    rewrite read_uint_zero, Hval. cbn [Decimal.nb_digits Nat.add]. f_equal. lia.
  - exists (Decimal.nb_digits d).
    change (NilZero.string_of_uint (D6 d)) with (NilEmpty.string_of_uint (D6 d)).
    rewrite read_uint_zero, Hval. cbn [Decimal.nb_digits Nat.add]. f_equal. lia.
  - exists (Decimal.nb_digits d).
    change (NilZero.string_of_uint (D7 d)) with (NilEmpty.string_of_uint (D7 d)).
    rewrite read_uint_zero, Hval. cbn [Decimal.nb_digits Nat.add]. f_equal. lia.
  - exists (Decimal.nb_digits d).
    change (NilZero.string_of_uint (D8 d)) with (NilEmpty.string_of_uint (D8 d)).
    rewrite read_uint_zero, Hval. cbn [Decimal.nb_digits Nat.add]. f_equal. lia.
  - exists (Decimal.nb_digits d).
    change (NilZero.string_of_uint (D9 d)) with (NilEmpty.string_of_uint (D9 d)).
    rewrite read_uint_zero, Hval. cbn [Decimal.nb_digits Nat.add]. f_equal. lia.
Qed.

Lemma toString_first (z : Z) :
  0 <= z ->
  exists c s, LimitText.toString z = String c s /\ JS.is_digit c = true.
Proof.
  intros Hz. unfold LimitText.toString.
  destruct (Z.ltb_spec z 0) as [Hneg|_]; [lia|].
  destruct (N.to_uint (Z.to_N z)); cbn [NilZero.string_of_uint NilEmpty.string_of_uint];
    eexists; eexists; (split; [reflexivity|reflexivity]).
Qed.

(** On a text that starts with a digit [parseInt] reads the digits. *)
Lemma parseInt_digit (c : ascii) (s : string) :
  JS.is_digit c = true ->
  LimitText.parseInt (String c s)
  = let '(v, n, _) := Num.read_digits (String c s) 0 0 in
    if Nat.eqb n 0 then None else Some v.
Proof.
  intros Hc.
  destruct c as [[] [] [] [] [] [] [] []]; try discriminate Hc; reflexivity.
Qed.

(** Reading a number below 100 padded to two digits. *)
Lemma read_padStart2 (m : Z) (rest : string) (acc : Z) (n : nat) :
  0 <= m < 100 ->
  Num.read_digits (LimitText.padStart2 (LimitText.toString m) +:+ rest) acc n
  = Num.read_digits rest (acc * 100 + m) (S (S n)).
Proof.
  intros Hm. assert (Hk : exists k : nat, m = Z.of_nat k /\ (k < 100)%nat)
    by (exists (Z.to_nat m); lia).
  destruct Hk as [k [-> Hk]].
  do 100 (destruct k as [|k];
          [match goal with
           | |- context [LimitText.padStart2 ?t] =>
               let v := eval vm_compute in (LimitText.padStart2 t) in
               change (LimitText.padStart2 t) with v
           end;
           rewrite !append_cons, append_nil_l; read_digit; read_digit; f_equal; lia|]).
  lia.
Qed.

End DateFacts.

(** X1.  The day number the limiter keys its entries with, built as the
    source builds it (the year, then the month and the day padded to two
    digits, glued together and parsed), is the number
    [year * 10000 + month * 100 + day] for every calendar date from the
    year 0 on, with the month counted from 1; the parse never fails. *)
Theorem getCurrentDateAsNumber_text (now : Limit.Date) :
  Spec.calendar now ->
  LimitText.getCurrentDateAsNumber now = Some (Limit.getCurrentDateAsNumber now)
  /\ Limit.getCurrentDateAsNumber now
     = Limit.getFullYear now * 10000 + (Limit.getMonth now + 1) * 100 + Limit.getDate now.
Proof.
  intros [Hy [Hm Hd]]. split; [|reflexivity].
  unfold LimitText.getCurrentDateAsNumber, Limit.getCurrentDateAsNumber.
  destruct (toString_first (Limit.getFullYear now) Hy) as [c [s [Hs Hc]]].
  destruct (read_toString (Limit.getFullYear now)
              (LimitText.padStart2 (LimitText.toString (Limit.getMonth now + 1))
               +:+ LimitText.padStart2 (LimitText.toString (Limit.getDate now))) Hy)
    as [k Hread].
  rewrite Hs in Hread |- *. rewrite append_cons in Hread |- *.
  rewrite (parseInt_digit c _ Hc), Hread.
  rewrite read_padStart2 by lia.
  rewrite <- (append_nil_r (LimitText.padStart2 (LimitText.toString (Limit.getDate now)))).
  rewrite read_padStart2 by lia.
  cbn [Num.read_digits Nat.eqb]. f_equal. lia.
Qed.

Lemma getCurrentDateAsNumber_text_witness :
  LimitText.getCurrentDateAsNumber
    {| Limit.getFullYear := 2023; Limit.getMonth := 11; Limit.getDate := 25 |}
  = Some 20231225.
Proof.
  refine (eq_trans
            (proj1 (getCurrentDateAsNumber_text
                      {| Limit.getFullYear := 2023; Limit.getMonth := 11;
                         Limit.getDate := 25 |} _)) eq_refl).
  unfold Spec.calendar. cbn. lia.
Defined.

(** X2.  On calendar dates the day number tells days apart and keeps
    their order: two dates have the same number only when they are the same
    day, and an earlier day has the smaller number.  A count is therefore
    never carried from one day to another. *)
Theorem getCurrentDateAsNumber_order (d1 d2 : Limit.Date) :
  Spec.calendar d1 -> Spec.calendar d2 ->
  (Limit.getCurrentDateAsNumber d1 = Limit.getCurrentDateAsNumber d2 <-> d1 = d2)
  /\ (Limit.getCurrentDateAsNumber d1 < Limit.getCurrentDateAsNumber d2
      <-> Spec.earlier d1 d2).
Proof.
  unfold Spec.calendar, Spec.earlier, Limit.getCurrentDateAsNumber.
  destruct d1 as [y1 m1 a1], d2 as [y2 m2 a2]. cbn [Limit.getFullYear Limit.getMonth Limit.getDate].
  intros H1 H2. split; split.
  - intros H. assert (y1 = y2 /\ m1 = m2 /\ a1 = a2) as [-> [-> ->]] by lia. reflexivity.
  - intros [= -> -> ->]. reflexivity.
  - lia.
  - lia.
Qed.

Lemma getCurrentDateAsNumber_order_witness :
  Limit.getCurrentDateAsNumber
    {| Limit.getFullYear := 2024; Limit.getMonth := 11; Limit.getDate := 31 |}
  < Limit.getCurrentDateAsNumber
      {| Limit.getFullYear := 2025; Limit.getMonth := 0; Limit.getDate := 1 |}.
Proof.
  refine (proj2 (proj2 (getCurrentDateAsNumber_order
                   {| Limit.getFullYear := 2024; Limit.getMonth := 11; Limit.getDate := 31 |}
                   {| Limit.getFullYear := 2025; Limit.getMonth := 0; Limit.getDate := 1 |}
                   _ _)) _);
    unfold Spec.calendar, Spec.earlier; cbn; lia.
Defined.

(** X3.  With the limits on, after any sequence of [incrementUsage] calls
    of one day, [getUsage] reports for every identifier the count it
    reported before plus the number of calls made for that identifier: the
    peek agrees with the calls made, whoever else called in between. *)
Theorem getUsage_counts_calls flag now (calls : list (string * bool))
    (usage : Limit.store) (identifier : string) (isAuthenticated : bool) :
  Limit.limits_disabled flag = false ->
  Limit.getUsage now identifier isAuthenticated (Spec.run flag now calls usage).2
  = {| Limit.count :=
         Limit.count (Limit.getUsage now identifier isAuthenticated usage)
         + Spec.calls_of identifier calls;
       Limit.limit := Limit.getLimit isAuthenticated |}.
Proof. intros Hflag. apply getUsage_after_run, Hflag. Qed.

Lemma getUsage_counts_calls_witness :
  Limit.getUsage {| Limit.getFullYear := 2025; Limit.getMonth := 0; Limit.getDate := 15 |}
    "ann@example.com" true
    (Spec.run None {| Limit.getFullYear := 2025; Limit.getMonth := 0; Limit.getDate := 15 |}
       [("ann@example.com", true); ("10.0.0.1-curl", false); ("ann@example.com", true)]
       ∅).2
  = {| Limit.count := 2; Limit.limit := 5 |}.
Proof.
  exact (getUsage_counts_calls None
           {| Limit.getFullYear := 2025; Limit.getMonth := 0; Limit.getDate := 15 |}
           [("ann@example.com", true); ("10.0.0.1-curl", false); ("ann@example.com", true)]
           ∅ "ann@example.com" true eq_refl).
Defined.

(** X4.  A call to [incrementUsage] touches the entry of its own
    identifier and nothing else: every other identifier keeps its entry, no
    entry is ever removed, and with the limits on the identifiers that have
    an entry afterwards are those that had one plus the caller. *)
Theorem incrementUsage_touches_one_entry flag now (identifier : string)
    (isAuthenticated : bool) (usage : Limit.store) :
  let after := (Limit.incrementUsage flag now identifier isAuthenticated usage).2 in
  (forall other, other <> identifier -> after !! other = usage !! other)
  /\ dom usage ⊆ dom after
  /\ (Limit.limits_disabled flag = false ->
      dom after = {[identifier]} ∪ dom usage)
  /\ (forall other a, other <> identifier ->
        Limit.getUsage now other a after = Limit.getUsage now other a usage).
Proof.
  intros after. subst after. split; [|split; [|split]].
  - intros other Hne. apply incrementUsage_frame, Hne.
  - rewrite incrementUsage_dom. destruct (Limit.limits_disabled flag); set_solver.
  - intros Hflag. rewrite incrementUsage_dom, Hflag. reflexivity.
  - intros other a Hne. apply getUsage_other_increment. congruence.
Qed.

(** X5.  The count starts again on another day.  If no entry of the store
    carries the number of the day [later], then after any calls made on a
    day with a different number, [getUsage] on [later] reports 0 for every
    identifier and the first [incrementUsage] on [later] returns 1, however
    many calls the identifier made before. *)
Theorem incrementUsage_new_day flag now later (calls : list (string * bool))
    (usage : Limit.store) (identifier : string) (isAuthenticated : bool) :
  Limit.limits_disabled flag = false ->
  Limit.getCurrentDateAsNumber now <> Limit.getCurrentDateAsNumber later ->
  Spec.no_entry_of_day (Limit.getCurrentDateAsNumber later) usage ->
  let usage' := (Spec.run flag now calls usage).2 in
  Limit.getUsage later identifier isAuthenticated usage'
  = {| Limit.count := 0; Limit.limit := Limit.getLimit isAuthenticated |}
  /\ (Limit.incrementUsage flag later identifier isAuthenticated usage').1
     = {| Limit.count := 1; Limit.limit := Limit.getLimit isAuthenticated |}.
Proof.
  intros Hflag Hne Hno usage'.
  pose proof (run_other_day now flag calls _ Hne usage Hno) as Hno'.
  fold usage' in Hno'.
  assert (Hpeek : Limit.getUsage later identifier isAuthenticated usage'
                  = {| Limit.count := 0; Limit.limit := Limit.getLimit isAuthenticated |}).
  { unfold Limit.getUsage. destruct (usage' !! identifier) as [entry|] eqn:He; [|reflexivity].
    destruct (Z.eqb_spec (UsageEntry.date entry) (Limit.getCurrentDateAsNumber later))
      as [Heq|_]; [destruct (Hno' identifier entry He Heq)|reflexivity]. }
  split; [exact Hpeek|].
  rewrite (incrementUsage_enabled later flag identifier isAuthenticated usage' Hflag).
  rewrite Hpeek. reflexivity.
Qed.

Lemma incrementUsage_new_day_witness :
  let monday := {| Limit.getFullYear := 2025; Limit.getMonth := 0; Limit.getDate := 13 |} in
  let tuesday := {| Limit.getFullYear := 2025; Limit.getMonth := 0; Limit.getDate := 14 |} in
  (Limit.incrementUsage None tuesday "10.0.0.1-curl" false
     (Spec.run None monday (replicate 4 ("10.0.0.1-curl", false)) ∅).2).1
  = {| Limit.count := 1; Limit.limit := 1 |}.
Proof.
  intros monday tuesday.
  refine (proj2 (incrementUsage_new_day None monday tuesday
                   (replicate 4 ("10.0.0.1-curl", false)) ∅ "10.0.0.1-curl" false
                   eq_refl _ _)).
  - discriminate.
  - intros i e He. rewrite lookup_empty in He. discriminate He.
Defined.

(* ===================================================================== *)
(** * Further properties of the request handler                           *)
(* ===================================================================== *)

Section RouteFacts.

Variable Event : Type.
Variable analyzeProduct : string -> option string -> string + Schema.ProductAnalysis.
Variable rules : Compliance.ComplianceRulesData.
Variable vetting : FactoryVetting.FactoryVettingData.
Variable buildCategoryUsageEvent :
  string -> Schema.ProductAnalysis -> option string -> Event.
Variable env : Route.Env.

Let post := Route.POST Event analyzeProduct rules vetting buildCategoryUsageEvent env.
Let flag := Route.NEXSUPPLY_DISABLE_USAGE_LIMITS env.
Let now := Route.now env.

(** The usage store after a request, whatever the answer. *)
Lemma POST_usage req (w : Route.World Event) :
  Route.usage (post req w).2
  = (Limit.incrementUsage flag now (Route.identifier_of req) (Spec.authenticated req)
       (Route.usage w)).2.
Proof.
  unfold post, Route.POST, Spec.authenticated. fold flag now.
  destruct (Limit.incrementUsage flag now _ _ (Route.usage w)) as [u usage'].
  destruct (Limit.limit u <? Limit.count u); [reflexivity|].
  destruct (Route.read_body _ _) as [message|[input image]]; [reflexivity|].
  destruct (negb (JS.truthy input)); [reflexivity|].
  destruct (analyzeProduct _ image); [reflexivity|].
  destruct (Route.enrich _ _ _). reflexivity.
Qed.

(** When the answer is 429. *)
Lemma POST_gate req (w : Route.World Event) :
  Route.status (post req w).1 = 429
  <-> Limit.limits_disabled flag = false
      /\ Limit.getLimit (Spec.authenticated req)
         <= Limit.count (Limit.getUsage now (Route.identifier_of req)
                           (Spec.authenticated req) (Route.usage w)).
Proof.
  unfold post, Route.POST, Spec.authenticated. fold flag now.
  set (auth := match Route.session req with Some _ => true | None => false end).
  destruct (Limit.limits_disabled flag) eqn:Hflag.
  - unfold Limit.incrementUsage. rewrite Hflag. cbn [Limit.limit Limit.count].
    assert (Hl : (Limit.getLimit auth <? 0) = false) by (destruct auth; reflexivity).
    rewrite Hl. split; [|intros [H _]; discriminate H].
    destruct (Route.read_body _ _) as [message|[input image]]; [discriminate|].
    destruct (negb (JS.truthy input)); [discriminate|].
    destruct (analyzeProduct _ image); [discriminate|].
    destruct (Route.enrich _ _ _). discriminate.
  - rewrite (incrementUsage_enabled now flag _ auth _ Hflag). cbn [Limit.limit Limit.count].
    destruct (Z.ltb_spec (Limit.getLimit auth)
                (Limit.count (Limit.getUsage now (Route.identifier_of req) auth
                                (Route.usage w)) + 1)) as [Hover|Hunder].
    + split; [intros _; split; [reflexivity|lia]|reflexivity].
    + split; [|intros [_ H]; lia].
      destruct (Route.read_body _ _) as [message|[input image]]; [discriminate|].
      destruct (negb (JS.truthy input)); [discriminate|].
      destruct (analyzeProduct _ image); [discriminate|].
      destruct (Route.enrich _ _ _). discriminate.
Qed.

(** The log after a request. *)
Lemma POST_log req (w : Route.World Event) :
  (Route.status (post req w).1 = 200 /\ Route.log_writable env = true
   /\ exists e, Route.usage_log (post req w).2 = (Route.usage_log w ++ [e])%list)
  \/ ((Route.status (post req w).1 <> 200 \/ Route.log_writable env = false)
      /\ Route.usage_log (post req w).2 = Route.usage_log w).
Proof.
  unfold post, Route.POST.
  destruct (Limit.incrementUsage _ _ _ _ (Route.usage w)) as [u usage'].
  destruct (Limit.limit u <? Limit.count u);
    [right; split; [left; discriminate|reflexivity]|].
  destruct (Route.read_body _ _) as [message|[input image]];
    [right; split; [left; discriminate|reflexivity]|].
  destruct (negb (JS.truthy input));
    [right; split; [left; discriminate|reflexivity]|].
  destruct (analyzeProduct _ image);
    [right; split; [left; discriminate|reflexivity]|].
  destruct (Route.enrich _ _ _) as [analysisWithHints categoryId].
  cbn [fst snd Route.status Route.usage_log].
  destruct (Route.log_writable env).
  - left. split; [reflexivity|]. split; [reflexivity|]. eexists. reflexivity.
  - right. split; [right; reflexivity|reflexivity].
Qed.

(** Requests of one caller, one after the other: the answer to the
    request at position [k], from the count the caller had before. *)
Lemma serve_gate identifier isAuthenticated (reqs : list Route.Request) :
  Limit.limits_disabled flag = false ->
  (forall req, In req reqs ->
     Route.identifier_of req = identifier /\ Spec.authenticated req = isAuthenticated) ->
  forall (w : Route.World Event) (k : nat) response,
    (Spec.serve post reqs w).1 !! k = Some response ->
    (Route.status response = 429
     <-> Limit.getLimit isAuthenticated
         <= Limit.count (Limit.getUsage now identifier isAuthenticated (Route.usage w))
            + Z.of_nat k).
Proof.
  intros Hflag. induction reqs as [|req reqs IH]; intros Hsame w k response Hk;
    [discriminate|].
  cbn [Spec.serve] in Hk.
  destruct (Hsame req (or_introl eq_refl)) as [Hid Hauth].
  pose proof (POST_gate req w) as Hgate. pose proof (POST_usage req w) as Husage.
  rewrite Hid, Hauth in Hgate, Husage.
  destruct (post req w) as [r w'] eqn:Hpost.
  destruct (Spec.serve post reqs w') as [rs w''] eqn:Hserve.
  cbn [fst snd] in Hk, Hgate, Husage. destruct k as [|k].
  - injection Hk as <-. rewrite Hgate, Z.add_0_r. tauto.
  - assert (Hrs : (Spec.serve post reqs w').1 !! k = Some response)
      by (rewrite Hserve; exact Hk).
    rewrite (IH (fun r0 H0 => Hsame r0 (or_intror H0)) w' k response Hrs).
    rewrite Husage, !getUsage_count, <- (getUsage_count now identifier isAuthenticated).
    rewrite (getUsage_after_increment now flag identifier isAuthenticated
               isAuthenticated (Route.usage w) Hflag).
    rewrite !getUsage_count. lia.
Qed.

End RouteFacts.

(** X6.  The handler answers 429 exactly when the limits are on and the
    caller's count of the day, as [getUsage] reports it before the request,
    has already reached the caller's limit; the answer then names
    [user_daily_limit] for a signed-in caller and [anonymous_daily_limit]
    otherwise.  With the bypass flag set no request is answered 429. *)
Theorem POST_quota_gate (Event : Type) analyzeProduct rules vetting
    buildCategoryUsageEvent env req (w : Route.World Event) :
  let response :=
    (Route.POST Event analyzeProduct rules vetting buildCategoryUsageEvent env req w).1 in
  let used :=
    Limit.count (Limit.getUsage (Route.now env) (Route.identifier_of req)
                   (Spec.authenticated req) (Route.usage w)) in
  (Route.status response = 429
   <-> Limit.limits_disabled (Route.NEXSUPPLY_DISABLE_USAGE_LIMITS env) = false
       /\ Limit.getLimit (Spec.authenticated req) <= used)
  /\ (Route.status response = 429 ->
      response
      = if Spec.authenticated req
        then Route.QuotaExceeded "user_daily_limit"
               "You have reached today's free analysis limit for your account."
        else Route.QuotaExceeded "anonymous_daily_limit"
               "You have exceeded the number of free analyses for today.")
  /\ (Limit.limits_disabled (Route.NEXSUPPLY_DISABLE_USAGE_LIMITS env) = true ->
      Route.status response <> 429).
Proof.
  intros response used.
  pose proof (POST_gate Event analyzeProduct rules vetting buildCategoryUsageEvent
                env req w) as Hgate.
  split; [exact Hgate|]. split.
  - subst response. unfold Route.POST, Spec.authenticated.
    destruct (Limit.incrementUsage _ _ _ _ (Route.usage w)) as [u usage'].
    destruct (Limit.limit u <? Limit.count u).
    + intros _. destruct (Route.session req); reflexivity.
    + destruct (Route.read_body _ _) as [message|[input image]]; [discriminate|].
      destruct (negb (JS.truthy input)); [discriminate|].
      destruct (analyzeProduct _ image); [discriminate|].
      destruct (Route.enrich _ _ _). discriminate.
  - intros Hflag H. apply Hgate in H. destruct H as [H _]. congruence.
Qed.

(** X7.  Every request whose session has been read is charged, whatever
    the answer (200, 400, 429, or 500 for a body that cannot be read or an
    analysis that fails): the usage store the handler leaves is the one
    [incrementUsage] leaves for the caller.  With the limits on the caller's entry holds one
    more than the count of the day; no other identifier's entry changes;
    with the bypass flag set the store is unchanged. *)
Theorem POST_charges_every_request (Event : Type) analyzeProduct rules vetting
    buildCategoryUsageEvent env req (w : Route.World Event) :
  let after :=
    Route.usage
      (Route.POST Event analyzeProduct rules vetting buildCategoryUsageEvent env req w).2 in
  let identifier := Route.identifier_of req in
  let flag := Route.NEXSUPPLY_DISABLE_USAGE_LIMITS env in
  after = (Limit.incrementUsage flag (Route.now env) identifier
             (Spec.authenticated req) (Route.usage w)).2
  /\ (Limit.limits_disabled flag = false ->
      after !! identifier
      = Some (UsageEntry.mk
                (Limit.count (Limit.getUsage (Route.now env) identifier
                                (Spec.authenticated req) (Route.usage w)) + 1)
                (Limit.getCurrentDateAsNumber (Route.now env))))
  /\ (forall other, other <> identifier -> after !! other = Route.usage w !! other)
  /\ (Limit.limits_disabled flag = true -> after = Route.usage w).
Proof.
  intros after identifier flag. subst after.
  rewrite (POST_usage Event analyzeProduct rules vetting buildCategoryUsageEvent env req w).
  fold identifier flag. split; [reflexivity|]. split; [|split].
  - intros Hflag. rewrite (incrementUsage_enabled _ _ _ _ _ Hflag). cbn.
    apply lookup_insert_eq.
  - intros other Hne. apply incrementUsage_frame, Hne.
  - intros Hflag. unfold Limit.incrementUsage. rewrite Hflag. reflexivity.
Qed.

(** X8.  The usage log only grows, by one event, and only for a request
    answered 200 while the log can be written: after any other request the
    log is what it was. *)
Theorem POST_log_append_only (Event : Type) analyzeProduct rules vetting
    buildCategoryUsageEvent env req (w : Route.World Event) :
  let result :=
    Route.POST Event analyzeProduct rules vetting buildCategoryUsageEvent env req w in
  (Route.status result.1 = 200 /\ Route.log_writable env = true
   /\ exists e, Route.usage_log result.2 = (Route.usage_log w ++ [e])%list)
  \/ ((Route.status result.1 <> 200 \/ Route.log_writable env = false)
      /\ Route.usage_log result.2 = Route.usage_log w).
Proof. apply POST_log. Qed.

(** X9.  Requests of one caller, served one after the other on one day
    with the limits on: the request at position [k] (from 0) is answered
    429 exactly when the count the caller had before the first of them,
    plus [k], has reached the caller's limit.  A caller who has not been
    charged that day thus gets 1 request past the gate when anonymous and 5
    when signed in, and 429 for every request after those, whatever the
    requests hold. *)
Theorem POST_same_caller_sequence (Event : Type) analyzeProduct rules vetting
    buildCategoryUsageEvent env (reqs : list Route.Request) (identifier : string)
    (isAuthenticated : bool) (w : Route.World Event) (k : nat) response :
  Limit.limits_disabled (Route.NEXSUPPLY_DISABLE_USAGE_LIMITS env) = false ->
  (forall req, In req reqs ->
     Route.identifier_of req = identifier /\ Spec.authenticated req = isAuthenticated) ->
  (Spec.serve (Route.POST Event analyzeProduct rules vetting buildCategoryUsageEvent env)
     reqs w).1 !! k = Some response ->
  (Route.status response = 429
   <-> (if isAuthenticated then 5 else 1)
       <= Limit.count (Limit.getUsage (Route.now env) identifier isAuthenticated
                         (Route.usage w))
          + Z.of_nat k).
Proof.
  intros Hflag Hsame Hk.
  rewrite (serve_gate Event analyzeProduct rules vetting buildCategoryUsageEvent env
             identifier isAuthenticated reqs Hflag Hsame w k response Hk).
  destruct isAuthenticated; reflexivity.
Qed.

Lemma POST_same_caller_sequence_witness :
  let env := {| Route.NEXSUPPLY_DISABLE_USAGE_LIMITS := None;
                Route.now := {| Limit.getFullYear := 2025; Limit.getMonth := 0;
                                Limit.getDate := 15 |};
                Route.log_writable := true |} in
  let req := {| Route.session := None;
                Route.x_forwarded_for := Some "10.0.0.1";
                Route.user_agent := Some "curl";
                Route.content_type := Some "application/json";
                Route.json := inr (Route.Json (Some "baby teether") None None);
                Route.formData := inl "not a form" |} in
  let post :=
    Route.POST unit (fun _ _ => inl "model unavailable")
      {| Compliance.categories := [] |} {| FactoryVetting.categories := [] |}
      (fun _ _ _ => tt) env in
  let w := {| Route.usage := ∅; Route.usage_log := [] |} in
  Route.status
    (Route.QuotaExceeded "anonymous_daily_limit"
       "You have exceeded the number of free analyses for today.") = 429
  /\ (Spec.serve post [req; req; req] w).1 !! 2%nat
     = Some (Route.QuotaExceeded "anonymous_daily_limit"
               "You have exceeded the number of free analyses for today.").
Proof.
  intros env req post w. split; [|reflexivity].
  refine (proj2 (POST_same_caller_sequence unit (fun _ _ => inl "model unavailable")
                   {| Compliance.categories := [] |} {| FactoryVetting.categories := [] |}
                   (fun _ _ _ => tt) env [req; req; req] "10.0.0.1-curl" false w 2
                   _ eq_refl _ eq_refl) _).
  - intros r [<-|[<-|[<-|[]]]]; split; reflexivity.
  - vm_compute. discriminate.
Defined.

(** X10.  What the handler attaches to an analysis.  The category it logs
    is the identifier of the compliance rule it found.  When a rule is
    found, its testing-cost estimate and the regulation reasoning are
    attached; an initial-order cost is always attached.  When the analysis
    came without factory hints, factory hints in the answer belong to the
    store, come with a compliance rule of the store, and carry that rule's
    identifier. *)
Theorem enrich_hints_agree (rules : Compliance.ComplianceRulesData)
    (vetting : FactoryVetting.FactoryVettingData) (analysis : Schema.ProductAnalysis) :
  let found := Route.findComplianceHints rules analysis in
  let answer := (Route.enrich rules vetting analysis).1 in
  (Route.enrich rules vetting analysis).2 = option_map Compliance.id found
  /\ (forall rule, found = Some rule ->
        In rule (Compliance.categories rules)
        /\ Schema.compliance_hints answer = Some rule
        /\ Schema.testing_cost_estimate answer = Some (TestCost.estimateTestingCost rule)
        /\ Schema.regulation_reasoning answer
           = Some (Route.generateRegulationReasoning (Schema.product_name analysis)
                     (Schema.hts_code analysis) rule))
  /\ (exists cost, Schema.initial_order_cost answer = Some cost)
  /\ (Schema.factory_vetting_hints analysis = None ->
      forall hints, Schema.factory_vetting_hints answer = Some hints ->
      In hints (FactoryVetting.categories vetting)
      /\ exists rule, found = Some rule
                      /\ FactoryVetting.id hints = Compliance.id rule).
Proof.
  intros found answer. subst answer. unfold Route.enrich. fold found.
  cbn [fst snd Schema.compliance_hints Schema.testing_cost_estimate
       Schema.regulation_reasoning Schema.initial_order_cost
       Schema.factory_vetting_hints].
  split; [reflexivity|]. split; [|split; [eexists; reflexivity|]].
  - intros rule Hrule. rewrite Hrule. cbn [option_map]. split; [|repeat split].
    unfold found, Route.findComplianceHints in Hrule.
    destruct (Compliance.getComplianceByHtsCode rules _ None) as [r|] eqn:Hh.
    + injection Hrule as ->. unfold Compliance.getComplianceByHtsCode in Hh.
      rewrite scan_find in Hh. apply find_some in Hh. apply Hh.
    + unfold Compliance.getComplianceByProductName in Hrule.
      rewrite scan_find in Hrule. apply find_some in Hrule. apply Hrule.
  - intros Hnone hints. rewrite Hnone.
    destruct found as [rule|]; cbn [option_map JS.truthy]; [|discriminate].
    destruct (Compliance.id rule) as [|c i] eqn:Hid; [discriminate|].
    cbn [JS.or_else]. unfold FactoryVetting.getFactoryVettingByCategory.
    destruct (List.find _ _) as [h|] eqn:Hf; [|discriminate].
    intros [= <-]. apply find_some in Hf. destruct Hf as [Hin Heq].
    apply String.eqb_eq in Heq. split; [exact Hin|]. exists rule.
    split; [reflexivity|congruence].
Qed.

(* ===================================================================== *)
(** * Further properties of the category resolver                         *)
(* ===================================================================== *)

Section ResolverMoreFacts.

Import Compliance.

Lemma lower_char_idempotent (c : ascii) : JS.lower_char (JS.lower_char c) = JS.lower_char c.
Proof. destruct c as [[] [] [] [] [] [] [] []]; reflexivity. Qed.

Lemma toLowerCase_idempotent (s : string) :
  JS.toLowerCase (JS.toLowerCase s) = JS.toLowerCase s.
Proof.
  induction s as [|c s IH]; [reflexivity|].
  cbn [JS.toLowerCase]. rewrite lower_char_idempotent, IH. reflexivity.
Qed.

Lemma keep_idempotent (p : ascii -> bool) (s : string) : JS.keep p (JS.keep p s) = JS.keep p s.
Proof.
  induction s as [|c s IH]; [reflexivity|]. cbn [JS.keep].
  destruct (p c) eqn:Hc; [|exact IH]. cbn [JS.keep]. rewrite Hc, IH. reflexivity.
Qed.

Lemma marketMatches_lower (m : string) category :
  marketMatches (JS.toLowerCase m) category = marketMatches m category.
Proof. unfold marketMatches. rewrite toLowerCase_idempotent. reflexivity. Qed.

Lemma truthy_lower (m : string) : JS.truthy (Some (JS.toLowerCase m)) = JS.truthy (Some m).
Proof. destruct m; reflexivity. Qed.

Lemma or_else_lower (m : string) :
  JS.or_else (Some (JS.toLowerCase m)) "" = JS.toLowerCase (JS.or_else (Some m) "").
Proof. destruct m; reflexivity. Qed.

Lemma scan_market_lower matches (m : string) (cats : list CategoryComplianceRule) :
  scan matches (Some (JS.toLowerCase m)) cats = scan matches (Some m) cats.
Proof.
  induction cats as [|category rest IH]; [reflexivity|].
  cbn [scan]. rewrite IH, truthy_lower, or_else_lower, marketMatches_lower. reflexivity.
Qed.

Lemma scan_market_empty matches (cats : list CategoryComplianceRule) :
  scan matches (Some "") cats = scan matches None cats.
Proof.
  induction cats as [|category rest IH]; [reflexivity|].
  cbn [scan JS.truthy andb]. rewrite IH. reflexivity.
Qed.

(** The tokens of [split], put together again, are the text without its
    white space. *)
Lemma split_ws_from_join (s : string) :
  forall in_ws cur,
    (in_ws = true -> cur = "") ->
    JS.join "" (JS.split_ws_from s in_ws cur)
    = cur +:+ JS.keep (fun c => negb (JS.is_space c)) s.
Proof.
  assert (Hjoin : forall x l, JS.join "" (x :: l) = x +:+ JS.join "" l).
  { intros x [|y l]; [cbn [JS.join]; rewrite append_nil_r; reflexivity|reflexivity]. }
  induction s as [|c s IH]; intros in_ws cur Hcur.
  - cbn [JS.split_ws_from JS.keep JS.join]. rewrite append_nil_r. reflexivity.
  - cbn [JS.split_ws_from JS.keep]. destruct (JS.is_space c); cbn [negb].
    + destruct in_ws.
      * rewrite (Hcur eq_refl). apply IH. reflexivity.
      * rewrite Hjoin, IH by reflexivity. reflexivity.
    + rewrite IH by discriminate. rewrite append_assoc. reflexivity.
Qed.

End ResolverMoreFacts.

(** X11.  [getComplianceByCategory] returns the first rule of the store
    with the identifier asked for, and only if it passes the market filter:
    a rule it returns is in the store, has the identifier and passes the
    filter.  When no rule has the identifier the result is none.  When the
    first rule with the identifier fails the market filter the result is
    none as well: unlike the lookups by HTS code and by product name, this
    one does not go on to later rules. *)
Theorem getComplianceByCategory_first_by_id (rules : Compliance.ComplianceRulesData)
    (categoryId : string) (market : option string) :
  let first :=
    List.find (fun cat => String.eqb (Compliance.id cat) categoryId)
              (Compliance.categories rules) in
  let result := Compliance.getComplianceByCategory rules categoryId market in
  result = match first with
           | Some rule => if Spec.passes_market market rule then Some rule else None
           | None => None
           end
  /\ Compliance.getComplianceByCategory rules categoryId None = first
  /\ (forall rule, result = Some rule ->
        In rule (Compliance.categories rules)
        /\ Compliance.id rule = categoryId
        /\ Spec.passes_market market rule = true)
  /\ ((forall rule, In rule (Compliance.categories rules) ->
                    Compliance.id rule <> categoryId) ->
      result = None).
Proof.
  intros first result.
  assert (Hres : result = match first with
                          | Some rule =>
                              if Spec.passes_market market rule then Some rule else None
                          | None => None
                          end).
  { subst result. unfold Compliance.getComplianceByCategory. fold first.
    destruct first as [rule|]; [|reflexivity]. unfold Spec.passes_market.
    destruct market as [[|c m]|]; cbn [JS.truthy andb]; try reflexivity.
    destruct (Compliance.targetMarkets rule) as [|t ts]; [reflexivity|].
    change (0 <? Z.of_nat (length (t :: ts))) with true. cbn [JS.or_else].
    destruct (Compliance.marketMatches (String c m) rule); reflexivity. }
  split; [exact Hres|]. split; [|split].
  - unfold Compliance.getComplianceByCategory. fold first. destruct first; reflexivity.
  - intros rule Hrule. rewrite Hres in Hrule.
    destruct first as [r|] eqn:Hfirst; [|discriminate].
    destruct (Spec.passes_market market r) eqn:Hm; [|discriminate].
    injection Hrule as <-. apply find_some in Hfirst. destruct Hfirst as [Hin Heq].
    apply String.eqb_eq in Heq. repeat split; assumption.
  - intros Hnone. rewrite Hres.
    destruct first as [r|] eqn:Hfirst; [|reflexivity].
    apply find_some in Hfirst. destruct Hfirst as [Hin Heq].
    apply String.eqb_eq in Heq. destruct (Hnone r Hin Heq).
Qed.

(** X12.  The lookups ignore letter case in what they are asked: lower-casing
    the product name, or the market, changes no result, and an empty market
    is no market. *)
Theorem lookups_ignore_case (rules : Compliance.ComplianceRulesData)
    (htsCode productName market : string) :
  Compliance.getComplianceByProductName rules (JS.toLowerCase productName) (Some market)
  = Compliance.getComplianceByProductName rules productName (Some market)
  /\ Compliance.getComplianceByProductName rules productName (Some (JS.toLowerCase market))
     = Compliance.getComplianceByProductName rules productName (Some market)
  /\ Compliance.getComplianceByHtsCode rules htsCode (Some (JS.toLowerCase market))
     = Compliance.getComplianceByHtsCode rules htsCode (Some market)
  /\ Compliance.getComplianceByProductName rules productName (Some "")
     = Compliance.getComplianceByProductName rules productName None
  /\ Compliance.getComplianceByHtsCode rules htsCode (Some "")
     = Compliance.getComplianceByHtsCode rules htsCode None.
Proof.
  unfold Compliance.getComplianceByProductName, Compliance.getComplianceByHtsCode.
  rewrite toLowerCase_idempotent, !scan_market_lower, !scan_market_empty.
  repeat split.
Qed.

(** X13.  The lookup by HTS code depends on the query only through its
    digits and dots: a query and its normalized form give the same result,
    normalizing twice is normalizing once, and a stored code may be written
    with or without other characters.  The match of two codes does not
    depend on which is the query and which is stored. *)
Theorem hts_lookup_normalized (rules : Compliance.ComplianceRulesData)
    (htsCode code : string) (market : option string) :
  Compliance.normalizeHts (Compliance.normalizeHts htsCode) = Compliance.normalizeHts htsCode
  /\ Compliance.getComplianceByHtsCode rules (Compliance.normalizeHts htsCode) market
     = Compliance.getComplianceByHtsCode rules htsCode market
  /\ Compliance.codeMatches (Compliance.normalizeHts htsCode) (Compliance.normalizeHts code)
     = Compliance.codeMatches (Compliance.normalizeHts htsCode) code
  /\ Compliance.codeMatches (Compliance.normalizeHts htsCode) code
     = Compliance.codeMatches (Compliance.normalizeHts code) htsCode.
Proof.
  assert (Hn : forall s, Compliance.normalizeHts (Compliance.normalizeHts s)
                         = Compliance.normalizeHts s)
    by (intros s; apply keep_idempotent).
  split; [apply Hn|]. split; [|split].
  - unfold Compliance.getComplianceByHtsCode. rewrite Hn. reflexivity.
  - unfold Compliance.codeMatches. rewrite Hn. reflexivity.
  - unfold Compliance.codeMatches. apply orb_comm.
Qed.

(** X14.  Splitting at white space loses nothing but the white space: the
    tokens, put together again, are the text with its white-space
    characters removed, and there is always at least one token. *)
Theorem split_ws_keeps_text (s : string) :
  JS.join "" (JS.split_ws s) = JS.keep (fun c => negb (JS.is_space c)) s
  /\ JS.split_ws s <> [].
Proof.
  split.
  - unfold JS.split_ws. rewrite split_ws_from_join by discriminate. reflexivity.
  - unfold JS.split_ws. generalize false, "". induction s as [|c s IH]; intros b cur.
    + discriminate.
    + cbn [JS.split_ws_from]. destruct (JS.is_space c); [destruct b|];
        [apply IH|discriminate|apply IH].
Qed.

Lemma find_exists {A} (f : A -> bool) (l : list A) (x : A) :
  In x l -> f x = true -> exists y, List.find f l = Some y.
Proof.
  intros Hin Hx. destruct (List.find f l) as [y|] eqn:Hf; [exists y; reflexivity|].
  rewrite (find_none _ _ Hf x Hin) in Hx. discriminate Hx.
Qed.

(** X15.  [extractHtsPrefix] gives the first four characters of a code
    when they are digits and nothing otherwise.  The heading it gives is a
    prefix of the code, is its own normalized form, and matches the code in
    the lookup by HTS code, so that looking up the heading of a code some
    category lists always finds a category. *)
Theorem extractHtsPrefix_resolves (rules : Compliance.ComplianceRulesData)
    (code : string) :
  (forall prefix,
      RegulationPatterns.extractHtsPrefix code = Some prefix ->
      String.length prefix = 4%nat
      /\ Spec.all_chars JS.is_digit prefix
      /\ Spec.is_prefix prefix code
      /\ Compliance.normalizeHts prefix = prefix
      /\ Compliance.codeMatches (Compliance.normalizeHts prefix) code = true
      /\ (forall category,
            In category (Compliance.categories rules) ->
            In code (Compliance.typicalHtsCodes category) ->
            exists rule, Compliance.getComplianceByHtsCode rules prefix None = Some rule))
  /\ (RegulationPatterns.extractHtsPrefix code = None ->
      forall prefix, String.length prefix = 4%nat -> Spec.all_chars JS.is_digit prefix ->
                     ~ Spec.is_prefix prefix code).
Proof.
  split.
  - intros prefix Hp. unfold RegulationPatterns.extractHtsPrefix in Hp.
    destruct code as [|a [|b [|c [|d rest]]]]; try discriminate Hp.
    destruct (JS.is_digit a) eqn:Ha; [|discriminate Hp].
    destruct (JS.is_digit b) eqn:Hb; [|discriminate Hp].
    destruct (JS.is_digit c) eqn:Hc; [|discriminate Hp].
    destruct (JS.is_digit d) eqn:Hd; [|discriminate Hp].
    injection Hp as <-.
    assert (Hnorm : Compliance.normalizeHts (String a (String b (String c (String d ""))))
                    = String a (String b (String c (String d "")))).
    { unfold Compliance.normalizeHts. cbn [JS.keep]. rewrite Ha, Hb, Hc, Hd. reflexivity. }
    assert (Hmatch : Compliance.codeMatches
                       (Compliance.normalizeHts
                          (String a (String b (String c (String d "")))))
                       (String a (String b (String c (String d rest)))) = true).
    { rewrite Hnorm. unfold Compliance.codeMatches, Compliance.normalizeHts.
      cbn [JS.keep]. rewrite Ha, Hb, Hc, Hd. cbn [orb JS.startsWith].
      rewrite !Ascii.eqb_refl. cbn [andb]. rewrite startsWith_nil. apply orb_true_r. }
    split; [reflexivity|]. split.
    { intros x Hx. cbn in Hx. destruct Hx as [<-|[<-|[<-|[<-|[]]]]]; assumption. }
    split; [exists rest; reflexivity|]. split; [exact Hnorm|]. split; [exact Hmatch|].
    intros category Hin Hcode. unfold Compliance.getComplianceByHtsCode.
    rewrite scan_find_no_market. apply (find_exists _ _ category Hin).
    unfold Compliance.htsMatches. apply existsb_exists.
    exists (String a (String b (String c (String d rest)))). split; assumption.
  - intros Hnone prefix Hlen Hdigits [t Ht]. subst code.
    destruct prefix as [|a [|b [|c [|d [|e p]]]]]; try discriminate Hlen.
    unfold RegulationPatterns.extractHtsPrefix in Hnone.
    rewrite !append_cons in Hnone.
    rewrite (Hdigits a), (Hdigits b), (Hdigits c), (Hdigits d) in Hnone;
      [discriminate Hnone|cbn; tauto..].
Qed.

Section UpsertLookupFacts.

Import AutoCategory.

Context {A : Type}.
Variable id_of : A -> string.
Variable json : A.

(** The merged array, record by record. *)
Lemma upsert_cons (x : A) (l : list A) :
  (upsert id_of json (x :: l)).1
  = if String.eqb (id_of x) (id_of json) then json :: l
    else x :: (upsert id_of json l).1.
Proof.
  unfold upsert. cbn [findIndex].
  destruct (String.eqb (id_of x) (id_of json)); [reflexivity|].
  destruct (findIndex_cases (fun c => String.eqb (id_of c) (id_of json)) l)
    as [[-> _]|[i [y [-> _]]]].
  - reflexivity.
  - destruct (Z.ltb_spec (Z.of_nat i) 0) as [Hlt|_]; [lia|].
    destruct (Z.leb_spec 0 (Z.of_nat i + 1)) as [_|Hlt]; [|lia].
    destruct (Z.leb_spec 0 (Z.of_nat i)) as [_|Hlt]; [|lia].
    cbn [fst]. replace (Z.to_nat (Z.of_nat i + 1)) with (S i) by lia.
    rewrite Nat2Z.id. reflexivity.
Qed.

(** Looking the merged record up by its identifier finds it. *)
Lemma find_upsert_same (l : list A) :
  List.find (fun c => String.eqb (id_of c) (id_of json)) (upsert id_of json l).1
  = Some json.
Proof.
  induction l as [|x l IH].
  - cbn. rewrite String.eqb_refl. reflexivity.
  - rewrite upsert_cons. destruct (String.eqb (id_of x) (id_of json)) eqn:Hx.
    + cbn [List.find]. rewrite String.eqb_refl. reflexivity.
    + cbn [List.find]. rewrite Hx. exact IH.
Qed.

(** Looking another identifier up finds what it found before. *)
Lemma find_upsert_other (l : list A) (other : string) :
  other <> id_of json ->
  List.find (fun c => String.eqb (id_of c) other) (upsert id_of json l).1
  = List.find (fun c => String.eqb (id_of c) other) l.
Proof.
  intros Hne.
  assert (Hj : String.eqb (id_of json) other = false)
    by (apply String.eqb_neq; congruence).
  induction l as [|x l IH].
  - cbn. rewrite Hj. reflexivity.
  - rewrite upsert_cons. destruct (String.eqb_spec (id_of x) (id_of json)) as [Hx|Hx].
    + cbn [List.find]. rewrite Hj, Hx, Hj. reflexivity.
    + cbn [List.find]. rewrite IH. reflexivity.
Qed.

(** The merged record is in the merged array. *)
Lemma In_upsert (l : list A) : In json (upsert id_of json l).1.
Proof.
  pose proof (find_upsert_same l) as H. apply find_some in H. apply H.
Qed.

End UpsertLookupFacts.

(** What a successful merge leaves in the two files. *)
Lemma mergeIntoFiles_files complianceJson factoryJson fs fs1 st :
  AutoCategory.mergeIntoFiles complianceJson factoryJson fs = (fs1, Some st) ->
  Compliance.categories (KnowledgeStore.loadComplianceRules fs1)
  = (AutoCategory.upsert Compliance.id complianceJson
       (Compliance.categories (KnowledgeStore.loadComplianceRules fs))).1
  /\ FactoryVetting.categories (KnowledgeStore.loadFactoryVettingData fs1)
     = (AutoCategory.upsert FactoryVetting.id factoryJson
          (FactoryVetting.categories (KnowledgeStore.loadFactoryVettingData fs))).1.
Proof.
  unfold AutoCategory.mergeIntoFiles, KnowledgeStore.loadComplianceRules,
    KnowledgeStore.loadFactoryVettingData.
  destruct (AutoCategory.ensureFileExists (AutoCategory.COMPLIANCE_FILE fs) _)
    as [complianceData|] eqn:Hc; [|discriminate].
  cbn [AutoCategory.FACTORY_FILE AutoCategory.FACTORY_SAMPLE].
  destruct (AutoCategory.ensureFileExists (AutoCategory.FACTORY_FILE fs) _)
    as [factoryData|] eqn:Hf; [|discriminate].
  destruct (AutoCategory.upsert Compliance.id complianceJson
              (AutoCategory.categories complianceData)) as [cc cs] eqn:Hcu.
  destruct (AutoCategory.upsert FactoryVetting.id factoryJson
              (AutoCategory.categories factoryData)) as [fc fstat] eqn:Hfu.
  cbv beta iota zeta. intros [= <- _].
  cbn [AutoCategory.COMPLIANCE_FILE AutoCategory.FACTORY_FILE
       AutoCategory.with_categories AutoCategory.categories
       Compliance.categories FactoryVetting.categories].
  assert (Hcd : Compliance.categories
                  match AutoCategory.COMPLIANCE_FILE fs with
                  | Some d => {| Compliance.categories := AutoCategory.categories d |}
                  | None => {| Compliance.categories := [] |}
                  end = AutoCategory.categories complianceData).
  { unfold AutoCategory.ensureFileExists in Hc.
    destruct (AutoCategory.COMPLIANCE_FILE fs) as [d|]; [injection Hc as ->; reflexivity|].
    destruct (AutoCategory.COMPLIANCE_SAMPLE fs); [injection Hc as <-; reflexivity|discriminate]. }
  assert (Hfd : FactoryVetting.categories
                  match AutoCategory.FACTORY_FILE fs with
                  | Some d => {| FactoryVetting.categories := AutoCategory.categories d |}
                  | None => {| FactoryVetting.categories := [] |}
                  end = AutoCategory.categories factoryData).
  { unfold AutoCategory.ensureFileExists in Hf.
    destruct (AutoCategory.FACTORY_FILE fs) as [d|]; [injection Hf as ->; reflexivity|].
    destruct (AutoCategory.FACTORY_SAMPLE fs); [injection Hf as <-; reflexivity|discriminate]. }
  rewrite Hcd, Hfd, Hcu, Hfu. split; reflexivity.
Qed.

Lemma startsWith_refl (s : string) : JS.startsWith s s = true.
Proof. apply startsWith_spec. exists "". symmetry. apply append_nil_r. Qed.

(** X16.  What the online lookups see after a successful merge.  Looking
    the merged compliance record up by its identifier returns that record,
    and so does the lookup of the merged factory record; lookups of any
    other identifier return what they returned before the merge; and every
    HTS code the merged record lists resolves to a category. *)
Theorem merge_then_lookup complianceJson factoryJson fs fs1 st :
  AutoCategory.mergeIntoFiles complianceJson factoryJson fs = (fs1, Some st) ->
  let rules := KnowledgeStore.loadComplianceRules fs in
  let rules1 := KnowledgeStore.loadComplianceRules fs1 in
  let vetting := KnowledgeStore.loadFactoryVettingData fs in
  let vetting1 := KnowledgeStore.loadFactoryVettingData fs1 in
  Compliance.getComplianceByCategory rules1 (Compliance.id complianceJson) None
  = Some complianceJson
  /\ FactoryVetting.getFactoryVettingByCategory vetting1 (FactoryVetting.id factoryJson)
     = Some factoryJson
  /\ (forall other market, other <> Compliance.id complianceJson ->
        Compliance.getComplianceByCategory rules1 other market
        = Compliance.getComplianceByCategory rules other market)
  /\ (forall other, other <> FactoryVetting.id factoryJson ->
        FactoryVetting.getFactoryVettingByCategory vetting1 other
        = FactoryVetting.getFactoryVettingByCategory vetting other)
  /\ (forall code, In code (Compliance.typicalHtsCodes complianceJson) ->
        exists rule, Compliance.getComplianceByHtsCode rules1 code None = Some rule).
Proof.
  intros Hmerge rules rules1 vetting vetting1.
  destruct (mergeIntoFiles_files _ _ _ _ _ Hmerge) as [Hc Hf].
  fold rules rules1 in Hc. fold vetting vetting1 in Hf.
  unfold Compliance.getComplianceByCategory, FactoryVetting.getFactoryVettingByCategory,
    Compliance.getComplianceByHtsCode.
  rewrite Hc, Hf. split; [|split; [|split; [|split]]].
  - rewrite find_upsert_same. reflexivity.
  - apply find_upsert_same.
  - intros other market Hne. rewrite find_upsert_other by exact Hne. reflexivity.
  - intros other Hne. apply find_upsert_other, Hne.
  - intros code Hcode. rewrite scan_find_no_market.
    apply (find_exists _ _ complianceJson (In_upsert Compliance.id complianceJson _)).
    unfold Compliance.htsMatches. apply existsb_exists. exists code.
    split; [exact Hcode|]. unfold Compliance.codeMatches.
    rewrite startsWith_refl. reflexivity.
Qed.

Lemma merge_then_lookup_witness :
  let teether :=
    {| Compliance.id := "baby_teether"; Compliance.label := "Baby teether";
       Compliance.exampleProducts := []; Compliance.targetMarkets := ["US"];
       Compliance.typicalHtsCodes := ["9503.00.00"];
       Compliance.requiredRegulations := ["CPSIA"]; Compliance.testingRequirements := [];
       Compliance.highRiskFlags := []; Compliance.referenceLinks := [] |} in
  let hints :=
    {| FactoryVetting.id := "baby_teether"; FactoryVetting.label := "Baby teether";
       FactoryVetting.typicalSupplierTypes := ["OEM"];
       FactoryVetting.mustHaveCertificates := []; FactoryVetting.niceToHaveCertificates := [];
       FactoryVetting.sampleQuestionsToFactory := []; FactoryVetting.commonRedFlags := [];
       FactoryVetting.recommendedAlibabaFilters := [] |} in
  let empty A : AutoCategory.Document A :=
    {| AutoCategory.comment := None; AutoCategory.categories := [];
       AutoCategory.members := [] |} in
  let fs :=
    {| AutoCategory.COMPLIANCE_FILE := None; AutoCategory.FACTORY_FILE := None;
       AutoCategory.COMPLIANCE_SAMPLE := Some (empty _);
       AutoCategory.FACTORY_SAMPLE := Some (empty _) |} in
  Compliance.getComplianceByCategory
    (KnowledgeStore.loadComplianceRules (AutoCategory.mergeIntoFiles teether hints fs).1)
    "baby_teether" None
  = Some teether.
Proof.
  intros teether hints empty fs.
  exact (proj1 (merge_then_lookup teether hints fs
                  (AutoCategory.mergeIntoFiles teether hints fs).1 _ eq_refl)).
Defined.

Section DiskFacts.

Lemma usable_spec {A} (file sample : option (Disk.Content A)) :
  Spec.usable file sample
  <-> exists data cats,
        Disk.ensureFileExists file sample = Some (Disk.Parsed data)
        /\ Disk.categories data = Some cats.
Proof.
  destruct file as [[|data]|]; cbn [Spec.usable Disk.ensureFileExists].
  - split; [intros []|intros [d [cats [H _]]]; discriminate H].
  - split.
    + intros H. destruct (Disk.categories data) as [cats|] eqn:Hc; [|destruct (H eq_refl)].
      exists data, cats. split; [reflexivity|exact Hc].
    + intros [d [cats [[= <-] Hc]]]. congruence.
  - destruct sample as [[|sampleData]|].
    + split; [intros [d H]; discriminate H|intros [d [cats [H _]]]; discriminate H].
    + split; [|intros _; exists sampleData; reflexivity].
      intros _. eexists. exists []. split; reflexivity.
    + split; [intros [d H]; discriminate H|intros [d [cats [H _]]]; discriminate H].
Qed.

Lemma ensureFileExists_effect {A} (file sample : option (Disk.Content A)) content :
  Disk.ensureFileExists file sample = Some content ->
  Spec.untouched_or_created file (Some content)
  /\ (file <> None -> file = Some content)
  /\ (file = None -> exists data, content = Disk.Parsed data /\ Disk.categories data = Some []).
Proof.
  unfold Spec.untouched_or_created.
  destruct file as [c|]; cbn [Disk.ensureFileExists].
  - intros [= ->]. split; [left; reflexivity|]. split; [reflexivity|discriminate].
  - destruct sample as [[|sampleData]|]; try discriminate. intros [= <-].
    split; [right; split; [reflexivity|eexists; split; reflexivity]|].
    split; [intros H; destruct (H eq_refl)|]. intros _. eexists. split; reflexivity.
Qed.

Lemma ensureFileExists_none {A} (file sample : option (Disk.Content A)) :
  Disk.ensureFileExists file sample = None -> file = None /\ ~ Spec.usable file sample.
Proof.
  intros H. split.
  - destruct file; [discriminate H|reflexivity].
  - intros Hu. apply usable_spec in Hu. destruct Hu as [d [cats [Hd _]]]. congruence.
Qed.

Lemma mergeRecord_spec {A} (id_of : A -> string) (json : A) (content : Disk.Content A) :
  match Disk.mergeRecord id_of json content with
  | Some (written, status) =>
      exists data cats,
        content = Disk.Parsed data /\ Disk.categories data = Some cats
        /\ written
           = Disk.Parsed {| Disk.comment := Disk.comment data;
                            Disk.categories := Some (AutoCategory.upsert id_of json cats).1;
                            Disk.members := Disk.members data |}
        /\ status = (AutoCategory.upsert id_of json cats).2
  | None =>
      forall data cats, content = Disk.Parsed data -> Disk.categories data <> Some cats
  end.
Proof.
  unfold Disk.mergeRecord. destruct content as [|data]; [discriminate|].
  destruct (Disk.categories data) as [cats|] eqn:Hc.
  - destruct (AutoCategory.upsert id_of json cats) as [cats' status] eqn:Hu.
    exists data, cats. rewrite Hu. repeat split. exact Hc.
  - intros d cats [= <-]. congruence.
Qed.

(** On files that are missing or hold a store document, the merge on
    disk is the merge of [AutoCategory]. *)
Lemma mergeIntoFiles_on_documents complianceJson factoryJson (fs : AutoCategory.Files) :
  Disk.mergeIntoFiles complianceJson factoryJson (Disk.of_files fs)
  = (Disk.of_files (AutoCategory.mergeIntoFiles complianceJson factoryJson fs).1,
     (AutoCategory.mergeIntoFiles complianceJson factoryJson fs).2).
Proof.
  unfold Disk.mergeIntoFiles, AutoCategory.mergeIntoFiles, Disk.of_files.
  destruct fs as [[cf|] [ff|] [cs|] [fsam|]];
    cbn [AutoCategory.COMPLIANCE_FILE AutoCategory.FACTORY_FILE
         AutoCategory.COMPLIANCE_SAMPLE AutoCategory.FACTORY_SAMPLE
         Disk.COMPLIANCE_FILE Disk.FACTORY_FILE Disk.COMPLIANCE_SAMPLE Disk.FACTORY_SAMPLE
         option_map Disk.of_document Disk.ensureFileExists AutoCategory.ensureFileExists
         Disk.mergeRecord Disk.categories Disk.comment Disk.members
         AutoCategory.categories AutoCategory.comment AutoCategory.members];
    try reflexivity;
    repeat match goal with
           | |- context [AutoCategory.upsert ?i ?j ?l] =>
               destruct (AutoCategory.upsert i j l)
           end;
    reflexivity.
Qed.

End DiskFacts.

(** X17.  The merge on the files as they are on disk.  It succeeds exactly
    when each of the two store files is usable: it parses and has a
    [categories] array, or it is missing and its sample parses.  The samples
    are never written.  The merge is not atomic: when the compliance file
    is usable and the factory file exists but is not usable, the call throws
    after it has written the compliance file, which then holds the new
    record while the factory file is as it was.  In every other failure no
    record is written: each store file is as it was, or was missing and has
    been created with an empty [categories] array.  On files that are
    missing or hold a store document the merge is the one of
    [AutoCategory].  Reads and writes of the file system itself are taken
    to succeed. *)
Theorem mergeIntoFiles_failure complianceJson factoryJson (fs : Disk.Files) :
  let result := Disk.mergeIntoFiles complianceJson factoryJson fs in
  let compliance_usable :=
    Spec.usable (Disk.COMPLIANCE_FILE fs) (Disk.COMPLIANCE_SAMPLE fs) in
  let factory_usable := Spec.usable (Disk.FACTORY_FILE fs) (Disk.FACTORY_SAMPLE fs) in
  (result.2 <> None <-> compliance_usable /\ factory_usable)
  /\ Disk.COMPLIANCE_SAMPLE result.1 = Disk.COMPLIANCE_SAMPLE fs
  /\ Disk.FACTORY_SAMPLE result.1 = Disk.FACTORY_SAMPLE fs
  /\ (result.2 = None -> compliance_usable -> Disk.FACTORY_FILE fs <> None ->
      Disk.FACTORY_FILE result.1 = Disk.FACTORY_FILE fs
      /\ exists data cats,
           Disk.COMPLIANCE_FILE result.1 = Some (Disk.Parsed data)
           /\ Disk.categories data = Some cats
           /\ In complianceJson cats)
  /\ (result.2 = None -> ~ compliance_usable \/ Disk.FACTORY_FILE fs = None ->
      Spec.untouched_or_created (Disk.COMPLIANCE_FILE fs) (Disk.COMPLIANCE_FILE result.1)
      /\ Spec.untouched_or_created (Disk.FACTORY_FILE fs) (Disk.FACTORY_FILE result.1))
  /\ (forall typed, fs = Disk.of_files typed ->
        result
        = (Disk.of_files (AutoCategory.mergeIntoFiles complianceJson factoryJson typed).1,
           (AutoCategory.mergeIntoFiles complianceJson factoryJson typed).2)).
Proof.
  intros result compliance_usable factory_usable.
  assert (Hlast : forall typed, fs = Disk.of_files typed ->
            result
            = (Disk.of_files
                 (AutoCategory.mergeIntoFiles complianceJson factoryJson typed).1,
               (AutoCategory.mergeIntoFiles complianceJson factoryJson typed).2)).
  { intros typed ->. apply mergeIntoFiles_on_documents. }
  revert Hlast. subst result compliance_usable factory_usable.
  unfold Disk.mergeIntoFiles.
  destruct (Disk.ensureFileExists (Disk.COMPLIANCE_FILE fs) (Disk.COMPLIANCE_SAMPLE fs))
    as [cc|] eqn:Hc.
  2:{ intros Hlast. apply ensureFileExists_none in Hc. destruct Hc as [Hc Hnu].
      cbn [fst snd]. split; [split; [intros H; destruct (H eq_refl)|tauto]|].
      do 2 (split; [reflexivity|]). split; [tauto|].
      split; [|exact Hlast]. intros _ _. split; left; reflexivity. }
  destruct (Disk.ensureFileExists (Disk.FACTORY_FILE fs) (Disk.FACTORY_SAMPLE fs))
    as [fc|] eqn:Hf.
  2:{ intros Hlast. apply ensureFileExists_none in Hf. destruct Hf as [Hf Hnu].
      apply ensureFileExists_effect in Hc. destruct Hc as [Hc _].
      cbn [fst snd Disk.COMPLIANCE_FILE Disk.FACTORY_FILE Disk.COMPLIANCE_SAMPLE
           Disk.FACTORY_SAMPLE].
      split; [split; [intros H; destruct (H eq_refl)|tauto]|].
      do 2 (split; [reflexivity|]). split; [tauto|].
      split; [|exact Hlast]. intros _ _. split; [exact Hc|left; reflexivity]. }
  pose proof (mergeRecord_spec Compliance.id complianceJson cc) as Hmc.
  pose proof (mergeRecord_spec FactoryVetting.id factoryJson fc) as Hmf.
  pose proof (usable_spec (Disk.COMPLIANCE_FILE fs) (Disk.COMPLIANCE_SAMPLE fs)) as Huc.
  pose proof (usable_spec (Disk.FACTORY_FILE fs) (Disk.FACTORY_SAMPLE fs)) as Huf.
  rewrite Hc in Huc. rewrite Hf in Huf.
  pose proof (ensureFileExists_effect _ _ _ Hc) as [Hc1 [Hc2 Hc3]].
  pose proof (ensureFileExists_effect _ _ _ Hf) as [Hf1 [Hf2 Hf3]].
  destruct (Disk.mergeRecord Compliance.id complianceJson cc) as [[cw cst]|].
  2:{ intros Hlast.
      assert (Hnu : ~ Spec.usable (Disk.COMPLIANCE_FILE fs) (Disk.COMPLIANCE_SAMPLE fs)).
      { intros Hu. apply Huc in Hu. destruct Hu as [d [cats [[= ->] Hd]]].
        exact (Hmc d cats eq_refl Hd). }
      cbn [fst snd Disk.COMPLIANCE_FILE Disk.FACTORY_FILE Disk.COMPLIANCE_SAMPLE
           Disk.FACTORY_SAMPLE].
      split; [split; [intros H; destruct (H eq_refl)|tauto]|].
      do 2 (split; [reflexivity|]). split; [tauto|].
      split; [|exact Hlast]. intros _ _. split; assumption. }
  destruct Hmc as [cd [ccats [-> [Hcd [-> _]]]]].
  assert (Hcu : Spec.usable (Disk.COMPLIANCE_FILE fs) (Disk.COMPLIANCE_SAMPLE fs)).
  { apply Huc. exists cd, ccats. split; [reflexivity|exact Hcd]. }
  destruct (Disk.mergeRecord FactoryVetting.id factoryJson fc) as [[fw fst']|].
  - intros Hlast. destruct Hmf as [fd [fcats [-> [Hfd _]]]].
    cbn [fst snd Disk.COMPLIANCE_FILE Disk.FACTORY_FILE Disk.COMPLIANCE_SAMPLE
         Disk.FACTORY_SAMPLE].
    split.
    { split; [intros _|discriminate]. split; [exact Hcu|].
      apply Huf. exists fd, fcats. split; [reflexivity|exact Hfd]. }
    do 2 (split; [reflexivity|]). split; [discriminate|].
    split; [discriminate|exact Hlast].
  - intros Hlast.
    assert (Hnu : ~ Spec.usable (Disk.FACTORY_FILE fs) (Disk.FACTORY_SAMPLE fs)).
    { intros Hu. apply Huf in Hu. destruct Hu as [d [cats [[= ->] Hd]]].
      exact (Hmf d cats eq_refl Hd). }
    assert (Hexists : Disk.FACTORY_FILE fs <> None).
    { intros Hnone. destruct (Hf3 Hnone) as [d [-> Hd]]. exact (Hmf d [] eq_refl Hd). }
    cbn [fst snd Disk.COMPLIANCE_FILE Disk.FACTORY_FILE Disk.COMPLIANCE_SAMPLE
         Disk.FACTORY_SAMPLE].
    split; [split; [intros H; destruct (H eq_refl)|tauto]|].
    do 2 (split; [reflexivity|]). split.
    { intros _ _ _. split; [symmetry; apply Hf2, Hexists|].
      eexists. eexists. split; [reflexivity|]. split; [reflexivity|].
      apply In_upsert. }
    split; [|exact Hlast]. intros _ [H|H]; [destruct (H Hcu)|destruct (Hexists H)].
Qed.

Lemma mergeIntoFiles_failure_witness :
  let teether :=
    {| Compliance.id := "baby_teether"; Compliance.label := "Baby teether";
       Compliance.exampleProducts := []; Compliance.targetMarkets := ["US"];
       Compliance.typicalHtsCodes := ["9503.00.00"];
       Compliance.requiredRegulations := ["CPSIA"]; Compliance.testingRequirements := [];
       Compliance.highRiskFlags := []; Compliance.referenceLinks := [] |} in
  let hints :=
    {| FactoryVetting.id := "baby_teether"; FactoryVetting.label := "Baby teether";
       FactoryVetting.typicalSupplierTypes := ["OEM"];
       FactoryVetting.mustHaveCertificates := []; FactoryVetting.niceToHaveCertificates := [];
       FactoryVetting.sampleQuestionsToFactory := []; FactoryVetting.commonRedFlags := [];
       FactoryVetting.recommendedAlibabaFilters := [] |} in
  let fs :=
    {| Disk.COMPLIANCE_FILE :=
         Some (Disk.Parsed {| Disk.comment := None; Disk.categories := Some [];
                              Disk.members := [] |});
       Disk.FACTORY_FILE := Some Disk.Unparsable;
       Disk.COMPLIANCE_SAMPLE := None; Disk.FACTORY_SAMPLE := None |} in
  let result := Disk.mergeIntoFiles teether hints fs in
  result.2 = None
  /\ Disk.FACTORY_FILE result.1 = Some Disk.Unparsable
  /\ exists data cats,
       Disk.COMPLIANCE_FILE result.1 = Some (Disk.Parsed data)
       /\ Disk.categories data = Some cats
       /\ In teether cats.
Proof.
  intros teether hints fs result. split; [reflexivity|].
  refine (proj1 (proj2 (proj2 (proj2 (mergeIntoFiles_failure teether hints fs))))
            eq_refl _ _).
  - cbn. discriminate.
  - discriminate.
Defined.

(* ===================================================================== *)
(** * Further properties of the cost estimates                            *)
(* ===================================================================== *)

(** X18.  Which tests a rule is estimated for depends on which regulations
    it names, not on their order or on repetitions: two rules naming the
    same regulations get the same cost records, and a rule naming the
    regulations of two others gets the records of both. *)
Theorem estimateTestingCost_union (rule rule1 rule2 : Compliance.CategoryComplianceRule) :
  (forall reg, In reg (Compliance.requiredRegulations rule)
               <-> In reg (Compliance.requiredRegulations rule1)
                   \/ In reg (Compliance.requiredRegulations rule2)) ->
  forall c, In c (TestCost.estimateTestingCost rule)
            <-> In c (TestCost.estimateTestingCost rule1)
                \/ In c (TestCost.estimateTestingCost rule2).
Proof.
  intros Hregs c. unfold TestCost.estimateTestingCost. rewrite !costs_of_In. split.
  - intros [testName [Hn Hc]]. apply requiredTestsOf_In in Hn.
    destruct Hn as [reg [key [tests [Hreg H]]]]. apply Hregs in Hreg.
    destruct Hreg as [Hreg|Hreg]; [left|right]; exists testName;
      (split; [apply requiredTestsOf_In; exists reg, key, tests; tauto|exact Hc]).
  - intros [[testName [Hn Hc]]|[testName [Hn Hc]]]; apply requiredTestsOf_In in Hn;
      destruct Hn as [reg [key [tests [Hreg H]]]]; exists testName;
      (split; [apply requiredTestsOf_In; exists reg, key, tests;
               split; [apply Hregs; tauto|exact H]|exact Hc]).
Qed.

Lemma estimateTestingCost_union_witness :
  let rule regs :=
    {| Compliance.id := "toy"; Compliance.label := "Toy";
       Compliance.exampleProducts := []; Compliance.targetMarkets := [];
       Compliance.typicalHtsCodes := []; Compliance.requiredRegulations := regs;
       Compliance.testingRequirements := []; Compliance.highRiskFlags := [];
       Compliance.referenceLinks := [] |} in
  In (TestCost.cost "FDA 21 CFR Food-Grade Material Testing" 400 700)
     (TestCost.estimateTestingCost (rule ["FDA-21-CFR 177"; "CPSIA"; "FDA-21-CFR 177"])).
Proof.
  intros rule.
  refine (proj2 (estimateTestingCost_union
                   (rule ["FDA-21-CFR 177"; "CPSIA"; "FDA-21-CFR 177"])
                   (rule ["CPSIA"]) (rule ["FDA-21-CFR 177"]) _ _) _).
  - intros reg. cbn. tauto.
  - right. left. reflexivity.
Defined.

Section ParseFacts.

Lemma read_digits_stop (s : string) (acc : Z) (n : nat) :
  Spec.all_chars (fun c => negb (JS.is_digit c)) s ->
  Num.read_digits s acc n = (acc, n, s).
Proof.
  intros Hs. destruct s as [|c s]; [reflexivity|]. cbn [Num.read_digits].
  pose proof (Hs c (or_introl eq_refl)) as Hc. apply negb_true_iff in Hc.
  rewrite Hc. reflexivity.
Qed.

Lemma all_chars_tail (p : ascii -> bool) (c : ascii) (s : string) :
  Spec.all_chars p (String c s) -> Spec.all_chars p s.
Proof. intros H x Hx. apply H. right. exact Hx. Qed.

(** A text without a digit is not a number. *)
Lemma parseFloat_no_digit (s : string) :
  Spec.all_chars (fun c => negb (JS.is_digit c)) s -> Num.parseFloat s = S754_nan.
Proof.
  intros Hs. unfold Num.parseFloat.
  assert (Hrest : forall t, Spec.all_chars (fun c => negb (JS.is_digit c)) t ->
            (let '(ip, ni, s2) := Num.read_digits t 0 0 in
             let '(m, nf) :=
               match s2 with
               | String "."%char r => let '(f, n, _) := Num.read_digits r ip 0 in (f, n)
               | _ => (ip, O)
               end in
             if Nat.eqb (ni + nf) 0 then S754_nan else Num.of_decimal true m nf)
            = S754_nan
            /\ (let '(ip, ni, s2) := Num.read_digits t 0 0 in
                let '(m, nf) :=
                  match s2 with
                  | String "."%char r => let '(f, n, _) := Num.read_digits r ip 0 in (f, n)
                  | _ => (ip, O)
                  end in
                if Nat.eqb (ni + nf) 0 then S754_nan else Num.of_decimal false m nf)
               = S754_nan).
  { intros t Ht. rewrite (read_digits_stop t 0 0 Ht).
    destruct t as [|c r]; [split; reflexivity|].
    pose proof (read_digits_stop r 0 0 (all_chars_tail _ _ _ Ht)) as Hr.
    destruct c as [[] [] [] [] [] [] [] []]; try (split; reflexivity);
      rewrite Hr; split; reflexivity. }
  destruct s as [|c r]; [reflexivity|].
  pose proof (proj1 (Hrest r (all_chars_tail _ _ _ Hs))) as Hneg.
  pose proof (proj2 (Hrest (String c r) Hs)) as Hpos.
  destruct c as [[] [] [] [] [] [] [] []]; first [exact Hneg|exact Hpos].
Qed.

Lemma keep_all_chars (p q : ascii -> bool) (s : string) :
  Spec.all_chars q s -> Spec.all_chars q (JS.keep p s).
Proof.
  induction s as [|c s IH]; intros Hs; [exact Hs|]. cbn [JS.keep].
  destruct (p c).
  - intros x [<-|Hx]; [apply Hs; left; reflexivity|].
    apply (IH (all_chars_tail _ _ _ Hs)), Hx.
  - apply IH, (all_chars_tail _ _ _ Hs).
Qed.

End ParseFacts.

(** X19.  A landed-cost text without any digit (an empty text, "N/A") is
    not an error: the unit cost is [NaN], and so are the minimum order cost
    and the total initial cost, whatever the testing costs are; the testing
    total itself is not affected. *)
Theorem estimateInitialOrderCost_no_digit (analysis : Schema.ProductAnalysis) :
  Spec.all_chars (fun c => negb (JS.is_digit c))
    (Schema.landed_cost (Schema.landed_cost_breakdown analysis)) ->
  let r := OrderCost.estimateInitialOrderCost analysis in
  Schema.unitCost r = S754_nan
  /\ Schema.minimumOrderCost r = S754_nan
  /\ Schema.totalInitialCost r = S754_nan
  /\ Schema.testingCostTotal r
     = match Schema.testing_cost_estimate analysis with
       | Some items => fold_left (fun sum item => Num.add sum (TestCost.high item))
                                 items (Num.of_Z 0)
       | None => Num.of_Z 0
       end.
Proof.
  intros Hs r. subst r. unfold OrderCost.estimateInitialOrderCost.
  cbn [Schema.unitCost Schema.minimumOrderCost Schema.totalInitialCost
       Schema.testingCostTotal].
  assert (Hnan : OrderCost.parseCurrency
                   (Schema.landed_cost (Schema.landed_cost_breakdown analysis))
                 = S754_nan).
  { unfold OrderCost.parseCurrency. apply parseFloat_no_digit, keep_all_chars, Hs. }
  rewrite Hnan. repeat split.
Qed.

Lemma estimateInitialOrderCost_no_digit_witness :
  let analysis :=
    {| Schema.product_name := "baby teether"; Schema.hts_code := "9503.00.00";
       Schema.landed_cost_breakdown :=
         {| Schema.fob_price := "N/A"; Schema.freight_cost := "N/A";
            Schema.duty_rate := "N/A"; Schema.duty_cost := "N/A";
            Schema.landed_cost := "N/A" |};
       Schema.risk_assessment :=
         {| Schema.overall_score := Num.of_Z 70; Schema.compliance_risk := Schema.High;
            Schema.supplier_risk := Schema.Low; Schema.logistics_risk := Schema.Low;
            Schema.summary := "" |};
       Schema.recommendation := ""; Schema.estimate_confidence := None;
       Schema.missing_info := None; Schema.assumptions := None;
       Schema.compliance_hints := None; Schema.factory_vetting_hints := None;
       Schema.regulation_reasoning := None;
       Schema.testing_cost_estimate := Some [TestCost.cost "CPSIA Lead Content" 150 250];
       Schema.initial_order_cost := None |} in
  Schema.totalInitialCost (OrderCost.estimateInitialOrderCost analysis) = S754_nan.
Proof.
  intros analysis.
  refine (proj1 (proj2 (proj2 (estimateInitialOrderCost_no_digit analysis _)))).
  intros c Hc. cbn in Hc. destruct Hc as [<-|[<-|[<-|[]]]]; reflexivity.
Defined.

(* ===================================================================== *)
(** * Category identifiers ([slugify], [buildSeedString], [parseInput])   *)
(* ===================================================================== *)

Section SlugFacts.

Lemma all_chars_impl (p q : ascii -> bool) (s : string) :
  (forall c, p c = true -> q c = true) -> Spec.all_chars p s -> Spec.all_chars q s.
Proof. intros Hpq Hs c Hc. apply Hpq, Hs, Hc. Qed.

Lemma startsWith_cons (a b : ascii) (s p : string) :
  JS.startsWith (String a s) (String b p) = Ascii.eqb a b && JS.startsWith s p.
Proof. reflexivity. Qed.

Lemma includes_cons (c : ascii) (s t : string) :
  JS.includes (String c s) t = JS.startsWith (String c s) t || JS.includes s t.
Proof. reflexivity. Qed.

Lemma strip_trailing_cons (c c' : ascii) (s : string) :
  Slug.strip_trailing (String c (String c' s))
  = String c (Slug.strip_trailing (String c' s)).
Proof. reflexivity. Qed.

Lemma trimEnd_cons (c : ascii) (s : string) :
  Slug.trimEnd (String c s)
  = match Slug.trimEnd s with
    | EmptyString => if JS.is_space c then EmptyString else String c EmptyString
    | t => String c t
    end.
Proof. reflexivity. Qed.

(** ** Characters *)

Lemma slug_char_facts (c : ascii) :
  Spec.slug_char c = true ->
  JS.lower_char c = c /\ JS.is_space c = false /\ (JS.code c =? 40) = false
  /\ (JS.code c =? 41) = false /\ Slug.is_line_terminator c = false
  /\ (Slug.is_word c || (JS.code c =? 45)) = true.
Proof.
  destruct c as [[] [] [] [] [] [] [] []]; vm_compute; intros H;
    first [discriminate H|repeat split].
Qed.

Lemma is_underscore_spec (c : ascii) : Slug.is_underscore c = Ascii.eqb c "_".
Proof. destruct c as [[] [] [] [] [] [] [] []]; reflexivity. Qed.

Lemma is_underscore_eq (c : ascii) : Slug.is_underscore c = true -> c = "_"%char.
Proof. rewrite is_underscore_spec. apply Ascii.eqb_eq. Qed.

Lemma lowered_word_is_slug_char (c : ascii) :
  negb ((65 <=? JS.code c) && (JS.code c <=? 90)) = true ->
  (Slug.is_word c || (JS.code c =? 45)) = true ->
  Spec.slug_char c = true.
Proof.
  destruct c as [[] [] [] [] [] [] [] []]; vm_compute; intros H1 H2;
    first [discriminate H1|discriminate H2|reflexivity].
Qed.

Lemma lower_char_not_upper (c : ascii) :
  negb ((65 <=? JS.code (JS.lower_char c)) && (JS.code (JS.lower_char c) <=? 90)) = true.
Proof. destruct c as [[] [] [] [] [] [] [] []]; reflexivity. Qed.

(** ** What each step keeps *)

Lemma toLowerCase_chars (s : string) :
  Spec.all_chars (fun c => negb ((65 <=? JS.code c) && (JS.code c <=? 90)))
    (JS.toLowerCase s).
Proof.
  induction s as [|c s IH]; [apply all_chars_nil|].
  cbn [JS.toLowerCase]. apply all_chars_cons. split; [apply lower_char_not_upper|exact IH].
Qed.

Lemma remove_parens_from_chars (q : ascii -> bool) (s : string) :
  forall skip, Spec.all_chars q s -> Spec.all_chars q (Slug.remove_parens_from skip s).
Proof.
  induction s as [|c s IH]; intros skip H; [destruct skip; exact H|].
  apply all_chars_cons in H. destruct H as [Hc Hs].
  cbn [Slug.remove_parens_from]. destruct skip as [|k]; [|apply IH, Hs].
  destruct (JS.code c =? 40); [destruct (Slug.close_at s)|];
    first [apply IH, Hs|apply all_chars_cons; split; [exact Hc|apply IH, Hs]].
Qed.

Lemma trimStart_chars (q : ascii -> bool) (s : string) :
  Spec.all_chars q s -> Spec.all_chars q (Slug.trimStart s).
Proof.
  induction s as [|c s IH]; intros H; [exact H|].
  cbn [Slug.trimStart]. destruct (JS.is_space c); [|exact H].
  apply IH. apply all_chars_cons in H. tauto.
Qed.

Lemma trimEnd_chars (q : ascii -> bool) (s : string) :
  Spec.all_chars q s -> Spec.all_chars q (Slug.trimEnd s).
Proof.
  induction s as [|c s IH]; intros H; [exact H|].
  apply all_chars_cons in H. destruct H as [Hc Hs]. specialize (IH Hs).
  rewrite trimEnd_cons. destruct (Slug.trimEnd s) as [|c' t].
  - destruct (JS.is_space c); [apply all_chars_nil|].
    apply all_chars_cons. split; [exact Hc|apply all_chars_nil].
  - apply all_chars_cons. split; [exact Hc|exact IH].
Qed.

Lemma replace_runs_chars (q p : ascii -> bool) (r : ascii) (s : string) :
  q r = true ->
  forall b, Spec.all_chars q s -> Spec.all_chars q (Slug.replace_runs p r b s).
Proof.
  intros Hr. induction s as [|c s IH]; intros b H; [exact H|].
  apply all_chars_cons in H. destruct H as [Hc Hs].
  cbn [Slug.replace_runs]. destruct (p c); [destruct b|];
    first [apply IH, Hs|apply all_chars_cons; split; [assumption|apply IH, Hs]].
Qed.

Lemma keep_satisfies (p : ascii -> bool) (s : string) : Spec.all_chars p (JS.keep p s).
Proof.
  induction s as [|c s IH]; [apply all_chars_nil|].
  cbn [JS.keep]. destruct (p c) eqn:Hc; [|exact IH].
  apply all_chars_cons. split; [exact Hc|exact IH].
Qed.

Lemma strip_leading_chars (q : ascii -> bool) (s : string) :
  Spec.all_chars q s -> Spec.all_chars q (Slug.strip_leading s).
Proof.
  destruct s as [|c s]; intros H; [exact H|].
  cbn [Slug.strip_leading]. destruct (Slug.is_underscore c); [|exact H].
  apply all_chars_cons in H. tauto.
Qed.

Lemma strip_trailing_prefix (s : string) : exists x, s = Slug.strip_trailing s +:+ x.
Proof.
  induction s as [|c s IH]; [exists ""; reflexivity|].
  destruct s as [|c' s].
  - cbn [Slug.strip_trailing]. destruct (Slug.is_underscore c).
    + exists (String c ""). reflexivity.
    + exists "". reflexivity.
  - rewrite strip_trailing_cons. destruct IH as [x Hx]. exists x.
    rewrite append_cons, <- Hx. reflexivity.
Qed.

Lemma all_chars_app_l (q : ascii -> bool) (a b : string) :
  Spec.all_chars q (a +:+ b) -> Spec.all_chars q a.
Proof.
  induction a as [|c a IH]; intros H; [apply all_chars_nil|].
  rewrite append_cons in H. apply all_chars_cons in H. destruct H as [Hc Hs].
  apply all_chars_cons. split; [exact Hc|apply IH, Hs].
Qed.

Lemma strip_trailing_chars (q : ascii -> bool) (s : string) :
  Spec.all_chars q s -> Spec.all_chars q (Slug.strip_trailing s).
Proof.
  intros H. destruct (strip_trailing_prefix s) as [x Hx].
  rewrite Hx in H. apply all_chars_app_l in H. exact H.
Qed.

(** ** Underscores of the result *)

Lemma replace_runs_collapsed (s : string) :
  forall b,
    JS.includes (Slug.replace_runs Slug.is_underscore "_" b s) "__" = false
    /\ (b = true ->
        JS.startsWith (Slug.replace_runs Slug.is_underscore "_" b s) "_" = false).
Proof.
  induction s as [|c s IH]; intros b; [split; reflexivity|].
  cbn [Slug.replace_runs]. destruct (Slug.is_underscore c) eqn:Hc.
  - destruct b; [apply IH|]. destruct (IH true) as [H1 H2].
    split; [|discriminate]. rewrite includes_cons, startsWith_cons, H1, (H2 eq_refl).
    reflexivity.
  - destruct (IH false) as [H1 _]. rewrite is_underscore_spec in Hc.
    split; [|intros _]; rewrite ?includes_cons, startsWith_cons, Hc, ?H1; reflexivity.
Qed.

Lemma strip_leading_ok (s : string) :
  JS.includes s "__" = false ->
  JS.includes (Slug.strip_leading s) "__" = false
  /\ JS.startsWith (Slug.strip_leading s) "_" = false.
Proof.
  destruct s as [|c s]; intros H; [split; reflexivity|].
  rewrite includes_cons in H. apply orb_false_iff in H. destruct H as [H1 H2].
  rewrite startsWith_cons in H1.
  cbn [Slug.strip_leading]. rewrite is_underscore_spec.
  destruct (Ascii.eqb c "_") eqn:Hc.
  - split; [exact H2|exact H1].
  - split; [|rewrite startsWith_cons, Hc; reflexivity].
    rewrite includes_cons, startsWith_cons, Hc, H2. reflexivity.
Qed.

Lemma strip_trailing_includes (s t : string) :
  JS.includes s t = false -> JS.includes (Slug.strip_trailing s) t = false.
Proof.
  intros H. destruct (JS.includes (Slug.strip_trailing s) t) eqn:E; [|reflexivity].
  destruct (strip_trailing_prefix s) as [x Hx].
  apply (includes_app_l _ x) in E. rewrite <- Hx in E. congruence.
Qed.

Lemma strip_trailing_startsWith (s p : string) :
  JS.startsWith s p = false -> JS.startsWith (Slug.strip_trailing s) p = false.
Proof.
  intros H. destruct (JS.startsWith (Slug.strip_trailing s) p) eqn:E; [|reflexivity].
  destruct (strip_trailing_prefix s) as [x Hx].
  apply startsWith_spec in E. destruct E as [t Ht].
  assert (Hs : JS.startsWith s p = true).
  { apply startsWith_spec. exists (t +:+ x). rewrite Hx, Ht. apply append_assoc. }
  congruence.
Qed.

Lemma is_suffix_nil : ~ Spec.is_suffix "_" "".
Proof. intros [t Ht]. destruct t; discriminate Ht. Qed.

Lemma is_suffix_cons (c : ascii) (s : string) :
  Spec.is_suffix "_" (String c s)
  <-> (s = "" /\ c = "_"%char) \/ Spec.is_suffix "_" s.
Proof.
  split.
  - intros [t Ht]. destruct t as [|x t].
    + left. rewrite append_nil_l in Ht. injection Ht as -> ->. split; reflexivity.
    + right. rewrite append_cons in Ht. injection Ht as _ ->. exists t. reflexivity.
  - intros [[-> ->]|[t ->]]; [exists ""; reflexivity|].
    exists (String c t). reflexivity.
Qed.

Lemma strip_trailing_no_suffix (s : string) :
  JS.includes s "__" = false -> ~ Spec.is_suffix "_" (Slug.strip_trailing s).
Proof.
  induction s as [|c s IH]; intros H; [apply is_suffix_nil|].
  destruct s as [|c' s].
  - cbn [Slug.strip_trailing]. destruct (Slug.is_underscore c) eqn:Hc; [apply is_suffix_nil|].
    intros Hsuf. apply is_suffix_cons in Hsuf.
    destruct Hsuf as [[_ ->]|Hsuf]; [discriminate Hc|exact (is_suffix_nil Hsuf)].
  - rewrite strip_trailing_cons. intros Hsuf. apply is_suffix_cons in Hsuf.
    rewrite includes_cons in H. apply orb_false_iff in H. destruct H as [H1 H2].
    destruct Hsuf as [[Hnil ->]|Hsuf]; [|exact (IH H2 Hsuf)].
    destruct s as [|c'' s]; [|rewrite strip_trailing_cons in Hnil; discriminate Hnil].
    cbn [Slug.strip_trailing] in Hnil.
    destruct (Slug.is_underscore c') eqn:Hc'; [|discriminate Hnil].
    apply is_underscore_eq in Hc'. subst c'. discriminate H1.
Qed.

(** The result of [slugify] is a well-formed identifier. *)
Lemma slugify_is_slug (text : string) : Spec.slug (Slug.slugify text).
Proof.
  unfold Slug.slugify, Slug.remove_parens, Slug.trim.
  set (underscored := Slug.replace_runs JS.is_space "_" false _).
  set (cleaned := JS.keep _ underscored).
  set (collapsed := Slug.replace_runs Slug.is_underscore "_" false cleaned).
  destruct (replace_runs_collapsed cleaned false) as [Hsub _]. fold collapsed in Hsub.
  destruct (strip_leading_ok collapsed Hsub) as [Hsub' Hpre].
  repeat split.
  - apply all_chars_impl
      with (p := fun c => negb ((65 <=? JS.code c) && (JS.code c <=? 90))
                          && (Slug.is_word c || (JS.code c =? 45))).
    { intros c Hc. apply andb_true_iff in Hc. destruct Hc as [H1 H2].
      apply lowered_word_is_slug_char; assumption. }
    intros c Hc. apply andb_true_iff. split.
    + revert c Hc. apply strip_trailing_chars, strip_leading_chars.
      apply replace_runs_chars; [reflexivity|]. apply keep_all_chars.
      apply replace_runs_chars; [reflexivity|].
      apply trimEnd_chars, trimStart_chars, remove_parens_from_chars, toLowerCase_chars.
    + revert c Hc. apply strip_trailing_chars, strip_leading_chars.
      apply replace_runs_chars; [reflexivity|]. apply keep_satisfies.
  - intros Hp. apply startsWith_spec in Hp.
    rewrite (strip_trailing_startsWith _ _ Hpre) in Hp. discriminate Hp.
  - apply strip_trailing_no_suffix, Hsub'.
  - intros Hs. apply includes_spec in Hs.
    rewrite (strip_trailing_includes _ _ Hsub') in Hs. discriminate Hs.
Qed.

(** ** Identifiers pass unchanged *)

Lemma slug_bool (s : string) :
  Spec.slug s <->
  Spec.all_chars Spec.slug_char s /\ JS.startsWith s "_" = false
  /\ ~ Spec.is_suffix "_" s /\ JS.includes s "__" = false.
Proof.
  unfold Spec.slug. rewrite <- startsWith_spec, <- includes_spec, !not_true_iff_false.
  reflexivity.
Qed.

Lemma toLowerCase_fixed (s : string) :
  Spec.all_chars (fun c => Ascii.eqb (JS.lower_char c) c) s -> JS.toLowerCase s = s.
Proof.
  induction s as [|c s IH]; intros H; [reflexivity|].
  apply all_chars_cons in H. destruct H as [Hc Hs]. apply Ascii.eqb_eq in Hc.
  cbn [JS.toLowerCase]. rewrite Hc, (IH Hs). reflexivity.
Qed.

Lemma remove_parens_from_app (a b : string) :
  Spec.all_chars (fun c => negb (JS.code c =? 40)) a ->
  Slug.remove_parens_from O (a +:+ b) = a +:+ Slug.remove_parens_from O b.
Proof.
  induction a as [|c a IH]; intros H; [reflexivity|].
  apply all_chars_cons in H. destruct H as [Hc Hs]. apply negb_true_iff in Hc.
  rewrite !append_cons. cbn [Slug.remove_parens_from]. rewrite Hc, (IH Hs). reflexivity.
Qed.

Lemma trimEnd_fixed (s : string) :
  Spec.all_chars (fun c => negb (JS.is_space c)) s -> Slug.trimEnd s = s.
Proof.
  induction s as [|c s IH]; intros H; [reflexivity|].
  apply all_chars_cons in H. destruct H as [Hc Hs]. apply negb_true_iff in Hc.
  rewrite trimEnd_cons, (IH Hs), Hc. destruct s; reflexivity.
Qed.

Lemma trimStart_fixed (s : string) :
  Spec.all_chars (fun c => negb (JS.is_space c)) s -> Slug.trimStart s = s.
Proof.
  destruct s as [|c s]; intros H; [reflexivity|].
  apply all_chars_cons in H. destruct H as [Hc _]. apply negb_true_iff in Hc.
  cbn [Slug.trimStart]. rewrite Hc. reflexivity.
Qed.

Lemma replace_runs_none (p : ascii -> bool) (r : ascii) (s : string) :
  forall b, Spec.all_chars (fun c => negb (p c)) s -> Slug.replace_runs p r b s = s.
Proof.
  induction s as [|c s IH]; intros b H; [reflexivity|].
  apply all_chars_cons in H. destruct H as [Hc Hs]. apply negb_true_iff in Hc.
  cbn [Slug.replace_runs]. rewrite Hc, (IH false Hs). reflexivity.
Qed.

Lemma keep_all (p : ascii -> bool) (s : string) :
  Spec.all_chars p s -> JS.keep p s = s.
Proof.
  induction s as [|c s IH]; intros H; [reflexivity|].
  apply all_chars_cons in H. destruct H as [Hc Hs].
  cbn [JS.keep]. rewrite Hc, (IH Hs). reflexivity.
Qed.

Lemma replace_runs_underscore_fixed (s : string) :
  forall b,
    JS.includes s "__" = false ->
    (b = true -> JS.startsWith s "_" = false) ->
    Slug.replace_runs Slug.is_underscore "_" b s = s.
Proof.
  induction s as [|c s IH]; intros b Hsub Hpre; [reflexivity|].
  rewrite includes_cons in Hsub. apply orb_false_iff in Hsub. destruct Hsub as [H1 H2].
  rewrite startsWith_cons in H1.
  cbn [Slug.replace_runs]. rewrite is_underscore_spec.
  destruct (Ascii.eqb c "_") eqn:Hc.
  - apply Ascii.eqb_eq in Hc. subst c.
    destruct b.
    { specialize (Hpre eq_refl). rewrite startsWith_cons, startsWith_nil in Hpre.
      discriminate Hpre. }
    rewrite (IH true H2 (fun _ => H1)). reflexivity.
  - rewrite (IH false H2); [reflexivity|discriminate].
Qed.

Lemma strip_leading_fixed (s : string) :
  JS.startsWith s "_" = false -> Slug.strip_leading s = s.
Proof.
  destruct s as [|c s]; intros H; [reflexivity|].
  rewrite startsWith_cons, startsWith_nil, andb_true_r in H.
  cbn [Slug.strip_leading]. rewrite is_underscore_spec, H. reflexivity.
Qed.

Lemma strip_trailing_fixed (s : string) :
  ~ Spec.is_suffix "_" s -> Slug.strip_trailing s = s.
Proof.
  induction s as [|c s IH]; intros H; [reflexivity|].
  destruct s as [|c' s].
  - cbn [Slug.strip_trailing]. destruct (Slug.is_underscore c) eqn:Hc; [|reflexivity].
    exfalso. apply H. apply is_underscore_eq in Hc. subst c. exists "". reflexivity.
  - rewrite strip_trailing_cons, IH; [reflexivity|].
    intros Hs. apply H. apply is_suffix_cons. right. exact Hs.
Qed.

(** The last three steps of [slugify] on an identifier. *)
Lemma slugify_back (s : string) :
  Spec.slug s ->
  Slug.strip_trailing
    (Slug.strip_leading
       (Slug.replace_runs Slug.is_underscore "_" false
          (JS.keep (fun c => Slug.is_word c || (JS.code c =? 45)) s))) = s.
Proof.
  intros Hs. apply slug_bool in Hs. destruct Hs as [Hchars [Hpre [Hsuf Hsub]]].
  rewrite keep_all.
  2:{ revert Hchars. apply all_chars_impl. intros c Hc. apply slug_char_facts, Hc. }
  rewrite replace_runs_underscore_fixed; [|exact Hsub|discriminate].
  rewrite (strip_leading_fixed _ Hpre). apply strip_trailing_fixed, Hsuf.
Qed.

Lemma slugify_of_slug (s : string) : Spec.slug s -> Slug.slugify s = s.
Proof.
  intros Hs. pose proof Hs as Hb. apply slug_bool in Hb. destruct Hb as [Hchars _].
  assert (Hspace : Spec.all_chars (fun c => negb (JS.is_space c)) s).
  { revert Hchars. apply all_chars_impl. intros c Hc.
    apply negb_true_iff, slug_char_facts, Hc. }
  unfold Slug.slugify, Slug.remove_parens, Slug.trim.
  rewrite toLowerCase_fixed.
  2:{ revert Hchars. apply all_chars_impl. intros c Hc.
      apply Ascii.eqb_eq, slug_char_facts, Hc. }
  rewrite <- (append_nil_r s) at 1. rewrite remove_parens_from_app.
  2:{ revert Hchars. apply all_chars_impl. intros c Hc.
      apply negb_true_iff, slug_char_facts, Hc. }
  cbn [Slug.remove_parens_from]. rewrite append_nil_r.
  rewrite (trimStart_fixed _ Hspace), (trimEnd_fixed _ Hspace),
    (replace_runs_none _ _ _ _ Hspace).
  apply slugify_back, Hs.
Qed.

(** ** The seed of a category without a label *)

Lemma underscores_to_spaces_chars (q : ascii -> bool) (s : string) :
  (forall c, Spec.slug_char c = true ->
             q (if Slug.is_underscore c then " "%char else c) = true) ->
  Spec.all_chars Spec.slug_char s ->
  Spec.all_chars q (Reinforce.underscores_to_spaces s).
Proof.
  intros Hq. induction s as [|c s IH]; intros H; [apply all_chars_nil|].
  apply all_chars_cons in H. destruct H as [Hc Hs].
  cbn [Reinforce.underscores_to_spaces]. apply all_chars_cons.
  split; [apply Hq, Hc|apply IH, Hs].
Qed.

Lemma name_char_facts (c : ascii) :
  Spec.slug_char c = true ->
  let c' := if Slug.is_underscore c then " "%char else c in
  Ascii.eqb (JS.lower_char c') c' = true /\ negb (JS.code c' =? 40) = true
  /\ JS.is_space c' = Slug.is_underscore c.
Proof.
  destruct c as [[] [] [] [] [] [] [] []]; vm_compute; intros H;
    first [discriminate H|repeat split].
Qed.

Lemma close_at_app (a b : string) :
  Spec.all_chars Spec.slug_char a ->
  Slug.close_at (a +:+ String ")" b) = Some (String.length a).
Proof.
  induction a as [|c a IH]; intros H; [reflexivity|].
  apply all_chars_cons in H. destruct H as [Hc Hs].
  destruct (slug_char_facts c Hc) as [_ [_ [_ [H41 [Hlt _]]]]].
  rewrite append_cons. cbn [Slug.close_at String.length]. rewrite H41, Hlt, (IH Hs).
  reflexivity.
Qed.

Lemma remove_parens_from_skip (a : string) (c : ascii) (b : string) :
  Slug.remove_parens_from (S (String.length a)) (a +:+ String c b)
  = Slug.remove_parens_from O b.
Proof.
  induction a as [|x a IH]; [reflexivity|].
  rewrite append_cons. cbn [Slug.remove_parens_from String.length]. exact IH.
Qed.

Lemma trimEnd_app_space (s : string) :
  Slug.trimEnd s = s -> Slug.trimEnd (s +:+ " ") = s.
Proof.
  induction s as [|c s IH]; intros H; [reflexivity|].
  rewrite trimEnd_cons in H. rewrite append_cons, trimEnd_cons.
  assert (Hs : Slug.trimEnd s = s).
  { destruct (Slug.trimEnd s) as [|c' t] eqn:E.
    - destruct (JS.is_space c); [discriminate H|]. injection H as <-. reflexivity.
    - injection H as <-. reflexivity. }
  rewrite (IH Hs). rewrite Hs in H. exact H.
Qed.

Lemma trimEnd_name (s : string) :
  Spec.all_chars Spec.slug_char s -> ~ Spec.is_suffix "_" s ->
  Slug.trimEnd (Reinforce.underscores_to_spaces s) = Reinforce.underscores_to_spaces s.
Proof.
  induction s as [|c s IH]; intros H Hsuf; [reflexivity|].
  apply all_chars_cons in H. destruct H as [Hc Hs].
  cbn [Reinforce.underscores_to_spaces]. rewrite trimEnd_cons.
  rewrite IH; [|exact Hs|intros Hx; apply Hsuf, is_suffix_cons; right; exact Hx].
  destruct s as [|c' s]; [|reflexivity].
  cbn [Reinforce.underscores_to_spaces].
  destruct (Slug.is_underscore c) eqn:Hu.
  - exfalso. apply Hsuf. apply is_underscore_eq in Hu. subst c. exists "". reflexivity.
  - destruct (slug_char_facts c Hc) as [_ [Hsp _]]. rewrite Hsp. reflexivity.
Qed.

Lemma replace_runs_name (s : string) :
  forall b,
    Spec.all_chars Spec.slug_char s ->
    JS.includes s "__" = false ->
    (b = true -> JS.startsWith s "_" = false) ->
    Slug.replace_runs JS.is_space "_" b (Reinforce.underscores_to_spaces s) = s.
Proof.
  induction s as [|c s IH]; intros b H Hsub Hpre; [reflexivity|].
  apply all_chars_cons in H. destruct H as [Hc Hs].
  rewrite includes_cons in Hsub. apply orb_false_iff in Hsub. destruct Hsub as [H1 H2].
  rewrite startsWith_cons in H1.
  cbn [Reinforce.underscores_to_spaces Slug.replace_runs].
  destruct (name_char_facts c Hc) as [_ [_ Hsp]]. cbv zeta in Hsp. rewrite Hsp.
  rewrite is_underscore_spec.
  destruct (Ascii.eqb c "_") eqn:Hu.
  - apply Ascii.eqb_eq in Hu. subst c.
    destruct b.
    { specialize (Hpre eq_refl). rewrite startsWith_cons, startsWith_nil in Hpre.
      discriminate Hpre. }
    rewrite (IH true Hs H2 (fun _ => H1)). reflexivity.
  - rewrite (IH false Hs H2); [reflexivity|discriminate].
Qed.

Lemma slugify_seed (s : string) :
  Spec.slug s ->
  Slug.slugify (Reinforce.underscores_to_spaces s +:+ " (" +:+ s +:+ ")") = s.
Proof.
  intros Hslug. pose proof Hslug as Hb. apply slug_bool in Hb.
  destruct Hb as [Hchars [Hpre [Hsuf Hsub]]].
  set (name := Reinforce.underscores_to_spaces s).
  unfold Slug.slugify, Slug.remove_parens, Slug.trim.
  rewrite !toLowerCase_app.
  rewrite (toLowerCase_fixed name).
  2:{ apply underscores_to_spaces_chars; [|exact Hchars].
      intros c Hc. apply (name_char_facts c Hc). }
  rewrite (toLowerCase_fixed s).
  2:{ revert Hchars. apply all_chars_impl. intros c Hc.
      apply Ascii.eqb_eq, slug_char_facts, Hc. }
  rewrite remove_parens_from_app.
  2:{ apply underscores_to_spaces_chars; [|exact Hchars].
      intros c Hc. apply (name_char_facts c Hc). }
  change (JS.toLowerCase " (" +:+ s +:+ JS.toLowerCase ")")
    with (String " " (String "(" (s +:+ String ")" ""))).
  cbn [Slug.remove_parens_from].
  change (JS.code " " =? 40) with false. change (JS.code "(" =? 40) with true.
  cbv iota. rewrite (close_at_app s "" Hchars), remove_parens_from_skip.
  cbn [Slug.remove_parens_from].
  assert (Htrim : Slug.trimEnd (Slug.trimStart (name +:+ " ")) = name).
  { destruct s as [|c s]; [reflexivity|].
    assert (Hstart : Slug.trimStart (name +:+ " ") = name +:+ " ").
    { subst name. cbn [Reinforce.underscores_to_spaces]. rewrite append_cons.
      cbn [Slug.trimStart].
      apply all_chars_cons in Hchars. destruct Hchars as [Hc _].
      destruct (name_char_facts c Hc) as [_ [_ Hsp]]. cbv zeta in Hsp. rewrite Hsp.
      rewrite startsWith_cons, startsWith_nil, andb_true_r in Hpre.
      rewrite is_underscore_spec, Hpre. reflexivity. }
    rewrite Hstart. apply trimEnd_app_space, trimEnd_name; assumption. }
  rewrite Htrim. subst name.
  rewrite (replace_runs_name s false Hchars Hsub); [|discriminate].
  apply slugify_back, Hslug.
Qed.

End SlugFacts.

Section SeedFacts.

Lemma paren_char_facts (c : ascii) :
  (JS.lower_char c = "("%char -> c = "("%char)
  /\ (c = ")"%char \/ Slug.is_line_terminator c = true -> JS.lower_char c = c)
  /\ ((JS.code (JS.lower_char c) =? 41) = (JS.code c =? 41))
  /\ Slug.is_line_terminator (JS.lower_char c) = Slug.is_line_terminator c
  /\ JS.lower_char (Popularity.upper_word_char c) = JS.lower_char c
  /\ ((JS.code c =? 40) = false ->
      (JS.code (if Slug.is_word c then Popularity.upper_word_char c else c) =? 40) = false).
Proof.
  destruct c as [[] [] [] [] [] [] [] []]; vm_compute;
    repeat split; intros H; first [discriminate H|reflexivity|destruct H; discriminate].
Qed.

Lemma close_at_lt (s : string) (n : nat) :
  Slug.close_at s = Some n -> (n < String.length s)%nat.
Proof.
  revert n. induction s as [|c s IH]; intros n H; [discriminate H|].
  cbn [Slug.close_at] in H. cbn [String.length].
  destruct (JS.code c =? 41); [injection H as <-; lia|].
  destruct (Slug.is_line_terminator c); [discriminate H|].
  destruct (Slug.close_at s) as [m|]; [|discriminate H].
  injection H as <-. specialize (IH m eq_refl). lia.
Qed.

Lemma close_at_decided (b x : string) :
  (exists c, In c (list_ascii_of_string b)
             /\ (c = ")"%char \/ Slug.is_line_terminator c = true)) ->
  Slug.close_at (b +:+ x) = Slug.close_at b.
Proof.
  induction b as [|c0 b IH]; intros [c [Hin Hc]]; [destruct Hin|].
  rewrite append_cons. cbn [Slug.close_at].
  destruct (JS.code c0 =? 41) eqn:H41; [reflexivity|].
  destruct (Slug.is_line_terminator c0) eqn:Hlt; [reflexivity|].
  rewrite IH; [reflexivity|]. exists c. split; [|exact Hc].
  cbn in Hin. destruct Hin as [->|Hin]; [|exact Hin].
  destruct Hc as [->|Hc]; [discriminate H41|congruence].
Qed.

Lemma close_at_plain (a b : string) :
  Spec.all_chars (fun c => negb (JS.code c =? 41) && negb (Slug.is_line_terminator c)) a ->
  Slug.close_at (a +:+ String ")" b) = Some (String.length a).
Proof.
  induction a as [|c a IH]; intros H; [reflexivity|].
  apply all_chars_cons in H. destruct H as [Hc Hs].
  apply andb_true_iff in Hc. destruct Hc as [H41 Hlt].
  apply negb_true_iff in H41. apply negb_true_iff in Hlt.
  rewrite append_cons. cbn [Slug.close_at String.length]. rewrite H41, Hlt, (IH Hs).
  reflexivity.
Qed.

Lemma parens_closed_tail (c : ascii) (s : string) :
  Spec.parens_closed (String c s) -> Spec.parens_closed s.
Proof. intros H a b ->. apply (H (String c a) b). reflexivity. Qed.

Lemma no_open_parens_closed (s : string) :
  Spec.all_chars (fun c => negb (JS.code c =? 40)) s -> Spec.parens_closed s.
Proof.
  intros H a b ->. exfalso. induction a as [|c a IH].
  - rewrite append_nil_l in H. apply all_chars_cons in H. destruct H as [H _].
    discriminate H.
  - rewrite append_cons in H. apply all_chars_cons in H. tauto.
Qed.

(** Text put after a text whose parentheses are closed does not change
    what is removed from that text. *)
Lemma remove_parens_from_closed (l x : string) :
  forall skip,
    (skip <= String.length l)%nat -> Spec.parens_closed l ->
    Slug.remove_parens_from skip (l +:+ x)
    = Slug.remove_parens_from skip l +:+ Slug.remove_parens_from O x.
Proof.
  induction l as [|c l IH]; intros skip Hskip Hclosed.
  - cbn [String.length] in Hskip. replace skip with O by lia. reflexivity.
  - pose proof (parens_closed_tail _ _ Hclosed) as Htail.
    cbn [String.length] in Hskip.
    rewrite append_cons. cbn [Slug.remove_parens_from].
    destruct skip as [|k]; [|apply IH; [lia|exact Htail]].
    destruct (JS.code c =? 40) eqn:H40.
    + assert (Hc : c = "("%char).
      { apply code_inj. apply Z.eqb_eq in H40. exact H40. }
      subst c. rewrite (close_at_decided l x (Hclosed "" l eq_refl)).
      destruct (Slug.close_at l) as [n|] eqn:Hn.
      * apply IH; [|exact Htail]. apply close_at_lt in Hn. lia.
      * rewrite append_cons, (IH O); [reflexivity|lia|exact Htail].
    + rewrite append_cons, (IH O); [reflexivity|lia|exact Htail].
Qed.

Lemma In_toLowerCase (c : ascii) (s : string) :
  In c (list_ascii_of_string s) ->
  In (JS.lower_char c) (list_ascii_of_string (JS.toLowerCase s)).
Proof.
  induction s as [|x s IH]; intros H; [destruct H|].
  cbn in H. cbn [JS.toLowerCase list_ascii_of_string]. destruct H as [->|H].
  - left. reflexivity.
  - right. apply IH, H.
Qed.

Lemma parens_closed_lower (s : string) :
  Spec.parens_closed s -> Spec.parens_closed (JS.toLowerCase s).
Proof.
  intros H a b Hab. apply toLowerCase_app_inv in Hab.
  destruct Hab as [s1 [s2 [-> [_ H2]]]].
  destruct s2 as [|c s2]; [discriminate H2|].
  cbn [JS.toLowerCase] in H2. injection H2 as Hc <-.
  apply (proj1 (paren_char_facts c)) in Hc. subst c.
  destruct (H s1 s2 eq_refl) as [c [Hin Hc]].
  exists c. split.
  - rewrite <- (proj1 (proj2 (paren_char_facts c)) Hc). apply In_toLowerCase, Hin.
  - exact Hc.
Qed.

Lemma id_chars_lower (s : string) :
  Spec.all_chars (fun c => negb (JS.code c =? 41) && negb (Slug.is_line_terminator c)) s ->
  Spec.all_chars (fun c => negb (JS.code c =? 41) && negb (Slug.is_line_terminator c))
    (JS.toLowerCase s).
Proof.
  induction s as [|c s IH]; intros H; [exact H|].
  apply all_chars_cons in H. destruct H as [Hc Hs].
  cbn [JS.toLowerCase]. apply all_chars_cons. split; [|apply IH, Hs].
  destruct (paren_char_facts c) as [_ [_ [H41 [Hlt _]]]]. rewrite H41, Hlt. exact Hc.
Qed.

Lemma trimEnd_app_space_any (s : string) :
  Slug.trimEnd (s +:+ " ") = Slug.trimEnd s.
Proof.
  induction s as [|c s IH]; [reflexivity|].
  rewrite append_cons, !trimEnd_cons, IH. reflexivity.
Qed.

Lemma trim_app_space (s : string) : Slug.trim (s +:+ " ") = Slug.trim s.
Proof.
  unfold Slug.trim. induction s as [|c s IH]; [reflexivity|].
  rewrite append_cons. cbn [Slug.trimStart]. destruct (JS.is_space c); [exact IH|].
  rewrite <- append_cons. apply trimEnd_app_space_any.
Qed.

(** The identifier made from a seed string is the one made from the name
    in it: the parenthesized identifier is dropped. *)
Lemma slugify_seed_name (name id : string) :
  Spec.parens_closed name ->
  Spec.all_chars (fun c => negb (JS.code c =? 41) && negb (Slug.is_line_terminator c)) id ->
  Slug.slugify (name +:+ " (" +:+ id +:+ ")") = Slug.slugify name.
Proof.
  intros Hname Hid. unfold Slug.slugify, Slug.remove_parens.
  rewrite !toLowerCase_app.
  change (JS.toLowerCase " (" +:+ JS.toLowerCase id +:+ JS.toLowerCase ")")
    with (String " " (String "(" (JS.toLowerCase id +:+ String ")" ""))).
  rewrite remove_parens_from_closed; [|lia|apply parens_closed_lower, Hname].
  cbn [Slug.remove_parens_from].
  change (JS.code " " =? 40) with false. change (JS.code "(" =? 40) with true.
  cbv iota. rewrite (close_at_plain _ "" (id_chars_lower _ Hid)), remove_parens_from_skip.
  cbn [Slug.remove_parens_from]. rewrite trim_app_space. reflexivity.
Qed.

Lemma slugify_lower (a b : string) :
  JS.toLowerCase a = JS.toLowerCase b -> Slug.slugify a = Slug.slugify b.
Proof. intros H. unfold Slug.slugify. rewrite H. reflexivity. Qed.

Lemma toLowerCase_capitalize (s : string) :
  forall prev_word,
    JS.toLowerCase (Popularity.capitalize_from prev_word s) = JS.toLowerCase s.
Proof.
  induction s as [|c s IH]; intros prev_word; [reflexivity|].
  cbn [Popularity.capitalize_from JS.toLowerCase]. rewrite IH. f_equal.
  destruct (Slug.is_word c && negb prev_word); [|reflexivity].
  apply paren_char_facts.
Qed.

Lemma slug_id_chars (s : string) :
  Spec.all_chars Spec.slug_char s ->
  Spec.all_chars (fun c => negb (JS.code c =? 41) && negb (Slug.is_line_terminator c)) s.
Proof.
  apply all_chars_impl. intros c Hc.
  destruct (slug_char_facts c Hc) as [_ [_ [_ [H41 [Hlt _]]]]]. rewrite H41, Hlt. reflexivity.
Qed.

Lemma slug_name_closed (s : string) :
  Spec.all_chars Spec.slug_char s ->
  Spec.parens_closed (Reinforce.underscores_to_spaces s).
Proof.
  intros H. apply no_open_parens_closed, underscores_to_spaces_chars; [|exact H].
  intros c Hc. apply (name_char_facts c Hc).
Qed.

(** The name made from a well-formed identifier gives the identifier
    back, and so does the label made from it. *)
Lemma slugify_name (s : string) :
  Spec.slug s -> Slug.slugify (Reinforce.underscores_to_spaces s) = s.
Proof.
  intros Hs. pose proof (proj1 (proj1 (slug_bool s) Hs)) as Hchars.
  rewrite <- (slugify_seed_name _ s (slug_name_closed s Hchars) (slug_id_chars s Hchars)).
  apply slugify_seed, Hs.
Qed.

Lemma slugify_fallbackLabel (s : string) :
  Spec.slug s -> Slug.slugify (Popularity.fallbackLabel s) = s.
Proof.
  intros Hs. rewrite <- (slugify_name s Hs) at 2. apply slugify_lower.
  apply toLowerCase_capitalize.
Qed.

Lemma capitalize_no_open (s : string) :
  forall prev_word,
    Spec.all_chars (fun c => negb (JS.code c =? 40)) s ->
    Spec.all_chars (fun c => negb (JS.code c =? 40)) (Popularity.capitalize_from prev_word s).
Proof.
  induction s as [|c s IH]; intros prev_word H; [exact H|].
  apply all_chars_cons in H. destruct H as [Hc Hs]. apply negb_true_iff in Hc.
  cbn [Popularity.capitalize_from]. apply all_chars_cons. split; [|apply IH, Hs].
  apply negb_true_iff.
  pose proof (proj2 (proj2 (proj2 (proj2 (proj2 (paren_char_facts c))))) Hc) as H.
  destruct (Slug.is_word c); destruct prev_word; cbn [andb negb]; assumption.
Qed.

Lemma fallbackLabel_closed (s : string) :
  Spec.all_chars Spec.slug_char s -> Spec.parens_closed (Popularity.fallbackLabel s).
Proof.
  intros H. apply no_open_parens_closed, capitalize_no_open.
  apply underscores_to_spaces_chars; [|exact H].
  intros c Hc. apply (name_char_facts c Hc).
Qed.

(** The identifier a seed string is turned into. *)
Lemma seed_target (item : Reinforce.CategoryPopularityItem) :
  let name :=
    JS.or_else (Some (Reinforce.label item))
               (Reinforce.underscores_to_spaces (Reinforce.category_id item)) in
  (Spec.parens_closed name ->
   Spec.all_chars (fun c => negb (JS.code c =? 41) && negb (Slug.is_line_terminator c))
     (Reinforce.category_id item) ->
   Slug.slugify (Reinforce.buildSeedString item) = Slug.slugify name)
  /\ (Spec.slug (Reinforce.category_id item) ->
      Reinforce.label item = ""
      \/ Reinforce.label item = Popularity.fallbackLabel (Reinforce.category_id item) ->
      Slug.slugify (Reinforce.buildSeedString item) = Reinforce.category_id item).
Proof.
  intros name.
  assert (Hgen : Spec.parens_closed name ->
            Spec.all_chars
              (fun c => negb (JS.code c =? 41) && negb (Slug.is_line_terminator c))
              (Reinforce.category_id item) ->
            Slug.slugify (Reinforce.buildSeedString item) = Slug.slugify name).
  { intros Hname Hid. unfold Reinforce.buildSeedString. fold name.
    apply slugify_seed_name; assumption. }
  split; [exact Hgen|]. intros Hslug Hlabel.
  pose proof (proj1 (proj1 (slug_bool _) Hslug)) as Hchars.
  assert (Hname : name = Reinforce.underscores_to_spaces (Reinforce.category_id item)
                  \/ name = Popularity.fallbackLabel (Reinforce.category_id item)).
  { subst name. destruct Hlabel as [Hl|Hl]; rewrite Hl; [left; reflexivity|].
    destruct (Popularity.fallbackLabel (Reinforce.category_id item)) eqn:E;
      [left; reflexivity|right; reflexivity]. }
  rewrite Hgen.
  - destruct Hname as [Hn|Hn]; rewrite Hn;
      [apply slugify_name|apply slugify_fallbackLabel]; exact Hslug.
  - destruct Hname as [Hn|Hn]; rewrite Hn;
      [apply slug_name_closed|apply fallbackLabel_closed]; exact Hchars.
  - apply slug_id_chars, Hchars.
Qed.

End SeedFacts.

(** X20.  Whatever the input text, [slugify] returns a well-formed
    identifier (lower-case letters, digits, hyphens and single underscores,
    none of them at either end), and applying it again changes nothing. *)
Theorem slugify_wellformed (text : string) :
  Spec.slug (Slug.slugify text)
  /\ Slug.slugify (Slug.slugify text) = Slug.slugify text.
Proof. split; [apply slugify_is_slug|apply slugify_of_slug, slugify_is_slug]. Qed.

(** X21.  The texts [slugify] leaves unchanged are exactly the well-formed
    identifiers. *)
Theorem slugify_fixed_points (s : string) : Slug.slugify s = s <-> Spec.slug s.
Proof.
  split; [intros H; rewrite <- H; apply slugify_is_slug|apply slugify_of_slug].
Qed.

(** X22.  The identifier a reinforcement seed is turned into.
    [buildSeedString] writes the name of the category, its label or, for
    want of a label, its identifier with spaces for underscores, followed
    by the identifier in parentheses; [slugify], and so [parseInput], drops
    the parenthesized identifier and makes the identifier from the name.
    This holds whenever the parentheses of the name are closed and the
    identifier holds no closing parenthesis and no line terminator.  The
    seed thus gives the category's own identifier back exactly when the
    name does; it does for a category with a well-formed identifier that
    has no label or the label the popularity ranking makes from the
    identifier. *)
Theorem buildSeedString_slug (item : Reinforce.CategoryPopularityItem)
    (parsed : ParsedAnswer.t) :
  let name :=
    JS.or_else (Some (Reinforce.label item))
               (Reinforce.underscores_to_spaces (Reinforce.category_id item)) in
  let seed := Reinforce.buildSeedString item in
  (Spec.parens_closed name ->
   Spec.all_chars (fun c => negb (JS.code c =? 41) && negb (Slug.is_line_terminator c))
     (Reinforce.category_id item) ->
   Slug.slugify seed = Slug.slugify name
   /\ ParsedInput.category_id (CategoryBuilder.parseInput seed parsed) = Slug.slugify name
   /\ (Reinforce.label item <> "" ->
       Slug.slugify seed = Slug.slugify (Reinforce.label item))
   /\ (Slug.slugify seed = Reinforce.category_id item
       <-> Slug.slugify name = Reinforce.category_id item))
  /\ (Spec.slug (Reinforce.category_id item) ->
      Reinforce.label item = ""
      \/ Reinforce.label item = Popularity.labelFor None (Reinforce.category_id item) ->
      Slug.slugify seed = Reinforce.category_id item
      /\ ParsedInput.category_id (CategoryBuilder.parseInput seed parsed)
         = Reinforce.category_id item).
Proof.
  intros name seed. destruct (seed_target item) as [Hgen Hown]. fold name seed in Hgen, Hown.
  split.
  - intros Hname Hid. specialize (Hgen Hname Hid).
    split; [exact Hgen|]. split; [exact Hgen|]. split; [|rewrite Hgen; reflexivity].
    intros Hlabel. rewrite Hgen. subst name.
    destruct (Reinforce.label item); [destruct (Hlabel eq_refl)|reflexivity].
  - intros Hslug Hlabel.
    assert (H : Slug.slugify seed = Reinforce.category_id item).
    { apply Hown; [exact Hslug|]. exact Hlabel. }
    split; exact H.
Qed.

Lemma buildSeedString_slug_witness :
  let labelled :=
    {| Reinforce.category_id := "us_baby_teether_toy";
       Reinforce.label := "Silicone Baby Teether Toy (BPA-free)";
       Reinforce.total_count := 12; Reinforce.first_seen_at := "2024-01-01";
       Reinforce.last_seen_at := "2024-02-01" |} in
  let ranked :=
    {| Reinforce.category_id := "baby_teether-toy";
       Reinforce.label := Popularity.labelFor None "baby_teether-toy";
       Reinforce.total_count := 3; Reinforce.first_seen_at := "2024-01-01";
       Reinforce.last_seen_at := "2024-02-01" |} in
  Reinforce.buildSeedString labelled
  = "Silicone Baby Teether Toy (BPA-free) (us_baby_teether_toy)"
  /\ Slug.slugify (Reinforce.buildSeedString labelled) = "silicone_baby_teether_toy"
  /\ Reinforce.buildSeedString ranked = "Baby Teether-Toy (baby_teether-toy)"
  /\ Slug.slugify (Reinforce.buildSeedString ranked) = "baby_teether-toy".
Proof.
  intros labelled ranked.
  pose (parsed := {| ParsedAnswer.label := None; ParsedAnswer.targetMarket := None;
                     ParsedAnswer.exampleProducts := None;
                     ParsedAnswer.probableHtsCodes := None;
                     ParsedAnswer.relatedCategories := None |}).
  split; [reflexivity|]. split; [|split; [reflexivity|]].
  - refine (eq_trans
              (proj1 (proj1 (buildSeedString_slug labelled parsed) _ _)) eq_refl).
    + intros a b Hab.
      assert (Hin : In "("%char (list_ascii_of_string (a +:+ String "(" b))).
      { clear. induction a as [|c a IH]; [left; reflexivity|right; exact IH]. }
      assert (Hb : b = "BPA-free)").
      { clear Hin. cbn in Hab.
        repeat (destruct a as [|? a];
                [first [injection Hab as <-; reflexivity|discriminate Hab]
                |injection Hab as _ Hab]).
        destruct a; discriminate Hab. }
      subst b. exists ")"%char. split; [|left; reflexivity].
      cbn. tauto.
    + intros c Hc. cbn in Hc.
      repeat (destruct Hc as [<-|Hc]; [reflexivity|]). destruct Hc.
  - refine (proj1 (proj2 (buildSeedString_slug ranked parsed) _ (or_intror eq_refl))).
    change (Spec.slug (Slug.slugify "baby_teether-toy")). apply slugify_is_slug.
Defined.

Lemma or_else_nonempty (x : option string) (dflt : string) :
  dflt <> "" -> JS.or_else x dflt <> "".
Proof. intros Hd. destruct x as [[|c s]|]; cbn [JS.or_else]; first [exact Hd|discriminate]. Qed.

Lemma generateCategoryKnowledge_built askParse researchWithGemini verifyWithGemini
    (inputText : string) c f :
  CategoryBuilder.generateCategoryKnowledge askParse researchWithGemini verifyWithGemini
    inputText = Some (c, f) ->
  exists parsed verifiedResearch,
    c = CategoryBuilder.buildComplianceJson
          (CategoryBuilder.parseInput inputText parsed) verifiedResearch
    /\ f = CategoryBuilder.buildFactoryJson
             (CategoryBuilder.parseInput inputText parsed) verifiedResearch.
Proof.
  unfold CategoryBuilder.generateCategoryKnowledge.
  destruct (askParse inputText) as [parsed|]; [|discriminate].
  destruct (researchWithGemini inputText _) as [initialResearch|]; [|discriminate].
  destruct (verifyWithGemini initialResearch _) as [verifiedResearch|]; [|discriminate].
  intros [= <- <-]. exists parsed, verifiedResearch. split; reflexivity.
Qed.

(** X23.  Whatever the model answers in the three calls, the two records
    [generateCategoryKnowledge] returns belong together: both carry the
    identifier [slugify] derives from the input text, which is well formed,
    and the same label, which is not empty unless the input text is; and
    the compliance record names exactly one target market, never none. *)
Theorem generateCategoryKnowledge_pair askParse researchWithGemini verifyWithGemini
    (inputText : string) c f :
  CategoryBuilder.generateCategoryKnowledge askParse researchWithGemini verifyWithGemini
    inputText = Some (c, f) ->
  Compliance.id c = Slug.slugify inputText
  /\ Spec.slug (Compliance.id c)
  /\ FactoryVetting.id f = Compliance.id c
  /\ FactoryVetting.label f = Compliance.label c
  /\ (inputText <> "" -> Compliance.label c <> "")
  /\ (exists market, Compliance.targetMarkets c = [market] /\ market <> "").
Proof.
  intros Hgen. apply generateCategoryKnowledge_built in Hgen.
  destruct Hgen as [parsed [verifiedResearch [-> ->]]].
  cbn [CategoryBuilder.buildComplianceJson CategoryBuilder.buildFactoryJson
       CategoryBuilder.parseInput Compliance.id Compliance.label FactoryVetting.id
       FactoryVetting.label Compliance.targetMarkets ParsedInput.category_id
       ParsedInput.category_label ParsedInput.targetMarket].
  split; [reflexivity|]. split; [apply slugify_is_slug|].
  split; [reflexivity|]. split; [reflexivity|]. split; [apply or_else_nonempty|].
  eexists. split; [reflexivity|]. apply or_else_nonempty. discriminate.
Qed.

Lemma generateCategoryKnowledge_pair_witness :
  let askParse (_ : string) :=
    Some {| ParsedAnswer.label := Some "Silicone Baby Teether Toy";
            ParsedAnswer.targetMarket := None; ParsedAnswer.exampleProducts := None;
            ParsedAnswer.probableHtsCodes := Some ["9503.00.00"];
            ParsedAnswer.relatedCategories := None |} in
  let research (_ : string) (_ : ParsedInput.t) :=
    Some {| ResearchData.compliance :=
              {| ResearchCompliance.typicalHtsCodes := None;
                 ResearchCompliance.requiredRegulations := Some ["CPSIA"];
                 ResearchCompliance.testingRequirements := None;
                 ResearchCompliance.highRiskFlags := None;
                 ResearchCompliance.referenceLinks := None;
                 ResearchCompliance.exampleProducts := None |};
            ResearchData.factory :=
              {| ResearchFactory.typicalSupplierTypes := None;
                 ResearchFactory.mustHaveCertificates := Some ["ISO 9001"];
                 ResearchFactory.niceToHaveCertificates := None;
                 ResearchFactory.sampleQuestionsToFactory := None;
                 ResearchFactory.commonRedFlags := None;
                 ResearchFactory.recommendedAlibabaFilters := None |} |} in
  let verify (r : ResearchData.t) (_ : string) := Some r in
  exists c f,
    CategoryBuilder.generateCategoryKnowledge askParse research verify
      "US baby teether toy (silicone)" = Some (c, f)
    /\ Compliance.id c = "us_baby_teether_toy"
    /\ FactoryVetting.id f = Compliance.id c.
Proof.
  intros askParse research verify. eexists. eexists.
  split; [reflexivity|]. split; [reflexivity|].
  refine (proj1 (proj2 (proj2
            (generateCategoryKnowledge_pair askParse research verify
               "US baby teether toy (silicone)" _ _ eq_refl)))).
Defined.

(** The status a successful merge reports for the compliance file. *)
Lemma mergeIntoFiles_status complianceJson factoryJson fs fs1 st :
  AutoCategory.mergeIntoFiles complianceJson factoryJson fs = (fs1, Some st) ->
  AutoCategory.compliance st
  = (AutoCategory.upsert Compliance.id complianceJson
       (Compliance.categories (KnowledgeStore.loadComplianceRules fs))).2.
Proof.
  unfold AutoCategory.mergeIntoFiles, KnowledgeStore.loadComplianceRules.
  destruct (AutoCategory.ensureFileExists (AutoCategory.COMPLIANCE_FILE fs) _)
    as [complianceData|] eqn:Hc; [|discriminate].
  cbn [AutoCategory.FACTORY_FILE AutoCategory.FACTORY_SAMPLE].
  destruct (AutoCategory.ensureFileExists (AutoCategory.FACTORY_FILE fs) _)
    as [factoryData|] eqn:Hf; [|discriminate].
  destruct (AutoCategory.upsert Compliance.id complianceJson
              (AutoCategory.categories complianceData)) as [cc cs] eqn:Hcu.
  destruct (AutoCategory.upsert FactoryVetting.id factoryJson
              (AutoCategory.categories factoryData)) as [fc fstat] eqn:Hfu.
  cbv beta iota zeta. intros [= _ <-]. cbn [AutoCategory.compliance].
  assert (Hcd : Compliance.categories
                  match AutoCategory.COMPLIANCE_FILE fs with
                  | Some d => {| Compliance.categories := AutoCategory.categories d |}
                  | None => {| Compliance.categories := [] |}
                  end = AutoCategory.categories complianceData).
  { unfold AutoCategory.ensureFileExists in Hc.
    destruct (AutoCategory.COMPLIANCE_FILE fs) as [d|]; [injection Hc as ->; reflexivity|].
    destruct (AutoCategory.COMPLIANCE_SAMPLE fs); [injection Hc as <-; reflexivity|discriminate]. }
  rewrite Hcd, Hcu. reflexivity.
Qed.

(** X24.  What a reinforcement run does to the compliance file.  The
    record generated from the seed string of a category carries the
    identifier made from the category's name (its label or, for want of a
    label, its identifier with spaces for underscores), and after the merge
    the lookup of that identifier returns the record.  When the file had a
    record of that identifier, the record is replaced in place: the file
    keeps its identifiers, in their order, and the status is "updated".
    When it had none, the record is appended and the status is "created";
    if the identifier made from the name is not the category's own, the
    category's own record is left as it was.  The category is updated in
    place when its identifier is well formed, is in the file, and the
    category has no label or the label the popularity ranking makes from the
    identifier. *)
Theorem reinforce_merge askParse researchWithGemini verifyWithGemini
    (item : Reinforce.CategoryPopularityItem) c f fs fs1 st :
  let name :=
    JS.or_else (Some (Reinforce.label item))
               (Reinforce.underscores_to_spaces (Reinforce.category_id item)) in
  let target := Slug.slugify name in
  Spec.parens_closed name ->
  Spec.all_chars (fun c => negb (JS.code c =? 41) && negb (Slug.is_line_terminator c))
    (Reinforce.category_id item) ->
  CategoryBuilder.generateCategoryKnowledge askParse researchWithGemini verifyWithGemini
    (Reinforce.buildSeedString item) = Some (c, f) ->
  AutoCategory.mergeIntoFiles c f fs = (fs1, Some st) ->
  let rules := KnowledgeStore.loadComplianceRules fs in
  let rules1 := KnowledgeStore.loadComplianceRules fs1 in
  Compliance.id c = target
  /\ Compliance.getComplianceByCategory rules1 target None = Some c
  /\ (In target (Spec.ids Compliance.id (Compliance.categories rules)) ->
      Spec.ids Compliance.id (Compliance.categories rules1)
      = Spec.ids Compliance.id (Compliance.categories rules)
      /\ AutoCategory.compliance st = "updated")
  /\ (~ In target (Spec.ids Compliance.id (Compliance.categories rules)) ->
      Compliance.categories rules1 = (Compliance.categories rules ++ [c])%list
      /\ AutoCategory.compliance st = "created")
  /\ (target <> Reinforce.category_id item ->
      forall market,
        Compliance.getComplianceByCategory rules1 (Reinforce.category_id item) market
        = Compliance.getComplianceByCategory rules (Reinforce.category_id item) market)
  /\ (Spec.slug (Reinforce.category_id item) ->
      Reinforce.label item = ""
      \/ Reinforce.label item = Popularity.labelFor None (Reinforce.category_id item) ->
      target = Reinforce.category_id item).
Proof.
  intros name target Hname Hidchars Hgen Hmerge rules rules1.
  destruct (seed_target item) as [Hseed Hown]. fold name in Hseed.
  assert (Hid : Compliance.id c = target).
  { apply generateCategoryKnowledge_built in Hgen.
    destruct Hgen as [parsed [verifiedResearch [-> _]]].
    cbn [CategoryBuilder.buildComplianceJson CategoryBuilder.parseInput Compliance.id
         ParsedInput.category_id].
    apply Hseed; assumption. }
  destruct (mergeIntoFiles_files _ _ _ _ _ Hmerge) as [Hc _].
  pose proof (mergeIntoFiles_status _ _ _ _ _ Hmerge) as Hst.
  fold rules rules1 in Hc. fold rules in Hst.
  split; [exact Hid|]. split.
  { unfold Compliance.getComplianceByCategory. rewrite Hc, <- Hid, find_upsert_same.
    reflexivity. }
  split.
  { intros Hin. rewrite <- Hid in Hin. rewrite Hc, Hst.
    destruct (upsert_merged Compliance.id c (Compliance.categories rules))
      as [_ [_ [Hids _]]].
    split; [apply Hids, Hin|].
    destruct (upsert_cases Compliance.id c (Compliance.categories rules))
      as [[_ Hall]|[i [x [-> _]]]]; [|reflexivity].
    apply in_map_iff in Hin. destruct Hin as [x [Hx Hin]]. destruct (Hall x Hin Hx). }
  split.
  { intros Hnin. rewrite <- Hid in Hnin. rewrite Hc, Hst.
    destruct (upsert_cases Compliance.id c (Compliance.categories rules))
      as [[-> _]|[i [x [_ [Hi [Hx _]]]]]]; [split; reflexivity|].
    exfalso. apply Hnin. unfold Spec.ids. rewrite <- Hx.
    apply in_map. clear -Hi. revert i Hi.
    induction (Compliance.categories rules) as [|y l IH]; intros [|i] Hi;
      try discriminate Hi.
    - injection Hi as ->. left. reflexivity.
    - right. apply (IH i Hi). }
  split.
  { intros Hne market. unfold Compliance.getComplianceByCategory.
    rewrite Hc, find_upsert_other; [reflexivity|]. congruence. }
  intros Hslug Hlabel. fold name in Hown. unfold target.
  rewrite <- Hseed; [|exact Hname|exact Hidchars]. apply Hown; assumption.
Qed.

Lemma reinforce_merge_witness :
  let item :=
    {| Reinforce.category_id := "baby_teether";
       Reinforce.label := Popularity.labelFor None "baby_teether";
       Reinforce.total_count := 3; Reinforce.first_seen_at := "2024-01-01";
       Reinforce.last_seen_at := "2024-03-01" |} in
  let rule regs :=
    {| Compliance.id := "baby_teether"; Compliance.label := "Baby Teether (baby_teether)";
       Compliance.exampleProducts := ["Baby Teether (baby_teether)"];
       Compliance.targetMarkets := ["United States"];
       Compliance.typicalHtsCodes := []; Compliance.requiredRegulations := regs;
       Compliance.testingRequirements := []; Compliance.highRiskFlags := [];
       Compliance.referenceLinks := [] |} in
  let askParse (_ : string) :=
    Some {| ParsedAnswer.label := None; ParsedAnswer.targetMarket := None;
            ParsedAnswer.exampleProducts := None; ParsedAnswer.probableHtsCodes := None;
            ParsedAnswer.relatedCategories := None |} in
  let research (_ : string) (_ : ParsedInput.t) :=
    Some {| ResearchData.compliance :=
              {| ResearchCompliance.typicalHtsCodes := None;
                 ResearchCompliance.requiredRegulations := Some ["CPSIA"];
                 ResearchCompliance.testingRequirements := None;
                 ResearchCompliance.highRiskFlags := None;
                 ResearchCompliance.referenceLinks := None;
                 ResearchCompliance.exampleProducts := None |};
            ResearchData.factory :=
              {| ResearchFactory.typicalSupplierTypes := None;
                 ResearchFactory.mustHaveCertificates := None;
                 ResearchFactory.niceToHaveCertificates := None;
                 ResearchFactory.sampleQuestionsToFactory := None;
                 ResearchFactory.commonRedFlags := None;
                 ResearchFactory.recommendedAlibabaFilters := None |} |} in
  let verify (r : ResearchData.t) (_ : string) := Some r in
  let fs :=
    {| AutoCategory.COMPLIANCE_FILE :=
         Some {| AutoCategory.comment := None; AutoCategory.categories := [rule []];
                 AutoCategory.members := [] |};
       AutoCategory.FACTORY_FILE :=
         Some {| AutoCategory.comment := None; AutoCategory.categories := [];
                 AutoCategory.members := [] |};
       AutoCategory.COMPLIANCE_SAMPLE := None; AutoCategory.FACTORY_SAMPLE := None |} in
  exists f fs1 st,
    CategoryBuilder.generateCategoryKnowledge askParse research verify
      (Reinforce.buildSeedString item) = Some (rule ["CPSIA"], f)
    /\ AutoCategory.mergeIntoFiles (rule ["CPSIA"]) f fs = (fs1, Some st)
    /\ Spec.ids Compliance.id
         (Compliance.categories (KnowledgeStore.loadComplianceRules fs1))
       = ["baby_teether"]
    /\ AutoCategory.compliance st = "updated".
Proof.
  intros item rule askParse research verify fs.
  eexists. eexists. eexists. split; [reflexivity|]. split; [reflexivity|].
  refine (proj1 (proj2 (proj2
            (reinforce_merge askParse research verify item (rule ["CPSIA"]) _ fs _ _
               _ _ eq_refl eq_refl))) _).
  - apply no_open_parens_closed. intros c Hc. cbn in Hc.
    repeat (destruct Hc as [<-|Hc]; [reflexivity|]). destruct Hc.
  - intros c Hc. cbn in Hc.
    repeat (destruct Hc as [<-|Hc]; [reflexivity|]). destruct Hc.
  - left. reflexivity.
Defined.
